(** * Universal Agent SDK: the agent execution engine, embedded in Rocq

    A shallow embedding of the parts of the SDK that the specification's
    testable properties talk about:
    - [Types]: the message and content model of [types.py];
    - [Client]: the hook pipeline, the tool executor and the two agent
      loops of [client.py];
    - [OpenAI] and [Claude]: the streaming accumulators of
      [providers/openai.py] and [providers/claude.py];
    - [AzureOpenAIProvider] and [Config]: the resolution of api_version;
    - [SessionManager]: [examples/docker/api/session_manager.py].

    Around them, the code that calls these parts or is called by them:
    - [Lifecycle]: [connect], [disconnect], [clear_history] and
      [get_text_response] of [client.py];
    - [OpenAIFormat] and [ClaudeFormat]: the message formatting and the
      response parsing of the two providers;
    - [Api]: the routes of [examples/docker/api/routes] that use the
      session manager;
    - [ConfigApi]: [set], [validate] and [is_configured] of [config.py];
    - [Query]: the tool loop of [query.py];
    - [AgentServer]: the SSE translation of
      [examples/docker/container/agent_server.py].

    Python dictionaries that are merged or looked up by key are [gmap]s
    (with the rank of each insertion where the dictionary is walked),
    dictionary literals handed to the caller are association lists in
    source order, generators are the list of what they yield together
    with the exception that ends them, a [string] holds the UTF-8
    encoding of a Python [str]. The code the SDK calls (hooks, tool
    handlers, the permission callback, providers) returns a value of
    its declared type or raises an exception. *)

From Stdlib Require Import ZArith Lia.
From stdpp Require Import base option list strings gmap fin_maps sorting pretty.

Local Open Scope string_scope.
Local Open Scope list_scope.
Set Warnings "-register-all".

(** ** types.py *)

Module Types.

(** A JSON value ([Any] as produced by [json.loads]); floats are not
    needed by any property below and are left out. *)
Inductive json :=
| JNull
| JBool (b : bool)
| JNum (n : Z)
| JStr (s : string)
| JList (l : list json)
| JDict (d : list (string * json)).

(** Python truthiness of a JSON value ([x or y], [if x:]). *)
Definition truthy (j : json) : bool :=
  match j with
  | JNull => false
  | JBool b => b
  | JNum n => negb (n =? 0)%Z
  | JStr s => negb (String.eqb s "")
  | JList l => negb (Nat.eqb (length l) 0)
  | JDict d => negb (Nat.eqb (length d) 0)
  end.

(** Truthiness of a [str | None]. *)
Definition truthy_str (o : option string) : bool :=
  match o with
  | Some s => negb (String.eqb s "")
  | None => false
  end.

(** [str(x)] of a [str | None], as an f-string renders it. *)
Definition fmt (o : option string) : string :=
  match o with
  | Some s => s
  | None => "None"
  end.

Inductive FinishReason := STOP | LENGTH | TOOL_USE | CONTENT_FILTER | ERROR.

Record ToolUseBlock := {
  id : string;
  name : string;
  input : json;
}.

Inductive ContentBlock :=
| TextBlock (text : string)
| ImageBlock (source media_type : string)
| ThinkingBlock (thinking : string) (signature : option string)
| ToolUse (b : ToolUseBlock)
| ToolResultBlock (tool_use_id : string) (content : option string) (is_error : bool).

Record AssistantMessage := {
  content : list ContentBlock;
  model : option string;
  finish_reason : option FinishReason;
}.

Record ToolMessage := {
  tool_content : string;
  tool_call_id : string;
}.

Inductive Message :=
| User (content : string + list ContentBlock)
| Assistant (m : AssistantMessage)
| System (content : string)
| Tool (m : ToolMessage).

Record Usage := {
  prompt_tokens : Z;
  completion_tokens : Z;
  total_tokens : Z;
  cache_read_tokens : option Z;
  cache_creation_tokens : option Z;
}.

Record ResultMessage := {
  is_error : bool;
  num_turns : Z;
  session_id : option string;
  usage : option Usage;
  result_finish_reason : option FinishReason;
}.

(** [delta] is a dictionary literal built by the emitter and only read
    by the caller: an association list in the order the source writes
    the keys. *)
Record StreamEvent := {
  event_type : string;
  index : option Z;
  delta : option (list (string * json));
}.

Inductive AnyMessage :=
| AMessage (m : Message)
| AResult (r : ResultMessage)
| AEvent (e : StreamEvent).

(** [d.get(k)] on an association list. *)
Fixpoint get (k : string) (d : list (string * json)) : option json :=
  match d with
  | [] => None
  | (k', v) :: rest => if String.eqb k k' then Some v else get k rest
  end.

(** [event.delta.get("type")]. *)
Definition delta_type (e : StreamEvent) : option json :=
  match delta e with
  | Some d => get "type" d
  | None => None
  end.

Definition isinstance_ResultMessage (m : AnyMessage) : bool :=
  match m with AResult _ => true | _ => false end.

Definition isinstance_AssistantMessage (m : AnyMessage) : option AssistantMessage :=
  match m with AMessage (Assistant a) => Some a | _ => None end.

Definition isinstance_ToolUseBlock (b : ContentBlock) : option ToolUseBlock :=
  match b with ToolUse t => Some t | _ => None end.

(** A Python exception: [type(e).__name__] and [str(e)]. *)
Record Exception := {
  error_type : string;
  error : string;
}.

Inductive PermissionResult :=
| PermissionResultAllow (updated_input : option json)
| PermissionResultDeny (message : string) (interrupt : bool).

Record ToolPermissionContext := {
  perm_session_id : option string;
}.

(** What calling a tool handler does: return a string, return some
    other value, or raise. *)
Inductive HandlerOutcome :=
| ReturnsStr (s : string)
| ReturnsValue (v : json)
| Raises (e : Exception).

(** A tool handler: what calling it on keyword arguments does, and the
    name that the interpreter's error messages give the callable
    ([module.qualname()]). *)
Record Handler := {
  function_str : string;
  invoke : json -> HandlerOutcome;
}.

Record ToolDefinition := {
  tool_name : string;
  description : string;
  input_schema : json;
  handler : option Handler;
}.

(** *** Hook types *)

Inductive HookInput :=
| SessionStartHookInput (session_id : string)
| PreToolUseHookInput (session_id tool_name : string) (tool_input : json)
| PostToolUseHookInput (session_id tool_name : string) (tool_input : json)
    (tool_response : string)
| OnErrorHookInput (session_id error error_type : string).

Record HookContext := {
  ctx_session_id : string;
  ctx_tool_use_id : option string;
}.

(** The values a [HookOutput] TypedDict can hold under its keys:
    [continue_ : bool]; [stopReason], [reason], [systemMessage] :
    [str | None]; [modified_input : dict | None]; [hookSpecificOutput]
    : [HookSpecificOutput | None], itself a dictionary of
    [str | None] fields. *)
Inductive HookField :=
| FBool (b : bool)
| FStr (s : option string)
| FInput (i : option json)
| FSpecific (h : option (gmap string (option string))).

(** What a hook callback comes to: an output or an exception. A
    callback returning [None] is [Returns ∅]: both are falsy for
    [if output:]. *)
Inductive HookResult :=
| Returns (output : gmap string HookField)
| Fails (e : Exception).

(** A call of a hook callback: how long it runs and what it comes to. *)
Record HookRun := {
  elapsed : Z;
  result : HookResult;
}.

Definition HookCallback : Type :=
  HookInput -> option string -> HookContext -> HookRun.

(** [timeout] is in the unit of [elapsed]. *)
Record HookMatcher := {
  matcher : option string;
  hooks : list HookCallback;
  timeout : option Z;
}.

(** [can_use_tool] returns a permission result or raises. *)
Record AgentOptions := {
  tools : list ToolDefinition;
  can_use_tool :
    option (string -> json -> ToolPermissionContext -> PermissionResult + Exception);
  max_turns : option Z;
  opt_hooks : option (gmap string (list HookMatcher));
  stream : bool;
}.

End Types.

(** ** client.py *)

Module Client.
Import Types.

(** *** Reading a [HookOutput]

    Hooks are taken to return outputs typed as the TypedDict declares.
    [HookField] does not tie a constructor to its key, so the functions
    below are made total by reading a key that holds a value of another
    constructor as holding [None]. *)

(** [output.get("continue_") is False] *)
Definition continue_is_False (output : gmap string HookField) : bool :=
  match output !! "continue_" with
  | Some (FBool false) => true
  | _ => false
  end.

(** [output.get("stopReason", default)]: the default is used only when
    the key is absent; a key holding [None] yields [None]. *)
Definition get_stopReason (output : gmap string HookField) (default : string)
  : option string :=
  match output !! "stopReason" with
  | Some (FStr s) => s
  | Some _ => None
  | None => Some default
  end.

(** [output.get("hookSpecificOutput") or {}] *)
Definition get_hookSpecificOutput (output : gmap string HookField)
  : gmap string (option string) :=
  match output !! "hookSpecificOutput" with
  | Some (FSpecific (Some h)) => h
  | _ => ∅
  end.

(** [hook_specific.get(key)] *)
Definition specific_get (h : gmap string (option string)) (key : string)
  : option string :=
  match h !! key with
  | Some v => v
  | None => None
  end.

(** [hook_specific.get(key, default)] *)
Definition specific_get_default (h : gmap string (option string))
    (key default : string) : option string :=
  match h !! key with
  | Some v => v
  | None => Some default
  end.

(** [output.get("modified_input")] *)
Definition get_modified_input (output : gmap string HookField) : option json :=
  match output !! "modified_input" with
  | Some (FInput i) => i
  | _ => None
  end.

(** [x or y] for [x : dict | None]. *)
Definition or_else (x : option json) (y : json) : json :=
  match x with
  | Some j => if truthy j then j else y
  | None => y
  end.

(** *** _execute_hooks *)

Section Hooks.
Context (options : AgentOptions) (_session_id : string).

(** The skip test at the head of the matcher loop. *)
Definition skips (m : HookMatcher) (tool_name : option string) : bool :=
  match matcher m, tool_name with
  | Some pat, Some n => negb (String.eqb pat n)
  | _, _ => false
  end.

(** Awaiting a hook: under [asyncio.wait_for] when [matcher.timeout] is
    set and not zero, which raises TimeoutError when the hook runs
    longer; directly otherwise. *)
Definition await_hook (m : HookMatcher) (run : HookRun) : HookResult :=
  match timeout m with
  | Some t =>
      if (t =? 0)%Z then result run
      else if (t <? elapsed run)%Z
           then Fails {| error_type := "TimeoutError"; error := "" |}
           else result run
  | None => result run
  end.

(** The inner [for hook in matcher.hooks] loop. The boolean is true
    when the loop left through [return combined_output]. Both [except]
    clauses log and go on to the next hook. *)
Fixpoint run_hooks (m : HookMatcher) (hs : list HookCallback) (input_data : HookInput)
    (tool_use_id : option string) (context : HookContext)
    (combined_output : gmap string HookField)
  : gmap string HookField * bool :=
  match hs with
  | [] => (combined_output, false)
  | hook :: rest =>
      match await_hook m (hook input_data tool_use_id context) with
      | Returns output =>
          if Nat.eqb (size output) 0
          then run_hooks m rest input_data tool_use_id context combined_output
          else
            (* dict.update: the keys of [output] win *)
            let combined_output := output ∪ combined_output in
            if continue_is_False output then (combined_output, true)
            else run_hooks m rest input_data tool_use_id context combined_output
      | Fails _ =>
          run_hooks m rest input_data tool_use_id context combined_output
      end
  end.

(** The outer [for matcher in matchers] loop. *)
Fixpoint run_matchers (ms : list HookMatcher) (input_data : HookInput)
    (tool_use_id tool_name : option string) (context : HookContext)
    (combined_output : gmap string HookField) : gmap string HookField :=
  match ms with
  | [] => combined_output
  | m :: rest =>
      if skips m tool_name
      then run_matchers rest input_data tool_use_id tool_name context combined_output
      else
        match run_hooks m (hooks m) input_data tool_use_id context combined_output with
        | (combined_output, true) => combined_output
        | (combined_output, false) =>
            run_matchers rest input_data tool_use_id tool_name context combined_output
        end
  end.

Definition _execute_hooks (event : string) (input_data : HookInput)
    (tool_use_id tool_name : option string) : gmap string HookField :=
  match opt_hooks options with
  | None => ∅
  | Some hs =>
      if Nat.eqb (size hs) 0 then ∅
      else
        match hs !! event with
        | None => ∅
        | Some matchers =>
            let context :=
              {| ctx_session_id := _session_id; ctx_tool_use_id := tool_use_id |} in
            run_matchers matchers input_data tool_use_id tool_name context ∅
        end
  end.
End Hooks.

(** *** The client object

    [_messages] is the conversation history. Two counters observe what
    the client does to its collaborators: how many times the provider
    was called, and with which name and input each tool handler was
    invoked. *)

Record State := {
  _messages : list Message;
  provider_calls : nat;
  handler_calls : list (string * json);
}.

(** [self._messages.append(m)] *)
Definition append (m : Message) (st : State) : State :=
  {| _messages := _messages st ++ [m];
     provider_calls := provider_calls st;
     handler_calls := handler_calls st |}.

Definition count_provider_call (st : State) : State :=
  {| _messages := _messages st;
     provider_calls := S (provider_calls st);
     handler_calls := handler_calls st |}.

Definition record_handler_call (name : string) (tool_input : json) (st : State) : State :=
  {| _messages := _messages st;
     provider_calls := provider_calls st;
     handler_calls := handler_calls st ++ [(name, tool_input)] |}.

(** [type(x).__name__] of a JSON value. *)
Definition type_name (j : json) : string :=
  match j with
  | JNull => "NoneType"
  | JBool _ => "bool"
  | JNum _ => "int"
  | JStr _ => "str"
  | JList _ => "list"
  | JDict _ => "dict"
  end.

(** The call of [tool_def.handler] on the keyword-unpacked [tool_input]:
    unpacking anything but a mapping raises a TypeError before the
    handler runs (the text is that of CPython 3.9 and later). *)
Definition call_handler (h : Handler) (name : string)
    (tool_input : json) (st : State) : HandlerOutcome * State :=
  match tool_input with
  | JDict _ => (invoke h tool_input, record_handler_call name tool_input st)
  | _ =>
      (Raises {| error_type := "TypeError";
                 error := function_str h +:+ " argument after ** must be a mapping, not "
                          +:+ type_name tool_input |}, st)
  end.

Definition newline : string := String (Ascii.ascii_of_nat 10) EmptyString.

(** A Python [str] is a sequence of code points; a [string] here holds
    its UTF-8 encoding, in which every code point is one byte that is
    not of the form 10xxxxxx, followed by the bytes of that form that
    continue it. *)
Definition is_continuation (c : Ascii.ascii) : bool :=
  let n := Ascii.nat_of_ascii c in Nat.leb 128 n && Nat.ltb n 192.

(** [len(s)]: the number of code points. *)
Fixpoint len (s : string) : nat :=
  match s with
  | EmptyString => 0
  | String c rest => (if is_continuation c then 0 else 1) + len rest
  end.

(** [s[:n]]: the first [n] code points. *)
Fixpoint slice_to (n : nat) (s : string) : string :=
  match s with
  | EmptyString => EmptyString
  | String c rest =>
      if is_continuation c then String c (slice_to n rest)
      else
        match n with
        | O => EmptyString
        | S n => String c (slice_to n rest)
        end
  end.

(** [content[:500] if len(content) > 500 else content] *)
Definition truncate_output (content : string) : string :=
  if Nat.ltb 500 (len content) then slice_to 500 content else content.

Definition json_of_str (o : option string) : json :=
  match o with
  | Some s => JStr s
  | None => JNull
  end.

(** The engine's own stream events. Their [duration_ms] entry, a
    wall-clock reading, is not modelled. *)
Definition tool_execution_start (tool_use : ToolUseBlock) : StreamEvent :=
  {| event_type := "tool_execution_start";
     index := None;
     delta := Some [("type", JStr "tool_execution_start");
                    ("tool_use_id", JStr (id tool_use));
                    ("tool_name", JStr (name tool_use));
                    ("tool_input", input tool_use)] |}.

Definition tool_execution_error (tool_use : ToolUseBlock) (err : option string)
  : StreamEvent :=
  {| event_type := "tool_execution_complete";
     index := None;
     delta := Some [("type", JStr "tool_execution_error");
                    ("tool_use_id", JStr (id tool_use));
                    ("tool_name", JStr (name tool_use));
                    ("error", json_of_str err)] |}.

Definition tool_execution_complete (tool_use : ToolUseBlock) (output : string)
  : StreamEvent :=
  {| event_type := "tool_execution_complete";
     index := None;
     delta := Some [("type", JStr "tool_execution_complete");
                    ("tool_use_id", JStr (id tool_use));
                    ("tool_name", JStr (name tool_use));
                    ("output", JStr output)] |}.

Definition tool_message (content tool_use_id : string) : Message :=
  Tool {| tool_content := content; tool_call_id := tool_use_id |}.

(** *** Tool execution *)

Section Tools.
Context (options : AgentOptions) (_session_id : string).
(** [json.dumps] *)
Context (dumps : json -> string).

(** [next((t for t in self.options.tools if t.name == tool_use.name), None)] *)
Definition find_tool (tool_use : ToolUseBlock) : option ToolDefinition :=
  List.find (fun t => String.eqb (tool_name t) (name tool_use)) (tools options).

(** The permission callback, consulted only when it is set and the
    hooks made no decision ([not permission_decision]). The call stands
    outside the [try] of the executors: an exception it raises
    ([inr]) leaves the executor. *)
Definition ask_permission (tool_use : ToolUseBlock)
    (permission_decision : option string) : option (PermissionResult + Exception) :=
  match can_use_tool options with
  | Some callback =>
      if negb (truthy_str permission_decision)
      then Some (callback (name tool_use) (input tool_use)
                   {| perm_session_id := Some _session_id |})
      else None
  | None => None
  end.

(** The string a handler result is turned into. *)
Definition stringify (outcome : HandlerOutcome) : string + Exception :=
  match outcome with
  | ReturnsStr s => inl s
  | ReturnsValue v => inl (dumps v)
  | Raises e => inr e
  end.

(** The body of the [for tool_use in tool_uses] loop of
    [_execute_tools]. [inl false] is [return False]; [inl true] is
    falling through to the next iteration ([continue] or the end of the
    body); [inr e] is the exception [e] leaving the loop. *)
Definition execute_tool (tool_use : ToolUseBlock) (st : State)
  : (bool + Exception) * State :=
  let pre_tool_input :=
    PreToolUseHookInput _session_id (name tool_use) (input tool_use) in
  let pre_hook_output :=
    _execute_hooks options _session_id "PreToolUse" pre_tool_input
      (Some (id tool_use)) (Some (name tool_use)) in
  if continue_is_False pre_hook_output then (inl false, st)
  else
    let hook_specific := get_hookSpecificOutput pre_hook_output in
    let permission_decision := specific_get hook_specific "permissionDecision" in
    if bool_decide (permission_decision = Some "deny") then
      let reason :=
        specific_get_default hook_specific "permissionDecisionReason"
          "Denied by PreToolUse hook" in
      (inl true, append (tool_message ("Permission denied: " +:+ fmt reason) (id tool_use)) st)
    else
      match ask_permission tool_use permission_decision with
      | Some (inr e) => (inr e, st)
      | Some (inl (PermissionResultDeny message _)) =>
          (inl true, append (tool_message ("Permission denied: " +:+ message) (id tool_use)) st)
      | _ =>
          match find_tool tool_use ≫= handler with
          | None =>
              (inl true,
               append
                 (tool_message
                    ("Tool '" +:+ name tool_use +:+ "' not found or has no handler")
                    (id tool_use)) st)
          | Some h =>
              let tool_input := or_else (get_modified_input pre_hook_output) (input tool_use) in
              let '(outcome, st) := call_handler h (name tool_use) tool_input st in
              match stringify outcome with
              | inl content =>
                  let post_tool_input :=
                    PostToolUseHookInput _session_id (name tool_use) tool_input content in
                  let post_hook_output :=
                    _execute_hooks options _session_id "PostToolUse" post_tool_input
                      (Some (id tool_use)) (Some (name tool_use)) in
                  if continue_is_False post_hook_output then
                    (inl false, append (tool_message content (id tool_use)) st)
                  else
                    let post_specific := get_hookSpecificOutput post_hook_output in
                    let additional_context :=
                      specific_get post_specific "additionalContext" in
                    let content :=
                      if truthy_str additional_context
                      then content +:+ newline +:+ newline +:+ "[Hook note: "
                             +:+ fmt additional_context +:+ "]"
                      else content in
                    (inl true, append (tool_message content (id tool_use)) st)
              | inr e =>
                  let error_input := OnErrorHookInput _session_id (error e) (error_type e) in
                  let _ :=
                    _execute_hooks options _session_id "OnError" error_input
                      (Some (id tool_use)) (Some (name tool_use)) in
                  (inl true,
                   append (tool_message ("Error executing tool: " +:+ error e) (id tool_use)) st)
              end
          end
      end.

Fixpoint _execute_tools (tool_uses : list ToolUseBlock) (st : State)
  : (bool + Exception) * State :=
  match tool_uses with
  | [] => (inl true, st)
  | tool_use :: rest =>
      match execute_tool tool_use st with
      | (inr e, st) => (inr e, st)
      | (inl false, st) => (inl false, st)
      | (inl true, st) => _execute_tools rest st
      end
  end.

(** The body of the loop of [_execute_tools_with_events]: the stream
    events it yields for one tool use, whether the loop goes on
    ([inl false] is [yield False; return], [inr e] the exception [e]
    leaving the generator), and the client afterwards. *)
Definition execute_tool_with_events (tool_use : ToolUseBlock) (st : State)
  : list StreamEvent * (bool + Exception) * State :=
  let start := tool_execution_start tool_use in
  let pre_tool_input :=
    PreToolUseHookInput _session_id (name tool_use) (input tool_use) in
  let pre_hook_output :=
    _execute_hooks options _session_id "PreToolUse" pre_tool_input
      (Some (id tool_use)) (Some (name tool_use)) in
  if continue_is_False pre_hook_output then
    let stop_reason := get_stopReason pre_hook_output "Stopped by PreToolUse hook" in
    ([start; tool_execution_error tool_use stop_reason], inl false, st)
  else
    let hook_specific := get_hookSpecificOutput pre_hook_output in
    let permission_decision := specific_get hook_specific "permissionDecision" in
    if bool_decide (permission_decision = Some "deny") then
      let reason :=
        specific_get_default hook_specific "permissionDecisionReason"
          "Denied by PreToolUse hook" in
      ([start;
        tool_execution_error tool_use (Some ("Permission denied: " +:+ fmt reason))],
       inl true,
       append (tool_message ("Permission denied: " +:+ fmt reason) (id tool_use)) st)
    else
      match ask_permission tool_use permission_decision with
      | Some (inr e) => ([start], inr e, st)
      | Some (inl (PermissionResultDeny message _)) =>
          ([start;
            tool_execution_error tool_use (Some ("Permission denied: " +:+ message))],
           inl true,
           append (tool_message ("Permission denied: " +:+ message) (id tool_use)) st)
      | _ =>
          match find_tool tool_use ≫= handler with
          | None =>
              ([start;
                tool_execution_error tool_use
                  (Some ("Tool '" +:+ name tool_use +:+ "' not found"))],
               inl true,
               append
                 (tool_message
                    ("Tool '" +:+ name tool_use +:+ "' not found or has no handler")
                    (id tool_use)) st)
          | Some h =>
              let tool_input := or_else (get_modified_input pre_hook_output) (input tool_use) in
              let '(outcome, st) := call_handler h (name tool_use) tool_input st in
              match stringify outcome with
              | inl content =>
                  let post_tool_input :=
                    PostToolUseHookInput _session_id (name tool_use) tool_input content in
                  let post_hook_output :=
                    _execute_hooks options _session_id "PostToolUse" post_tool_input
                      (Some (id tool_use)) (Some (name tool_use)) in
                  if continue_is_False post_hook_output then
                    ([start; tool_execution_complete tool_use (truncate_output content)],
                     inl false,
                     append (tool_message content (id tool_use)) st)
                  else
                    let post_specific := get_hookSpecificOutput post_hook_output in
                    let additional_context :=
                      specific_get post_specific "additionalContext" in
                    let content :=
                      if truthy_str additional_context
                      then content +:+ newline +:+ newline +:+ "[Hook note: "
                             +:+ fmt additional_context +:+ "]"
                      else content in
                    ([start; tool_execution_complete tool_use (truncate_output content)],
                     inl true,
                     append (tool_message content (id tool_use)) st)
              | inr e =>
                  let error_input := OnErrorHookInput _session_id (error e) (error_type e) in
                  let _ :=
                    _execute_hooks options _session_id "OnError" error_input
                      (Some (id tool_use)) (Some (name tool_use)) in
                  ([start; tool_execution_error tool_use (Some (error e))],
                   inl true,
                   append (tool_message ("Error executing tool: " +:+ error e) (id tool_use)) st)
              end
          end
      end.

(** The generator yields stream events ([inl]) and, last, the continue
    status ([inr]), unless an exception leaves it before. *)
Fixpoint _execute_tools_with_events (tool_uses : list ToolUseBlock) (st : State)
  : list (StreamEvent + bool) * option Exception * State :=
  match tool_uses with
  | [] => ([inr true], None, st)
  | tool_use :: rest =>
      match execute_tool_with_events tool_use st with
      | (events, inr e, st) => (map inl events, Some e, st)
      | (events, inl false, st) => (map inl events ++ [inr false], None, st)
      | (events, inl true, st) =>
          let '(more, exn, st) := _execute_tools_with_events rest st in
          (map inl events ++ more, exn, st)
      end
  end.

(** *** The agent loops *)

(** A provider as the loops see it: what its [n]-th call does when given
    the history. [stream] yields messages and may then raise;
    [complete] returns a message or raises. *)
Record BaseProvider := {
  provider_stream : nat -> list Message -> list AnyMessage * option Exception;
  provider_complete : nat -> list Message -> AssistantMessage + Exception;
}.

Context (provider : BaseProvider).

(** What running a generator to its end produces. *)
Record Generated := {
  yielded : list AnyMessage;
  raised : option Exception;
  after : State;
}.

Definition prepend (ms : list AnyMessage) (g : Generated) : Generated :=
  {| yielded := ms ++ yielded g; raised := raised g; after := after g |}.

Definition result_message (turns : Z) : AnyMessage :=
  AResult {| is_error := false;
             num_turns := turns;
             session_id := Some _session_id;
             usage := None;
             result_finish_reason := None |}.

(** [self.options.max_turns or 10] *)
Definition effective_max_turns : Z :=
  match max_turns options with
  | Some n => if (n =? 0)%Z then 10%Z else n
  | None => 10%Z
  end.

(** The statement after the [while] loop. *)
Definition after_loop (max_turns turns : Z) : list AnyMessage :=
  if (max_turns <=? turns)%Z then [result_message turns] else [].

(** The last AssistantMessage a provider stream yielded. *)
Definition last_response (msgs : list AnyMessage) : option AssistantMessage :=
  fold_left
    (fun response msg =>
       match isinstance_AssistantMessage msg with
       | Some a => Some a
       | None => response
       end)
    (List.filter (fun msg => negb (isinstance_ResultMessage msg)) msgs) None.

Definition tool_uses_of (response : AssistantMessage) : list ToolUseBlock :=
  omap isinstance_ToolUseBlock (content response).

(** The consumer of [_execute_tools_with_events]: events are passed on,
    a boolean sets [should_continue]. *)
Definition forwarded_events (events : list (StreamEvent + bool)) : list AnyMessage :=
  omap (fun ev => match ev with inl e => Some (AEvent e) | inr _ => None end) events.

Definition should_continue_of (events : list (StreamEvent + bool)) : bool :=
  fold_left (fun sc ev => match ev with inl _ => sc | inr b => b end) events true.

(** The [while turns < max_turns] loop of [_stream_with_tools], with the
    statement that follows it. [fuel] bounds the iterations; [None] is
    running out of it. *)
Fixpoint stream_loop (fuel : nat) (max_turns turns : Z) (st : State)
  : option Generated :=
  if (turns <? max_turns)%Z then
    match fuel with
    | O => None
    | S fuel =>
        let turns := (turns + 1)%Z in
        let '(msgs, exn) := provider_stream provider (provider_calls st) (_messages st) in
        let st := count_provider_call st in
        let passed := List.filter (fun msg => negb (isinstance_ResultMessage msg)) msgs in
        match exn with
        | Some e => Some {| yielded := passed; raised := Some e; after := st |}
        | None =>
            match last_response msgs with
            | None =>
                Some {| yielded := passed ++ after_loop max_turns turns;
                        raised := None; after := st |}
            | Some response =>
                match tool_uses_of response with
                | [] =>
                    Some {| yielded :=
                              passed ++ [result_message turns] ++ after_loop max_turns turns;
                            raised := None; after := st |}
                | tool_uses =>
                    let st := append (Assistant response) st in
                    let '(events, exn, st) := _execute_tools_with_events tool_uses st in
                    match exn with
                    | Some e =>
                        Some {| yielded := passed ++ forwarded_events events;
                                raised := Some e; after := st |}
                    | None =>
                        if should_continue_of events then
                          prepend (passed ++ forwarded_events events)
                            <$> stream_loop fuel max_turns turns st
                        else
                          Some {| yielded :=
                                    passed ++ forwarded_events events
                                      ++ [result_message turns] ++ after_loop max_turns turns;
                                  raised := None; after := st |}
                    end
                end
            end
        end
    end
  else Some {| yielded := after_loop max_turns turns; raised := None; after := st |}.

Definition _stream_with_tools (st : State) : option Generated :=
  let max_turns := effective_max_turns in
  stream_loop (Z.to_nat max_turns) max_turns 0 st.

(** The loop of [_complete_with_tools]. *)
Fixpoint complete_loop (fuel : nat) (max_turns turns : Z) (st : State)
  : option Generated :=
  if (turns <? max_turns)%Z then
    match fuel with
    | O => None
    | S fuel =>
        let turns := (turns + 1)%Z in
        let outcome := provider_complete provider (provider_calls st) (_messages st) in
        let st := count_provider_call st in
        match outcome with
        | inr e => Some {| yielded := []; raised := Some e; after := st |}
        | inl response =>
            match tool_uses_of response with
            | [] =>
                Some {| yielded :=
                          [AMessage (Assistant response); result_message turns]
                            ++ after_loop max_turns turns;
                        raised := None; after := st |}
            | tool_uses =>
                let st := append (Assistant response) st in
                match _execute_tools tool_uses st with
                | (inr e, st) =>
                    Some {| yielded := [AMessage (Assistant response)];
                            raised := Some e; after := st |}
                | (inl true, st) =>
                    prepend [AMessage (Assistant response)]
                      <$> complete_loop fuel max_turns turns st
                | (inl false, st) =>
                    Some {| yielded :=
                              [AMessage (Assistant response); result_message turns]
                                ++ after_loop max_turns turns;
                            raised := None; after := st |}
                end
            end
        end
    end
  else Some {| yielded := after_loop max_turns turns; raised := None; after := st |}.

Definition _complete_with_tools (st : State) : option Generated :=
  let max_turns := effective_max_turns in
  complete_loop (Z.to_nat max_turns) max_turns 0 st.

(** *** send and receive *)

(** [_pending_response]: a generator not yet run, or one that has
    finished. *)
Inductive Pending := StreamWithTools | CompleteWithTools | Finished.

Record Client := {
  _connected : bool;
  state : State;
  _pending_response : option Pending;
}.

Definition send (message : string + Message) (c : Client) : Client + Exception :=
  if negb (_connected c) then
    inr {| error_type := "RuntimeError"; error := "Not connected. Call connect() first." |}
  else
    let user_msg :=
      match message with
      | inl text => User (inl text)
      | inr m => m
      end in
    inl {| _connected := _connected c;
           state := append user_msg (state c);
           _pending_response :=
             Some (if stream options then StreamWithTools else CompleteWithTools) |}.

(** The [async for] of [receive]: pass messages on up to and including
    the first ResultMessage, then return. The boolean tells whether one
    was met. *)
Fixpoint until_result (msgs : list AnyMessage) : list AnyMessage * bool :=
  match msgs with
  | [] => ([], false)
  | msg :: rest =>
      if isinstance_ResultMessage msg then ([msg], true)
      else let '(more, found) := until_result rest in (msg :: more, found)
  end.

Record Received := {
  received : list AnyMessage;
  receive_raised : option Exception;
  client : Client;
}.

Definition run_pending (p : Pending) (st : State) : option Generated :=
  match p with
  | StreamWithTools => _stream_with_tools st
  | CompleteWithTools => _complete_with_tools st
  | Finished => Some {| yielded := []; raised := None; after := st |}
  end.

Definition receive (c : Client) : option Received :=
  match _pending_response c with
  | None =>
      Some {| received := [];
              receive_raised :=
                Some {| error_type := "RuntimeError";
                        error := "No pending response. Call send() first." |};
              client := c |}
  | Some p =>
      g ← run_pending p (state c);
      let '(msgs, found) := until_result (yielded g) in
      Some {| received := msgs;
              receive_raised := if found then None else raised g;
              client :=
                {| _connected := _connected c;
                   state := after g;
                   _pending_response := if found then None else Some Finished |} |}
  end.

End Tools.

End Client.

(** ** providers/openai.py *)

Module OpenAI.
Import Types.

(** The vendor's streaming chunk, as far as [stream] reads it. *)
Record ChoiceDeltaFunction := {
  fn_name : option string;
  fn_arguments : option string;
}.

Record ChoiceDeltaToolCall := {
  tc_index : Z;
  tc_id : option string;
  tc_function : option ChoiceDeltaFunction;
}.

Record ChoiceDelta := {
  delta_content : option string;
  delta_tool_calls : option (list ChoiceDeltaToolCall);
}.

Record Choice := {
  choice_delta : ChoiceDelta;
  choice_finish_reason : option string;
}.

Record CompletionUsage := {
  raw_prompt_tokens : Z;
  raw_completion_tokens : Z;
  raw_total_tokens : Z;
}.

Record Chunk := {
  choices : list Choice;
  chunk_usage : option CompletionUsage;
  chunk_model : option string;
}.

(** One entry of the [tool_calls] dictionary. *)
Record ToolCallEntry := {
  entry_id : string;
  entry_name : string;
  entry_arguments : string;
}.

(** The local variables of [stream]. *)
Record Accumulator := {
  content_text : string;
  tool_calls : gmap Z ToolCallEntry;
  acc_model : string;
  acc_usage : option Usage;
  acc_finish_reason : option string;
}.

Definition initial : Accumulator :=
  {| content_text := "";
     tool_calls := ∅;
     acc_model := "";
     acc_usage := None;
     acc_finish_reason := None |}.

Definition parse_usage (u : CompletionUsage) : Usage :=
  {| prompt_tokens := raw_prompt_tokens u;
     completion_tokens := raw_completion_tokens u;
     total_tokens := raw_total_tokens u;
     cache_read_tokens := None;
     cache_creation_tokens := None |}.

Definition _map_finish_reason (finish_reason : option string) : option FinishReason :=
  match finish_reason with
  | None => None
  | Some r =>
      Some (if String.eqb r "stop" then STOP
            else if String.eqb r "length" then LENGTH
            else if String.eqb r "tool_calls" then TOOL_USE
            else if String.eqb r "content_filter" then CONTENT_FILTER
            else STOP)
  end.

(** [x or ""] *)
Definition or_empty (o : option string) : string :=
  match o with
  | Some s => s
  | None => ""
  end.

(** The body of [for tool_call in delta.tool_calls]: the updated
    dictionary and the event yielded. [entry] is [tool_calls[idx]], the
    record the body creates when the index is new and then updates in
    place. *)
Definition on_tool_call (tool_call : ChoiceDeltaToolCall)
    (tool_calls : gmap Z ToolCallEntry) : gmap Z ToolCallEntry * StreamEvent :=
  let idx := tc_index tool_call in
  let entry :=
    match tool_calls !! idx with
    | Some entry => entry
    | None =>
        {| entry_id := or_empty (tc_id tool_call);
           entry_name := "";
           entry_arguments := "" |}
    end in
  let entry :=
    if truthy_str (tc_id tool_call)
    then {| entry_id := or_empty (tc_id tool_call);
            entry_name := entry_name entry;
            entry_arguments := entry_arguments entry |}
    else entry in
  let entry :=
    match tc_function tool_call with
    | Some f =>
        let entry :=
          if truthy_str (fn_name f)
          then {| entry_id := entry_id entry;
                  entry_name := or_empty (fn_name f);
                  entry_arguments := entry_arguments entry |}
          else entry in
        if truthy_str (fn_arguments f)
        then {| entry_id := entry_id entry;
                entry_name := entry_name entry;
                entry_arguments := entry_arguments entry +:+ or_empty (fn_arguments f) |}
        else entry
    | None => entry
    end in
  (<[idx := entry]> tool_calls,
   {| event_type := "tool_call_delta";
      index := Some idx;
      delta := Some [("type", JStr "tool_call");
                     ("id", Client.json_of_str (tc_id tool_call));
                     ("name", Client.json_of_str (tc_function tool_call ≫= fn_name));
                     ("arguments",
                      Client.json_of_str (tc_function tool_call ≫= fn_arguments))] |}).

Fixpoint on_tool_calls (tcs : list ChoiceDeltaToolCall)
    (tool_calls : gmap Z ToolCallEntry) : gmap Z ToolCallEntry * list StreamEvent :=
  match tcs with
  | [] => (tool_calls, [])
  | tool_call :: rest =>
      let '(tool_calls, ev) := on_tool_call tool_call tool_calls in
      let '(tool_calls, evs) := on_tool_calls rest tool_calls in
      (tool_calls, ev :: evs)
  end.

(** The body of [async for chunk in stream]. *)
Definition on_chunk (chunk : Chunk) (acc : Accumulator)
  : Accumulator * list StreamEvent :=
  match choices chunk with
  | [] =>
      ({| content_text := content_text acc;
          tool_calls := tool_calls acc;
          acc_model := acc_model acc;
          acc_usage :=
            match chunk_usage chunk with
            | Some u => Some (parse_usage u)
            | None => acc_usage acc
            end;
          acc_finish_reason := acc_finish_reason acc |}, [])
  | choice :: _ =>
      let delta := choice_delta choice in
      let model :=
        if truthy_str (chunk_model chunk) then or_empty (chunk_model chunk)
        else acc_model acc in
      let '(content_text, text_events) :=
        if truthy_str (delta_content delta) then
          (content_text acc +:+ or_empty (delta_content delta),
           [{| event_type := "content_block_delta";
               index := None;
               delta := Some [("type", JStr "text");
                              ("text", JStr (or_empty (delta_content delta)))] |}])
        else (content_text acc, []) in
      let '(tool_calls, tool_events) :=
        match delta_tool_calls delta with
        | Some tcs => on_tool_calls tcs (tool_calls acc)
        | None => (tool_calls acc, [])
        end in
      let finish_reason :=
        if truthy_str (choice_finish_reason choice) then choice_finish_reason choice
        else acc_finish_reason acc in
      ({| content_text := content_text;
          tool_calls := tool_calls;
          acc_model := model;
          acc_usage := acc_usage acc;
          acc_finish_reason := finish_reason |},
       text_events ++ tool_events)
  end.

Fixpoint on_chunks (chunks : list Chunk) (acc : Accumulator)
  : Accumulator * list StreamEvent :=
  match chunks with
  | [] => (acc, [])
  | chunk :: rest =>
      let '(acc, evs) := on_chunk chunk acc in
      let '(acc, more) := on_chunks rest acc in
      (acc, evs ++ more)
  end.

Section Stream.
(** [json.loads]; [None] stands for [JSONDecodeError]. *)
Context (loads : string -> option json).

(** [json.loads(tc["arguments"]) if tc["arguments"] else {}], with the
    [except json.JSONDecodeError] around it. *)
Definition input_data (arguments : string) : json :=
  if negb (String.eqb arguments "") then
    match loads arguments with
    | Some j => j
    | None => JDict []
    end
  else JDict [].

(** [sorted(tool_calls.items())]: the keys are distinct, so the order is
    that of the indices. *)
Definition index_le (a b : Z * ToolCallEntry) : Prop := (a.1 ≤ b.1)%Z.

#[global] Instance index_le_dec a b : Decision (index_le a b) :=
  Z_le_dec a.1 b.1.

Definition sorted_items (tool_calls : gmap Z ToolCallEntry) : list (Z * ToolCallEntry) :=
  merge_sort index_le (map_to_list tool_calls).

Definition build_content (acc : Accumulator) : list ContentBlock :=
  (if negb (String.eqb (content_text acc) "") then [TextBlock (content_text acc)] else [])
  ++ map (fun '(_, tc) =>
            ToolUse {| id := entry_id tc;
                       name := entry_name tc;
                       input := input_data (entry_arguments tc) |})
       (sorted_items (tool_calls acc)).

(** What [stream] yields for a given sequence of vendor chunks. *)
Definition stream (chunks : list Chunk) : list AnyMessage :=
  let '(acc, events) := on_chunks chunks initial in
  map AEvent events
  ++ [AMessage (Assistant {| content := build_content acc;
                             model := Some (acc_model acc);
                             finish_reason := _map_finish_reason (acc_finish_reason acc) |});
      AResult {| is_error := false;
                 num_turns := 1;
                 session_id := None;
                 usage := acc_usage acc;
                 result_finish_reason := _map_finish_reason (acc_finish_reason acc) |}].

End Stream.

End OpenAI.

(** ** providers/claude.py *)

Module Claude.
Import Types.

(** The vendor's stream events, as far as [stream] reads them. *)
Inductive RawBlock :=
| RawText
| RawToolUse (id name : string)
| RawThinking
| RawOther (type : string).

Inductive RawDelta :=
| text_delta (text : string)
| input_json_delta (partial_json : string)
| thinking_delta (thinking : string)
| signature_delta (signature : string)
| other_delta.

Record RawUsage := {
  input_tokens : Z;
  output_tokens : Z;
  cache_read_input_tokens : option Z;
  cache_creation_input_tokens : option Z;
}.

Inductive RawEvent :=
| message_start (model : string) (usage : option RawUsage)
| content_block_start (index : Z) (content_block : RawBlock)
| content_block_delta (index : Z) (delta : RawDelta)
| content_block_stop (index : Z)
| message_delta (stop_reason : option string) (usage : option RawUsage)
| message_stop
| other_event.

Definition block_type (b : RawBlock) : string :=
  match b with
  | RawText => "text"
  | RawToolUse _ _ => "tool_use"
  | RawThinking => "thinking"
  | RawOther t => t
  end.

(** [current_tool_use] *)
Record CurrentToolUse := {
  cur_id : string;
  cur_name : string;
  cur_input : string;
}.

(** The local variables of [stream]. *)
Record Accumulator := {
  content_blocks : list ContentBlock;
  current_text : string;
  current_tool_use : option CurrentToolUse;
  current_thinking : string;
  current_thinking_signature : string;
  acc_model : string;
  acc_usage : option Usage;
  acc_stop_reason : option string;
}.

Definition initial : Accumulator :=
  {| content_blocks := [];
     current_text := "";
     current_tool_use := None;
     current_thinking := "";
     current_thinking_signature := "";
     acc_model := "";
     acc_usage := None;
     acc_stop_reason := None |}.

Definition parse_usage (u : RawUsage) : Usage :=
  {| prompt_tokens := input_tokens u;
     completion_tokens := output_tokens u;
     total_tokens := input_tokens u + output_tokens u;
     cache_read_tokens := cache_read_input_tokens u;
     cache_creation_tokens := cache_creation_input_tokens u |}.

Definition _map_stop_reason (stop_reason : option string) : option FinishReason :=
  match stop_reason with
  | None => None
  | Some r =>
      Some (if String.eqb r "end_turn" then STOP
            else if String.eqb r "max_tokens" then LENGTH
            else if String.eqb r "tool_use" then TOOL_USE
            else if String.eqb r "stop_sequence" then STOP
            else STOP)
  end.

Section Stream.
(** [json.loads]; [None] stands for [JSONDecodeError]. *)
Context (loads : string -> option json).

Definition input_data (partial : string) : json :=
  match loads partial with
  | Some j => j
  | None => JDict []
  end.

(** The body of [async for event in stream]: the updated variables and
    what is yielded. *)
Definition on_event (event : RawEvent) (acc : Accumulator)
  : Accumulator * list StreamEvent :=
  match event with
  | message_start model usage =>
      ({| content_blocks := content_blocks acc;
          current_text := current_text acc;
          current_tool_use := current_tool_use acc;
          current_thinking := current_thinking acc;
          current_thinking_signature := current_thinking_signature acc;
          acc_model := model;
          acc_usage :=
            match usage with
            | Some u => Some (parse_usage u)
            | None => acc_usage acc
            end;
          acc_stop_reason := acc_stop_reason acc |}, [])
  | content_block_start idx block =>
      ({| content_blocks := content_blocks acc;
          current_text :=
            match block with RawText => "" | _ => current_text acc end;
          current_tool_use :=
            match block with
            | RawToolUse id name =>
                Some {| cur_id := id; cur_name := name; cur_input := "" |}
            | _ => current_tool_use acc
            end;
          current_thinking :=
            match block with RawThinking => "" | _ => current_thinking acc end;
          current_thinking_signature := current_thinking_signature acc;
          acc_model := acc_model acc;
          acc_usage := acc_usage acc;
          acc_stop_reason := acc_stop_reason acc |},
       [{| event_type := "content_block_start";
           index := Some idx;
           delta :=
             Some (("type", JStr (block_type block))
                   :: match block with
                      | RawToolUse id name => [("id", JStr id); ("name", JStr name)]
                      | _ => []
                      end) |}])
  | content_block_delta idx (text_delta text) =>
      ({| content_blocks := content_blocks acc;
          current_text := current_text acc +:+ text;
          current_tool_use := current_tool_use acc;
          current_thinking := current_thinking acc;
          current_thinking_signature := current_thinking_signature acc;
          acc_model := acc_model acc;
          acc_usage := acc_usage acc;
          acc_stop_reason := acc_stop_reason acc |},
       [{| event_type := "content_block_delta";
           index := Some idx;
           delta := Some [("type", JStr "text_delta"); ("text", JStr text)] |}])
  | content_block_delta idx (input_json_delta partial_json) =>
      ({| content_blocks := content_blocks acc;
          current_text := current_text acc;
          current_tool_use :=
            match current_tool_use acc with
            | Some t =>
                Some {| cur_id := cur_id t;
                        cur_name := cur_name t;
                        cur_input := cur_input t +:+ partial_json |}
            | None => None
            end;
          current_thinking := current_thinking acc;
          current_thinking_signature := current_thinking_signature acc;
          acc_model := acc_model acc;
          acc_usage := acc_usage acc;
          acc_stop_reason := acc_stop_reason acc |},
       [{| event_type := "content_block_delta";
           index := Some idx;
           delta := Some [("type", JStr "input_json_delta");
                          ("partial_json", JStr partial_json)] |}])
  | content_block_delta idx (thinking_delta thinking) =>
      ({| content_blocks := content_blocks acc;
          current_text := current_text acc;
          current_tool_use := current_tool_use acc;
          current_thinking := current_thinking acc +:+ thinking;
          current_thinking_signature := current_thinking_signature acc;
          acc_model := acc_model acc;
          acc_usage := acc_usage acc;
          acc_stop_reason := acc_stop_reason acc |},
       [{| event_type := "content_block_delta";
           index := Some idx;
           delta := Some [("type", JStr "thinking_delta"); ("thinking", JStr thinking)] |}])
  | content_block_delta idx (signature_delta signature) =>
      ({| content_blocks := content_blocks acc;
          current_text := current_text acc;
          current_tool_use := current_tool_use acc;
          current_thinking := current_thinking acc;
          current_thinking_signature := signature;
          acc_model := acc_model acc;
          acc_usage := acc_usage acc;
          acc_stop_reason := acc_stop_reason acc |},
       [{| event_type := "content_block_delta";
           index := Some idx;
           delta := Some [("type", JStr "signature_delta");
                          ("signature", JStr signature)] |}])
  | content_block_delta _ other_delta => (acc, [])
  | content_block_stop idx =>
      let stop :=
        {| event_type := "content_block_stop"; index := Some idx; delta := None |} in
      if negb (String.eqb (current_text acc) "") then
        ({| content_blocks := content_blocks acc ++ [TextBlock (current_text acc)];
            current_text := "";
            current_tool_use := current_tool_use acc;
            current_thinking := current_thinking acc;
            current_thinking_signature := current_thinking_signature acc;
            acc_model := acc_model acc;
            acc_usage := acc_usage acc;
            acc_stop_reason := acc_stop_reason acc |}, [stop])
      else
        match current_tool_use acc with
        | Some t =>
            ({| content_blocks :=
                  content_blocks acc
                  ++ [ToolUse {| id := cur_id t;
                                 name := cur_name t;
                                 input := input_data (cur_input t) |}];
                current_text := current_text acc;
                current_tool_use := None;
                current_thinking := current_thinking acc;
                current_thinking_signature := current_thinking_signature acc;
                acc_model := acc_model acc;
                acc_usage := acc_usage acc;
                acc_stop_reason := acc_stop_reason acc |}, [stop])
        | None =>
            if negb (String.eqb (current_thinking acc) "") then
              ({| content_blocks :=
                    content_blocks acc
                    ++ [ThinkingBlock (current_thinking acc)
                          (if String.eqb (current_thinking_signature acc) "" then None
                           else Some (current_thinking_signature acc))];
                  current_text := current_text acc;
                  current_tool_use := current_tool_use acc;
                  current_thinking := "";
                  current_thinking_signature := "";
                  acc_model := acc_model acc;
                  acc_usage := acc_usage acc;
                  acc_stop_reason := acc_stop_reason acc |}, [stop])
            else (acc, [stop])
        end
  | message_delta stop_reason usage =>
      ({| content_blocks := content_blocks acc;
          current_text := current_text acc;
          current_tool_use := current_tool_use acc;
          current_thinking := current_thinking acc;
          current_thinking_signature := current_thinking_signature acc;
          acc_model := acc_model acc;
          acc_usage :=
            match usage with
            | Some u => Some (parse_usage u)
            | None => acc_usage acc
            end;
          acc_stop_reason := stop_reason |}, [])
  | message_stop => (acc, [])
  | other_event => (acc, [])
  end.

Fixpoint on_events (events : list RawEvent) (acc : Accumulator)
  : Accumulator * list StreamEvent :=
  match events with
  | [] => (acc, [])
  | event :: rest =>
      let '(acc, evs) := on_event event acc in
      let '(acc, more) := on_events rest acc in
      (acc, evs ++ more)
  end.

(** What [stream] yields for a given sequence of vendor events. *)
Definition stream (events : list RawEvent) : list AnyMessage :=
  let '(acc, emitted) := on_events events initial in
  map AEvent emitted
  ++ [AMessage (Assistant {| content := content_blocks acc;
                             model := Some (acc_model acc);
                             finish_reason := _map_stop_reason (acc_stop_reason acc) |});
      AResult {| is_error := false;
                 num_turns := 1;
                 session_id := None;
                 usage := acc_usage acc;
                 result_finish_reason := _map_stop_reason (acc_stop_reason acc) |}].

End Stream.

(** *** The vendor's stream grammar

    A well-formed vendor stream is [message_start], then the content
    blocks one after the other, each as a start event, its deltas and a
    stop event, all carrying the block's position as index, then
    [message_delta] and [message_stop]. *)
Inductive ThinkingPart :=
| Thought (thinking : string)
| Signature (signature : string).

Inductive Block :=
| BText (parts : list string)
| BToolUse (id name : string) (parts : list string)
| BThinking (parts : list ThinkingPart).

Definition render_block (idx : Z) (b : Block) : list RawEvent :=
  match b with
  | BText parts =>
      content_block_start idx RawText
      :: map (fun s => content_block_delta idx (text_delta s)) parts
      ++ [content_block_stop idx]
  | BToolUse id name parts =>
      content_block_start idx (RawToolUse id name)
      :: map (fun s => content_block_delta idx (input_json_delta s)) parts
      ++ [content_block_stop idx]
  | BThinking parts =>
      content_block_start idx RawThinking
      :: map (fun p =>
                content_block_delta idx
                  match p with
                  | Thought s => thinking_delta s
                  | Signature s => signature_delta s
                  end) parts
      ++ [content_block_stop idx]
  end.

Fixpoint render_blocks (idx : Z) (bs : list Block) : list RawEvent :=
  match bs with
  | [] => []
  | b :: rest => render_block idx b ++ render_blocks (idx + 1) rest
  end.

Definition render (model : string) (usage : option RawUsage) (bs : list Block)
    (stop_reason : option string) : list RawEvent :=
  message_start model usage
  :: render_blocks 0 bs
  ++ [message_delta stop_reason usage; message_stop].

End Claude.

(** ** config.py *)

Module Config.

Definition PROVIDER_ENV_VARS : gmap string (gmap string string) :=
  list_to_map
    [("claude",
      list_to_map [("api_key", "ANTHROPIC_API_KEY"); ("base_url", "ANTHROPIC_BASE_URL")]);
     ("anthropic",
      list_to_map [("api_key", "ANTHROPIC_API_KEY"); ("base_url", "ANTHROPIC_BASE_URL")]);
     ("openai",
      list_to_map [("api_key", "OPENAI_API_KEY"); ("base_url", "OPENAI_BASE_URL");
                   ("organization", "OPENAI_ORG_ID")]);
     ("azure_openai",
      list_to_map [("api_key", "AZURE_OPENAI_API_KEY");
                   ("azure_endpoint", "AZURE_OPENAI_ENDPOINT");
                   ("api_version", "AZURE_OPENAI_API_VERSION");
                   ("deployment_name", "AZURE_OPENAI_DEPLOYMENT")]);
     ("gemini",
      list_to_map [("api_key", "GOOGLE_API_KEY"); ("project_id", "GOOGLE_PROJECT_ID");
                   ("location", "GOOGLE_LOCATION")]);
     ("ollama", list_to_map [("base_url", "OLLAMA_BASE_URL")])].

Definition DEFAULTS : gmap string (gmap string string) :=
  list_to_map
    [("azure_openai", list_to_map [("api_version", "2024-02-01")]);
     ("ollama", list_to_map [("base_url", "http://localhost:11434")])].

Record Config := {
  secret_fetcher : option (string -> option string);
  _overrides : gmap string (gmap string string);
}.

(** [d.get(k, {})] *)
Definition get_dict (d : gmap string (gmap string string)) (k : string)
  : gmap string string :=
  default ∅ (d !! k).

Section Resolution.
(** [os.environ] *)
Context (environ : gmap string string).

(** [_get_value], for a provider name already in lower case. *)
Definition _get_value (self : Config) (provider key : string) : option string :=
  match get_dict (_overrides self) provider !! key with
  | Some v => Some v
  | None =>
      let env_var := get_dict PROVIDER_ENV_VARS provider !! key in
      let secret :=
        match secret_fetcher self, env_var with
        | Some fetch, Some var =>
            if Types.truthy_str (Some var) then fetch var else None
        | _, _ => None
        end in
      if Types.truthy_str secret then secret
      else
        let value :=
          match env_var with
          | Some var => if Types.truthy_str (Some var) then environ !! var else None
          | None => None
          end in
        if Types.truthy_str value then value
        else get_dict DEFAULTS provider !! key
  end.

(** [get_provider_config]: defaults, then every mapped key that
    resolves, then the overrides. *)
Definition get_provider_config (self : Config) (provider : string)
  : gmap string string :=
  let env_vars := get_dict PROVIDER_ENV_VARS provider in
  let defaults := get_dict DEFAULTS provider in
  let overrides := get_dict (_overrides self) provider in
  overrides
  ∪ map_imap (fun config_key _ => _get_value self provider config_key) env_vars
  ∪ defaults.

End Resolution.

End Config.

(** ** providers/openai.py: the Azure variant *)

Module AzureOpenAIProvider.
Import Types.

(** The keyword arguments [_get_client] builds the vendor client from
    ([timeout], [max_retries] and [azure_ad_token] are read from the
    configuration alone and left out). *)
Record ClientKwargs := {
  api_key : string;
  azure_endpoint : string;
  api_version : string;
}.

(** [a or b] on [str | None]. *)
Definition str_or (a b : option string) : option string :=
  if truthy_str a then a else b.

(** errors.py: the message [ProviderError.__init__] hands to
    [Exception.__init__], which is what [str(e)] gives. *)
Definition ProviderError_message (message : string) (provider : option string)
    (status_code : option Z) : string :=
  let message :=
    if truthy_str provider then "[" +:+ default "" provider +:+ "] " +:+ message
    else message in
  match status_code with
  | Some code =>
      if (code =? 0)%Z then message
      else message +:+ " (status: " +:+ pretty code +:+ ")"
  | None => message
  end.

(** errors.py: [AuthenticationError(provider, message)]. *)
Definition AuthenticationError (provider message : string) : Exception :=
  {| error_type := "AuthenticationError";
     error := ProviderError_message message (Some provider) (Some 401%Z) |}.

(** [_get_client] on its first call, when it builds the client:
    [config] is [self.config], [environ] is [os.environ]. *)
Definition _get_client (config environ : gmap string string) : ClientKwargs + Exception :=
  let api_key := str_or (config !! "api_key") (environ !! "AZURE_OPENAI_API_KEY") in
  let endpoint := str_or (config !! "base_url") (environ !! "AZURE_OPENAI_ENDPOINT") in
  let api_version := default "2024-02-15-preview" (config !! "api_version") in
  if negb (truthy_str api_key) then
    inr (AuthenticationError "azure_openai"
           "AZURE_OPENAI_API_KEY environment variable or api_key config required")
  else if negb (truthy_str endpoint) then
    inr (AuthenticationError "azure_openai"
           "AZURE_OPENAI_ENDPOINT environment variable or base_url config required")
  else
    inl {| api_key := default "" api_key;
           azure_endpoint := default "" endpoint;
           api_version := api_version |}.

End AzureOpenAIProvider.

(** ** examples/docker/api/session_manager.py *)

Module SessionManager.

Inductive SessionStatus := STARTING | RUNNING | IDLE | STOPPED | ERROR.

Record AgentSession := {
  session_id : string;
  agent_id : string;
  config_id : option string;
  config_name : string;
  api_key : string;
  container_info : gmap string string;
  status : SessionStatus;
  created_at : Z;
  last_activity : Z;
  message_count : nat;
  conversation_history : list (string * string * Z);
}.

(** The container manager as the session manager uses it: what a call
    of [stop_container] on a handle raises, if anything. *)
Record ContainerManager := {
  stop_container : gmap string string -> option Types.Exception;
}.

(** The manager object. [sessions] is a Python dict, which is walked
    in the order its keys were inserted: [inserted] gives each key the
    rank of its insertion, [insertions] counts the insertions made.
    [stop_calls] records the calls of [stop_container] made so far: for
    which session id and on which handle. *)
Record SessionManager := {
  sessions : gmap string AgentSession;
  inserted : gmap string nat;
  insertions : nat;
  _container_manager : option ContainerManager;
  stop_calls : list (string * gmap string string);
}.

(** [SessionManager()] *)
Definition __init__ : SessionManager :=
  {| sessions := ∅;
     inserted := ∅;
     insertions := 0;
     _container_manager := None;
     stop_calls := [] |}.

(** The order of two entries of the dict: by the rank of their keys. *)
Definition earlier (ranks : gmap string nat) (a b : string * AgentSession) : Prop :=
  (default 0 (ranks !! a.1) ≤ default 0 (ranks !! b.1))%nat.

#[global] Instance earlier_dec ranks a b : Decision (earlier ranks a b) :=
  decide (default 0 (ranks !! a.1) ≤ default 0 (ranks !! b.1))%nat.

(** [self.sessions.items()], in the order of the dict. *)
Definition items (self : SessionManager) : list (string * AgentSession) :=
  merge_sort (earlier (inserted self)) (map_to_list (sessions self)).

Definition set_container_manager (cm : ContainerManager) (self : SessionManager)
  : SessionManager :=
  {| sessions := sessions self;
     inserted := inserted self;
     insertions := insertions self;
     _container_manager := Some cm;
     stop_calls := stop_calls self |}.

(** [create_session]; [uuid1] and [uuid2] are the hex digits of the two
    fresh UUIDs, [now] and [now'] the two clock readings that
    [AgentSession.__init__] takes, in this order, for [created_at] and
    for [last_activity]. *)
Definition create_session (uuid1 uuid2 : string) (now now' : Z)
    (api_key : string) (config_id : option string) (config_name : string)
    (container_info : gmap string string) (self : SessionManager)
  : AgentSession * SessionManager :=
  let session_id := "sess-" +:+ String.substring 0 12 uuid1 in
  let agent_id := "agent-" +:+ String.substring 0 8 uuid2 in
  let session :=
    {| session_id := session_id;
       agent_id := agent_id;
       config_id := config_id;
       config_name := config_name;
       api_key := api_key;
       container_info := container_info;
       status := RUNNING;
       created_at := now;
       last_activity := now';
       message_count := 0;
       conversation_history := [] |} in
  (* [self.sessions[session_id] = session]: a key the dict holds
     already keeps its place *)
  (session,
   {| sessions := <[session_id := session]> (sessions self);
      inserted :=
        match sessions self !! session_id with
        | Some _ => inserted self
        | None => <[session_id := insertions self]> (inserted self)
        end;
      insertions :=
        match sessions self !! session_id with
        | Some _ => insertions self
        | None => S (insertions self)
        end;
      _container_manager := _container_manager self;
      stop_calls := stop_calls self |}).

Definition get_session (session_id : string) (self : SessionManager)
  : AgentSession + Types.Exception :=
  match sessions self !! session_id with
  | Some session => inl session
  | None =>
      inr {| Types.error_type := "SessionNotFoundError";
             Types.error := "Session not found: " +:+ session_id |}
  end.

(** [session.touch()] on the session stored under [session_id]. *)
Definition touch (session_id : string) (now : Z) (self : SessionManager)
  : SessionManager :=
  {| sessions :=
       alter (fun s =>
                {| session_id := SessionManager.session_id s;
                   agent_id := agent_id s;
                   config_id := config_id s;
                   config_name := config_name s;
                   api_key := api_key s;
                   container_info := container_info s;
                   status := status s;
                   created_at := created_at s;
                   last_activity := now;
                   message_count := message_count s;
                   conversation_history := conversation_history s |})
         session_id (sessions self);
     inserted := inserted self;
     insertions := insertions self;
     _container_manager := _container_manager self;
     stop_calls := stop_calls self |}.

(** [cleanup_session]: pop the session; when there was one and a
    container manager is set, stop its container. An exception from
    [stop_container] is logged and swallowed. *)
Definition cleanup_session (session_id : string) (self : SessionManager)
  : SessionManager :=
  match sessions self !! session_id with
  | Some session =>
      {| sessions := delete session_id (sessions self);
         inserted := delete session_id (inserted self);
         insertions := insertions self;
         _container_manager := _container_manager self;
         stop_calls :=
           match _container_manager self with
           | Some _ => stop_calls self ++ [(session_id, container_info session)]
           | None => stop_calls self
           end |}
  | None => self
  end.

(** [for session_id in ids: await self.cleanup_session(session_id)] *)
Definition cleanup_all (ids : list string) (self : SessionManager) : SessionManager :=
  fold_left (fun m session_id => cleanup_session session_id m) ids self.

(** [_cleanup_idle_sessions], with the idle timeout in the clock's unit. *)
Definition _cleanup_idle_sessions (timeout now : Z) (self : SessionManager)
  : SessionManager :=
  let idle_sessions :=
    omap (fun '(session_id, session) =>
            if (timeout <? now - last_activity session)%Z then Some session_id else None)
      (items self) in
  cleanup_all idle_sessions self.

(** The part of [stop] that follows the cancellation of the background
    task. *)
Definition stop (self : SessionManager) : SessionManager :=
  cleanup_all (items self).*1 self.

(** What can happen to a manager during the life of a session. *)
Inductive Op :=
| Attach (container_manager : ContainerManager)
| Create (uuid1 uuid2 : string) (now now' : Z) (api_key : string)
    (config_id : option string) (config_name : string)
    (container_info : gmap string string)
| Touch (session_id : string) (now : Z)
| Cleanup (session_id : string)
| CleanupIdle (timeout now : Z)
| Stop.

Definition step (op : Op) (self : SessionManager) : SessionManager :=
  match op with
  | Attach cm => set_container_manager cm self
  | Create u1 u2 now now' key cid cname info =>
      (create_session u1 u2 now now' key cid cname info self).2
  | Touch sid now => touch sid now self
  | Cleanup sid => cleanup_session sid self
  | CleanupIdle timeout now => _cleanup_idle_sessions timeout now self
  | Stop => stop self
  end.

Definition run (ops : list Op) (self : SessionManager) : SessionManager :=
  fold_left (fun m op => step op m) ops self.

(** The session id a [Create] allocates. *)
Definition creates (op : Op) (sid : string) : Prop :=
  match op with
  | Create u1 _ _ _ _ _ _ _ => "sess-" +:+ String.substring 0 12 u1 = sid
  | _ => False
  end.

(** How many times [stop_container] was called for a session id. *)
Definition stops_of (sid : string) (self : SessionManager) : nat :=
  length (List.filter (fun call => String.eqb call.1 sid) (stop_calls self)).

End SessionManager.

(** * The specification's properties, stated over the embedding *)

Module Spec.
Import Types Client.

(** ** Hook merge *)

(** The outputs that take part in the merge, in order: those of the
    hooks that ran, neither timed out nor failed, and returned a
    non-empty output, up to and including the first one that says
    [continue_ = False]. *)
Fixpoint hook_outputs (m : HookMatcher) (hs : list HookCallback) (input_data : HookInput)
    (tool_use_id : option string) (context : HookContext)
  : list (gmap string HookField) * bool :=
  match hs with
  | [] => ([], false)
  | hook :: rest =>
      match await_hook m (hook input_data tool_use_id context) with
      | Returns output =>
          if Nat.eqb (size output) 0
          then hook_outputs m rest input_data tool_use_id context
          else if continue_is_False output then ([output], true)
          else
            let '(outs, stopped) := hook_outputs m rest input_data tool_use_id context in
            (output :: outs, stopped)
      | Fails _ => hook_outputs m rest input_data tool_use_id context
      end
  end.

Fixpoint matcher_outputs (ms : list HookMatcher) (input_data : HookInput)
    (tool_use_id tool_name : option string) (context : HookContext)
  : list (gmap string HookField) :=
  match ms with
  | [] => []
  | m :: rest =>
      if skips m tool_name
      then matcher_outputs rest input_data tool_use_id tool_name context
      else
        match hook_outputs m (hooks m) input_data tool_use_id context with
        | (outs, true) => outs
        | (outs, false) =>
            outs ++ matcher_outputs rest input_data tool_use_id tool_name context
        end
  end.

Definition executed_outputs (options : AgentOptions) (_session_id event : string)
    (input_data : HookInput) (tool_use_id tool_name : option string)
  : list (gmap string HookField) :=
  match opt_hooks options ≫= (.!! event) with
  | Some matchers =>
      matcher_outputs matchers input_data tool_use_id tool_name
        {| ctx_session_id := _session_id; ctx_tool_use_id := tool_use_id |}
  | None => []
  end.

(** The merge as the specification words it: a left-to-right fold in
    which the later output wins key by key. *)
Definition merge_outputs (outs : list (gmap string HookField)) : gmap string HookField :=
  foldl (fun combined output => output ∪ combined) ∅ outs.

(** The value the last output holding [key] gives it. *)
Definition last_setting (key : string) (outs : list (gmap string HookField))
  : option HookField :=
  foldl (fun found output =>
           match output !! key with
           | Some v => Some v
           | None => found
           end) None outs.

(** ** Agent loop *)

(** The output of the PreToolUse hooks run for a tool use. *)
Definition pre_hooks (options : AgentOptions) (_session_id : string)
    (tool_use : ToolUseBlock) : gmap string HookField :=
  _execute_hooks options _session_id "PreToolUse"
    (PreToolUseHookInput _session_id (name tool_use) (input tool_use))
    (Some (id tool_use)) (Some (name tool_use)).

(** The PreToolUse hooks run for this tool use return
    [continue_ = False]. *)
Definition pre_stops (options : AgentOptions) (_session_id : string)
    (tool_use : ToolUseBlock) : bool :=
  continue_is_False (pre_hooks options _session_id tool_use).

(** The PostToolUse hooks run for this tool use, once its handler gave
    [content], return [continue_ = False]. *)
Definition post_stops (options : AgentOptions) (_session_id : string)
    (tool_use : ToolUseBlock) (content : string) : Prop :=
  ∃ tool_input,
    continue_is_False
      (_execute_hooks options _session_id "PostToolUse"
         (PostToolUseHookInput _session_id (name tool_use) tool_input content)
         (Some (id tool_use)) (Some (name tool_use))) = true.

(** The permission callback, called for this tool use with a context
    holding [session_id], raises [e]. *)
Definition permission_raises (options : AgentOptions) (session_id : option string)
    (tool_use : ToolUseBlock) (e : Exception) : Prop :=
  ∃ callback,
    can_use_tool options = Some callback
    ∧ callback (name tool_use) (input tool_use) {| perm_session_id := session_id |} = inr e.

(** How a run over the tool uses of one message can end at a tool use
    before the others are looked at, with the tool messages that tool
    use still gets and the exception that leaves the run:
    - its PreToolUse hooks stop the run: no tool message;
    - its PostToolUse hooks stop the run: its tool message;
    - the permission callback raises: no tool message. *)
Inductive StoppedAt (options : AgentOptions) (_session_id : string)
    (tool_use : ToolUseBlock) : option Exception -> list ToolMessage -> Prop :=
| Stopped_pre :
    pre_stops options _session_id tool_use = true ->
    StoppedAt options _session_id tool_use None []
| Stopped_post m :
    pre_stops options _session_id tool_use = false ->
    tool_call_id m = id tool_use ->
    post_stops options _session_id tool_use (tool_content m) ->
    StoppedAt options _session_id tool_use None [m]
| Stopped_raised e :
    pre_stops options _session_id tool_use = false ->
    permission_raises options (Some _session_id) tool_use e ->
    StoppedAt options _session_id tool_use (Some e) [].

(** The tool messages [results] of a run that ended at one of the
    [tool_uses] with [exn]: the tool uses before it, none of which had
    its PreToolUse hooks stop the run, have their tool message each, in
    order; those after it have none. *)
Definition EndedAt (options : AgentOptions) (_session_id : string)
    (tool_uses : list ToolUseBlock) (exn : option Exception)
    (results : list ToolMessage) : Prop :=
  ∃ before tool_use after first last,
    tool_uses = before ++ tool_use :: after
    ∧ results = first ++ last
    ∧ map tool_call_id first = map id before
    ∧ Forall (fun tool_use => pre_stops options _session_id tool_use = false) before
    ∧ StoppedAt options _session_id tool_use exn last.

(** A turn whose tool uses were all processed: no PreToolUse hook
    stopped the run at any of them. *)
Definition whole (options : AgentOptions) (_session_id : string)
    (response : AssistantMessage) : Prop :=
  Forall (fun tool_use => pre_stops options _session_id tool_use = false)
    (tool_uses_of response).

(** A turn that ended the run at one of its tool uses. *)
Definition ended_early (options : AgentOptions) (_session_id : string)
    (response : AssistantMessage) (results : list ToolMessage) : Prop :=
  ∃ exn, EndedAt options _session_id (tool_uses_of response) exn results.

(** The shape of what a run appends to the history: one segment per
    tool-using turn, the assistant message followed by the tool
    messages of its tool uses, in order. A segment is [full] when every
    tool use has its tool message; only the last segment may be [cut]. *)
Inductive Covered (full : AssistantMessage -> Prop)
    (cut : AssistantMessage -> list ToolMessage -> Prop) : list Message -> Prop :=
| Covered_nil : Covered full cut []
| Covered_full response (results : list ToolMessage) rest :
    map tool_call_id results = map id (tool_uses_of response) ->
    full response ->
    Covered full cut rest ->
    Covered full cut (Assistant response :: map Tool results ++ rest)
| Covered_cut response (results : list ToolMessage) :
    cut response results ->
    Covered full cut (Assistant response :: map Tool results).

(** The permission callback, when there is one, raises for no tool
    use. *)
Definition callback_returns (options : AgentOptions) : Prop :=
  ∀ callback tool_name tool_input context e,
    can_use_tool options = Some callback ->
    callback tool_name tool_input context = inr e -> False.

(** What [_execute_tools] returns, read off what the generator
    [_execute_tools_with_events] yields and raises. *)
Definition return_value (out : list (StreamEvent + bool) * option Exception * State)
  : (bool + Exception) * State :=
  (match out.1.2 with
   | Some e => inr e
   | None => inl (should_continue_of out.1.1)
   end, out.2).

(** The exceptions that can leave a run of the loops: those a provider
    call raises and those the permission callback raises. *)
Definition may_raise (options : AgentOptions) (provider : BaseProvider) (e : Exception)
  : Prop :=
  (∃ n history, (provider_stream provider n history).2 = Some e)
  ∨ (∃ n history, provider_complete provider n history = inr e)
  ∨ (∃ callback tool_name tool_input context,
       can_use_tool options = Some callback
       ∧ callback tool_name tool_input context = inr e).

(** What a run of one of the two loops guarantees, in terms of the
    number [calls] of provider calls it made and the [suffix] it
    appended to the history. [present] is the assumption under which
    every turn has a response to look at. *)
Definition LoopInv (options : AgentOptions) (_session_id : string) (provider : BaseProvider)
    (present : Prop) (max_turns turns : Z) (st : State) (g : Generated) : Prop :=
  ∃ (calls : nat) (suffix : list Message),
    provider_calls (after g) = (provider_calls st + calls)%nat
    ∧ (Z.of_nat calls ≤ Z.max 0 (max_turns - turns))%Z
    ∧ ((turns < max_turns)%Z -> (1 ≤ calls)%nat)
    ∧ Forall (fun m => isinstance_ResultMessage m = true ->
                       m = result_message _session_id (turns + Z.of_nat calls))
        (yielded g)
    ∧ (raised g = None -> (max_turns ≤ turns + Z.of_nat calls)%Z ->
       Exists (fun m => isinstance_ResultMessage m = true) (yielded g))
    ∧ (raised g = None -> present ->
       Exists (fun m => isinstance_ResultMessage m = true) (yielded g))
    ∧ _messages (after g) = _messages st ++ suffix
    ∧ Covered (whole options _session_id) (ended_early options _session_id) suffix
    ∧ (∀ e, raised g = Some e -> may_raise options provider e).

(** The options with another [max_turns]. *)
Definition set_max_turns (n : option Z) (options : AgentOptions) : AgentOptions :=
  {| tools := tools options;
     can_use_tool := can_use_tool options;
     max_turns := n;
     opt_hooks := opt_hooks options;
     stream := stream options |}.

End Spec.

(** ** Stream and message *)

Module StreamSpec.
Import Types.

(** ["".join(parts)] *)
Definition join (parts : list string) : string := foldr String.append "" parts.

#[global] Arguments join : simpl never.

(** The text an emitted event adds to the turn: the payload of a
    [content_block_delta] whose delta is a text delta (the Anthropic
    dialect tags it [text_delta], the OpenAI dialect [text]). *)
Definition text_payload (e : StreamEvent) : option string :=
  if String.eqb (event_type e) "content_block_delta" then
    match delta e with
    | Some d =>
        match get "type" d, get "text" d with
        | Some (JStr t), Some (JStr s) =>
            if String.eqb t "text_delta" || String.eqb t "text" then Some s else None
        | _, _ => None
        end
    | None => None
    end
  else None.

(** The partial JSON an emitted event adds to the tool-use block at
    index [idx]: [partial_json] of an [input_json_delta], [arguments] of
    a [tool_call] delta. *)
Definition json_payload (idx : Z) (e : StreamEvent) : option string :=
  if bool_decide (index e = Some idx) then
    match delta e with
    | Some d =>
        match get "type" d with
        | Some (JStr t) =>
            if String.eqb t "input_json_delta" then
              match get "partial_json" d with Some (JStr s) => Some s | _ => None end
            else if String.eqb t "tool_call" then
              match get "arguments" d with Some (JStr s) => Some s | _ => None end
            else None
        | _ => None
        end
    | None => None
    end
  else None.

(** The stream events among what a provider stream yields. *)
Definition events_of (out : list AnyMessage) : list StreamEvent :=
  omap (fun m => match m with AEvent e => Some e | _ => None end) out.

(** The texts of the TextBlocks of a message, joined (what
    [get_text_response] returns). *)
Definition message_text (content : list ContentBlock) : string :=
  join (omap (fun b => match b with TextBlock t => Some t | _ => None end) content).

(** The input the specification gives a tool-use block: the parse of
    the concatenated partial JSON when it parses, [{}] otherwise. *)
Definition parse_or_empty (loads : string -> option json) (s : string) : json :=
  match loads s with
  | Some j => j
  | None => JDict []
  end.

(** The tool-use blocks the specification expects for a well-formed
    Anthropic stream: one per tool-use block of the stream, in order,
    its input parsed from the partial JSON emitted under its index. *)
Fixpoint expected_tool_uses (loads : string -> option json)
    (events : list StreamEvent) (idx : Z) (bs : list Claude.Block)
  : list ToolUseBlock :=
  match bs with
  | [] => []
  | Claude.BToolUse id name _ :: rest =>
      {| id := id;
         name := name;
         input := parse_or_empty loads (join (omap (json_payload idx) events)) |}
      :: expected_tool_uses loads events (idx + 1) rest
  | _ :: rest => expected_tool_uses loads events (idx + 1) rest
  end.

(** The canonical event grammar of the specification. *)
Definition canonical (e : StreamEvent) : bool :=
  (String.eqb (event_type e) "content_block_start"
   || String.eqb (event_type e) "content_block_delta"
   || String.eqb (event_type e) "content_block_stop")
  && (if String.eqb (event_type e) "content_block_delta" then
        match delta_type e with
        | Some (JStr t) =>
            String.eqb t "text_delta" || String.eqb t "input_json_delta"
            || String.eqb t "thinking_delta" || String.eqb t "signature_delta"
        | _ => false
        end
      else true).

(** The event vocabulary of the OpenAI-dialect stream. *)
Definition openai_vocabulary (e : StreamEvent) : Prop :=
  (event_type e = "content_block_delta" ∧ delta_type e = Some (JStr "text"))
  ∨ (event_type e = "tool_call_delta" ∧ delta_type e = Some (JStr "tool_call")).

(** The argument string accumulated for an index ([""] when the index
    was never seen). *)
Definition args_at (tool_calls : gmap Z OpenAI.ToolCallEntry) (idx : Z) : string :=
  from_option OpenAI.entry_arguments "" (tool_calls !! idx).

(** What an Anthropic vendor event makes the provider emit; it does not
    depend on the accumulator. *)
Definition emit (event : Claude.RawEvent) : list StreamEvent :=
  (Claude.on_event (fun _ => None) event Claude.initial).2.

(** Between two blocks nothing is being assembled. *)
Definition clean (acc : Claude.Accumulator) : Prop :=
  Claude.current_text acc = ""
  ∧ Claude.current_tool_use acc = None
  ∧ Claude.current_thinking acc = "".

Definition block_texts (b : Claude.Block) : list string :=
  match b with
  | Claude.BText parts => parts
  | _ => []
  end.

Definition block_jsons (b : Claude.Block) : list string :=
  match b with
  | Claude.BToolUse _ _ parts => parts
  | _ => []
  end.

Definition block_tool_use (loads : string -> option json) (b : Claude.Block)
  : list ToolUseBlock :=
  match b with
  | Claude.BToolUse id name parts =>
      [{| id := id; name := name; input := Claude.input_data loads (join parts) |}]
  | _ => []
  end.

Definition tool_uses_in (blocks : list ContentBlock) : list ToolUseBlock :=
  omap isinstance_ToolUseBlock blocks.

End StreamSpec.

(** ** Session lifetime *)

Module SessionSpec.
Import SessionManager.

(** A session that is gone: it is not in the map, and [stop_container]
    was called [stops] times for its id. *)
Definition gone (sid : string) (stops : nat) (self : SessionManager) : Prop :=
  sessions self !! sid = None ∧ stops_of sid self = stops.

(** How many calls of [stop_container] a cleanup makes for a live
    session: one when a container manager is attached, none otherwise. *)
Definition stops_made (self : SessionManager) : nat :=
  match _container_manager self with
  | Some _ => 1
  | None => 0
  end.

End SessionSpec.

(** ** Concrete runs *)

Module Scenarios.
Import Types Client.

Definition quote : string := String (Ascii.ascii_of_nat 34) EmptyString.

(** [json.dumps] on values whose strings need no escaping. *)
Fixpoint dumps (j : json) : string :=
  match j with
  | JNull => "null"
  | JBool true => "true"
  | JBool false => "false"
  | JNum n => pretty n
  | JStr s => quote +:+ s +:+ quote
  | JList l =>
      "[" +:+ (fix items (l : list json) : string :=
                 match l with
                 | [] => ""
                 | [x] => dumps x
                 | x :: rest => dumps x +:+ ", " +:+ items rest
                 end) l +:+ "]"
  | JDict d =>
      "{" +:+ (fix items (d : list (string * json)) : string :=
                 match d with
                 | [] => ""
                 | [(k, v)] => quote +:+ k +:+ quote +:+ ": " +:+ dumps v
                 | (k, v) :: rest =>
                     quote +:+ k +:+ quote +:+ ": " +:+ dumps v +:+ ", " +:+ items rest
                 end) d +:+ "}"
  end.

(** [json.loads] on the few documents the runs below use. *)
Definition loads (s : string) : option json :=
  if String.eqb s "{}" then Some (JDict [])
  else if String.eqb s "[2, 3]" then Some (JList [JNum 2; JNum 3])
  else None.

Definition fresh : State :=
  {| _messages := [User (inl "go")]; provider_calls := 0; handler_calls := [] |}.

Definition streaming : Client :=
  {| _connected := true; state := fresh; _pending_response := Some StreamWithTools |}.

Definition assistant (blocks : list ContentBlock) (reason : FinishReason) : AssistantMessage :=
  {| content := blocks; model := Some "m"; finish_reason := Some reason |}.

Definition provider_result (reason : FinishReason) : AnyMessage :=
  AResult {| is_error := false; num_turns := 1; session_id := None; usage := None;
             result_finish_reason := Some reason |}.

(** S5: a tool [add] and a provider that asks for it on every turn. *)
Definition add : ToolDefinition :=
  {| tool_name := "add";
     description := "Add two numbers";
     input_schema := JDict [("type", JStr "object")];
     handler :=
       Some {| function_str := "__main__.add()";
               invoke := fun kwargs =>
                 match kwargs with
                 | JDict d =>
                     match get "a" d, get "b" d with
                     | Some (JNum a), Some (JNum b) => ReturnsValue (JNum (a + b))
                     | _, _ =>
                         Raises {| error_type := "TypeError"; error := "bad arguments" |}
                     end
                 | _ => Raises {| error_type := "TypeError"; error := "bad arguments" |}
                 end |} |}.

Definition add_request : ToolUseBlock :=
  {| id := "t1"; name := "add"; input := JDict [("a", JNum 2); ("b", JNum 3)] |}.

Definition always_add : BaseProvider :=
  {| provider_stream := fun _ _ =>
       ([AMessage (Assistant (assistant [ToolUse add_request] TOOL_USE));
         provider_result TOOL_USE], None);
     provider_complete := fun _ _ => inl (assistant [ToolUse add_request] TOOL_USE) |}.

Definition two_turns : AgentOptions :=
  {| tools := [add]; can_use_tool := None; max_turns := Some 2%Z;
     opt_hooks := None; stream := true |}.

Definition zero_turns : AgentOptions :=
  {| tools := [add]; can_use_tool := None; max_turns := Some 0%Z;
     opt_hooks := None; stream := true |}.

(** A provider whose stream ends without an AssistantMessage. *)
Definition text_event : StreamEvent :=
  {| event_type := "content_block_delta"; index := Some 0%Z;
     delta := Some [("type", JStr "text_delta"); ("text", JStr "hi")] |}.

Definition silent : BaseProvider :=
  {| provider_stream := fun _ _ => ([AEvent text_event], None);
     provider_complete := fun _ _ => inl (assistant [] STOP) |}.

Definition three_turns : AgentOptions :=
  {| tools := []; can_use_tool := None; max_turns := Some 3%Z;
     opt_hooks := None; stream := true |}.

(** A PreToolUse hook that stops the run. *)
Definition stop_hook : HookCallback :=
  fun _ _ _ =>
    {| elapsed := 0;
       result :=
         Returns {[ "continue_" := FBool false; "stopReason" := FStr (Some "halt") ]} |}.

Definition stopping : AgentOptions :=
  {| tools := [add]; can_use_tool := None; max_turns := Some 3%Z;
     opt_hooks :=
       Some {[ "PreToolUse" :=
                 [{| matcher := None; hooks := [stop_hook]; timeout := None |}] ]};
     stream := true |}.

(** Two PreToolUse hooks: the first denies, the second allows. *)
Definition deny_hook : HookCallback :=
  fun _ _ _ =>
    {| elapsed := 0;
       result :=
         Returns {[ "hookSpecificOutput" :=
                      FSpecific (Some {[ "permissionDecision" := Some "deny";
                                         "permissionDecisionReason" := Some "no" ]}) ]} |}.

Definition allow_hook : HookCallback :=
  fun _ _ _ =>
    {| elapsed := 0;
       result :=
         Returns {[ "hookSpecificOutput" :=
                      FSpecific (Some {[ "permissionDecision" := Some "allow" ]}) ]} |}.

Definition deny_then_allow : AgentOptions :=
  {| tools := [add]; can_use_tool := None; max_turns := None;
     opt_hooks :=
       Some {[ "PreToolUse" :=
                 [{| matcher := None; hooks := [deny_hook; allow_hook]; timeout := None |}] ]};
     stream := true |}.

(** The permission callback of [examples/.../03_tool_permissions.py],
    reduced to its redirect: writes are allowed with the path replaced. *)
Definition write_file : ToolDefinition :=
  {| tool_name := "write_file";
     description := "Write a file";
     input_schema := JDict [("type", JStr "object")];
     handler :=
       Some {| function_str := "__main__.write_file()";
               invoke := fun _ => ReturnsStr "written" |} |}.

Definition requested_input : json :=
  JDict [("path", JStr "/home/u/notes.txt"); ("content", JStr "hi")].

Definition redirected_input : json :=
  JDict [("path", JStr "./safe_output/notes.txt"); ("content", JStr "hi")].

Definition redirect
  : string -> json -> ToolPermissionContext -> PermissionResult + Exception :=
  fun tool_name input_data _ =>
    if String.eqb tool_name "write_file"
    then inl (PermissionResultAllow (Some redirected_input))
    else inl (PermissionResultAllow None).

Definition redirecting : AgentOptions :=
  {| tools := [write_file]; can_use_tool := Some redirect; max_turns := Some 3%Z;
     opt_hooks := None; stream := true |}.

Definition write_request : ToolUseBlock :=
  {| id := "t1"; name := "write_file"; input := requested_input |}.

Definition writes_once : BaseProvider :=
  {| provider_stream := fun n _ =>
       match n with
       | O => ([AMessage (Assistant (assistant [ToolUse write_request] TOOL_USE));
                provider_result TOOL_USE], None)
       | _ => ([AMessage (Assistant (assistant [TextBlock "done"] STOP));
                provider_result STOP], None)
       end;
     provider_complete := fun n _ =>
       match n with
       | O => inl (assistant [ToolUse write_request] TOOL_USE)
       | _ => inl (assistant [TextBlock "done"] STOP)
       end |}.

(** An OpenAI chunk carrying a text fragment and a tool-call fragment. *)
Definition chunk : OpenAI.Chunk :=
  {| OpenAI.choices :=
       [{| OpenAI.choice_delta :=
             {| OpenAI.delta_content := Some "hi";
                OpenAI.delta_tool_calls :=
                  Some [{| OpenAI.tc_index := 0;
                           OpenAI.tc_id := Some "call_1";
                           OpenAI.tc_function :=
                             Some {| OpenAI.fn_name := Some "add";
                                     OpenAI.fn_arguments := Some "{}" |} |}] |};
           OpenAI.choice_finish_reason := None |}];
     OpenAI.chunk_usage := None;
     OpenAI.chunk_model := Some "gpt-4o" |}.

(** A session manager with one live session. *)
Definition docker : SessionManager.ContainerManager :=
  {| SessionManager.stop_container := fun _ => None |}.

Definition one_session : SessionManager.SessionManager :=
  (SessionManager.create_session "0123456789abcdef" "fedcba9876543210" 100 101
     "key" None "Agent" {[ "container_id" := "c1" ]}
     (SessionManager.set_container_manager docker SessionManager.__init__)).2.

(** The same session under a manager that was given no container
    manager. *)
Definition unattached : SessionManager.SessionManager :=
  (SessionManager.create_session "0123456789abcdef" "fedcba9876543210" 100 101
     "key" None "Agent" {[ "container_id" := "c1" ]}
     SessionManager.__init__).2.

(** S2 and S3: a provider that asks for [add] once and then answers in
    text, and a permission callback that denies everything. *)
Definition add_then_text : BaseProvider :=
  {| provider_stream := fun n _ =>
       match n with
       | O => ([AMessage (Assistant (assistant [ToolUse add_request] TOOL_USE));
                provider_result TOOL_USE], None)
       | _ => ([AMessage (Assistant (assistant [TextBlock "5"] STOP));
                provider_result STOP], None)
       end;
     provider_complete := fun n _ =>
       match n with
       | O => inl (assistant [ToolUse add_request] TOOL_USE)
       | _ => inl (assistant [TextBlock "5"] STOP)
       end |}.

Definition denying : AgentOptions :=
  {| tools := [add];
     can_use_tool := Some (fun _ _ _ => inl (PermissionResultDeny "not allowed" false));
     max_turns := Some 3%Z; opt_hooks := None; stream := true |}.

(** A permission callback that raises. *)
Definition refused : Exception :=
  {| error_type := "PermissionError"; error := "no terminal to ask on" |}.

Definition raising : AgentOptions :=
  {| tools := [add];
     can_use_tool := Some (fun _ _ _ => inr refused);
     max_turns := Some 3%Z; opt_hooks := None; stream := true |}.

(** Two sessions, the one with the greater id created first. *)
Definition two_sessions : SessionManager.SessionManager :=
  (SessionManager.create_session "aaaaaaaaaaaaaaaa" "fedcba9876543210" 102 103
     "key" None "Agent" {[ "container_id" := "c2" ]}
     (SessionManager.create_session "bbbbbbbbbbbbbbbb" "fedcba9876543210" 100 101
        "key" None "Agent" {[ "container_id" := "c1" ]}
        (SessionManager.set_container_manager docker SessionManager.__init__)).2).2.

(** S4: a PreToolUse hook on [write_file] that replaces the input. *)
Definition rewrite_hook : HookCallback :=
  fun _ _ _ =>
    {| elapsed := 0;
       result := Returns {[ "modified_input" := FInput (Some redirected_input) ]} |}.

Definition rewriting : AgentOptions :=
  {| tools := [write_file]; can_use_tool := None; max_turns := Some 3%Z;
     opt_hooks :=
       Some {[ "PreToolUse" :=
                 [{| matcher := Some "write_file"; hooks := [rewrite_hook];
                     timeout := None |}] ]};
     stream := true |}.

(** A stopping hook that runs longer than its matcher allows. *)
Definition slow_stop_hook : HookCallback :=
  fun _ _ _ =>
    {| elapsed := 5000;
       result := Returns {[ "continue_" := FBool false ]} |}.

Definition impatient : AgentOptions :=
  {| tools := [add]; can_use_tool := None; max_turns := Some 3%Z;
     opt_hooks :=
       Some {[ "PreToolUse" :=
                 [{| matcher := None; hooks := [slow_stop_hook]; timeout := Some 1000%Z |}] ]};
     stream := true |}.

(** An Azure provider configured with key and endpoint only, and an
    environment that sets the API version. *)
Definition azure_config : gmap string string :=
  {[ "api_key" := "k"; "base_url" := "https://example.openai.azure.com" ]}.

Definition azure_environ : gmap string string :=
  {[ "AZURE_OPENAI_API_VERSION" := "2023-05-15" ]}.

Definition no_overrides : Config.Config :=
  {| Config.secret_fetcher := None; Config._overrides := ∅ |}.

End Scenarios.

(** * The code around the engine *)

(** ** client.py: the life cycle of a client *)

Module Lifecycle.
Import Types Client.

Section Lifecycle.
Context (options : AgentOptions) (_session_id : string).
(** [self.options.system_prompt] *)
Context (system_prompt : option string).

(** [connect]. [registry_get] is what [ProviderRegistry.get] comes to
    for the configured provider: [None] when it returns a provider, the
    exception when it raises. *)
Definition connect (registry_get : option Exception) (c : Client) : Client + Exception :=
  if _connected c then inl c
  else
    match registry_get with
    | Some e => inr e
    | None =>
        let st :=
          if truthy_str system_prompt
          then append (System (OpenAI.or_empty system_prompt)) (state c)
          else state c in
        let hook_output :=
          _execute_hooks options _session_id "SessionStart"
            (SessionStartHookInput _session_id) None None in
        let st :=
          match hook_output !! "hookSpecificOutput" with
          | Some (FSpecific (Some hook_specific)) =>
              let additional_context := specific_get hook_specific "additionalContext" in
              if truthy_str additional_context
              then append (System (OpenAI.or_empty additional_context)) st
              else st
          | _ => st
          end in
        inl {| _connected := true;
               state := st;
               _pending_response := _pending_response c |}
    end.

End Lifecycle.

Definition disconnect (c : Client) : Client :=
  {| _connected := false; state := state c; _pending_response := None |}.

Definition isinstance_SystemMessage (m : Message) : bool :=
  match m with System _ => true | _ => false end.

(** [clear_history] *)
Definition clear_history (c : Client) : Client :=
  {| _connected := _connected c;
     state :=
       {| _messages := List.filter isinstance_SystemMessage (_messages (state c));
          provider_calls := provider_calls (state c);
          handler_calls := handler_calls (state c) |};
     _pending_response := _pending_response c |}.

(** [for msg in reversed(self._messages)]: the first AssistantMessage
    met. *)
Fixpoint first_assistant (msgs : list Message) : option AssistantMessage :=
  match msgs with
  | [] => None
  | Assistant a :: _ => Some a
  | _ :: rest => first_assistant rest
  end.

(** [get_text_response] *)
Definition get_text_response (c : Client) : string :=
  match first_assistant (rev (_messages (state c))) with
  | Some msg => StreamSpec.message_text (content msg)
  | None => ""
  end.

End Lifecycle.

(** ** Properties of the client, stated over the embedding *)

Module ClientSpec.
Import Types Client.

(** What identifies an engine event: its type and the tool use it is
    about. *)
Definition event_key (e : StreamEvent) : string * option json :=
  (event_type e, delta e ≫= get "tool_use_id").

(** The two events that frame the processing of a tool use. *)
Definition announced (tool_use : ToolUseBlock) : list (string * option json) :=
  [("tool_execution_start", Some (JStr (id tool_use)));
   ("tool_execution_complete", Some (JStr (id tool_use)))].

(** A handler call the options account for: the name is that of a tool
    of [options.tools] that has a handler, and the input is a mapping. *)
Definition registered_call (options : AgentOptions) (call : string * json) : Prop :=
  (∃ t, t ∈ tools options ∧ tool_name t = call.1 ∧ is_Some (handler t))
  ∧ ∃ d, call.2 = JDict d.

(** The options with another permission callback. *)
Definition set_can_use_tool
    (callback :
       option (string -> json -> ToolPermissionContext -> PermissionResult + Exception))
    (options : AgentOptions) : AgentOptions :=
  {| tools := tools options;
     can_use_tool := callback;
     max_turns := max_turns options;
     opt_hooks := opt_hooks options;
     stream := stream options |}.

(** The decision the PreToolUse hooks reach for a tool use. *)
Definition hook_decision (options : AgentOptions) (_session_id : string)
    (tool_use : ToolUseBlock) : option string :=
  specific_get
    (get_hookSpecificOutput
       (_execute_hooks options _session_id "PreToolUse"
          (PreToolUseHookInput _session_id (name tool_use) (input tool_use))
          (Some (id tool_use)) (Some (name tool_use))))
    "permissionDecision".

(** A string that does not start in the middle of a code point. *)
Definition starts_code_point (s : string) : Prop :=
  match s with
  | EmptyString => True
  | String c _ => is_continuation c = false
  end.

(** What a turn with tool uses leaves in the history: the assistant
    message that asked for tools, and tool messages. *)
Definition tool_turn (m : Message) : Prop :=
  match m with
  | Assistant a => tool_uses_of a ≠ []
  | Tool _ => True
  | _ => False
  end.

End ClientSpec.

(** ** More concrete runs *)

Module Fixtures.
Import Types Client.

(** A SessionStart hook that adds context to the conversation. *)
Definition context_hook : HookCallback :=
  fun _ _ _ =>
    {| elapsed := 0;
       result :=
         Returns {[ "hookSpecificOutput" :=
                      FSpecific (Some {[ "additionalContext" := Some "Today is Monday." ]}) ]} |}.

Definition greeting : AgentOptions :=
  {| tools := []; can_use_tool := None; max_turns := None;
     opt_hooks :=
       Some {[ "SessionStart" :=
                 [{| matcher := None; hooks := [context_hook]; timeout := None |}] ]};
     stream := true |}.

(** A tool that returns 501 times the letter e with an acute accent,
    two bytes in UTF-8. *)
Definition e_acute : string :=
  String (Ascii.ascii_of_nat 195) (String (Ascii.ascii_of_nat 169) EmptyString).

Definition accents (n : nat) : string := String.concat EmptyString (replicate n e_acute).

Definition accent_request : ToolUseBlock :=
  {| id := "t1"; name := "accents"; input := JDict [] |}.

Definition accented : AgentOptions :=
  {| tools :=
       [{| tool_name := "accents";
           description := "Many accents";
           input_schema := JDict [("type", JStr "object")];
           handler :=
             Some {| function_str := "__main__.accents()";
                     invoke := fun _ => ReturnsStr (accents 501) |} |}];
     can_use_tool := None; max_turns := None; opt_hooks := None; stream := true |}.

Definition new_client : Client :=
  {| _connected := false;
     state := {| _messages := []; provider_calls := 0; handler_calls := [] |};
     _pending_response := None |}.

Definition connected_client : Client :=
  {| _connected := true;
     state := {| _messages := [System "Be brief."]; provider_calls := 0; handler_calls := [] |};
     _pending_response := None |}.

End Fixtures.

(** ** providers/openai.py: formatting and parsing *)

Module OpenAIFormat.
Import Types.

(** A dictionary literal, in the order the source writes its keys. *)
Definition dict : Type := list (string * json).

(** The vendor's completion object, as far as [parse_response] reads
    it. *)
Record Function := {
  function_name : string;
  function_arguments : string;
}.

Record MessageToolCall := {
  call_id : string;
  call_function : Function;
}.

Record ChatCompletionMessage := {
  message_content : option string;
  message_tool_calls : option (list MessageToolCall);
}.

Record CompletionChoice := {
  choice_message : ChatCompletionMessage;
  completion_finish_reason : option string;
}.

Record ChatCompletion := {
  completion_choices : list CompletionChoice;
  completion_model : option string;
}.

Definition _format_content_blocks (blocks : list ContentBlock) : list dict :=
  omap (fun block =>
          match block with
          | TextBlock text => Some [("type", JStr "text"); ("text", JStr text)]
          | ImageBlock source _ =>
              (* both branches of the test on the [data:] prefix build
                 the same dictionary *)
              Some [("type", JStr "image_url");
                    ("image_url", JDict [("url", JStr source)])]
          | _ => None
          end) blocks.

Definition _format_user_message (content : string + list ContentBlock) : dict :=
  match content with
  | inl text => [("role", JStr "user"); ("content", JStr text)]
  | inr blocks =>
      [("role", JStr "user");
       ("content", JList (map JDict (_format_content_blocks blocks)))]
  end.

Section Format.
(** [json.dumps] *)
Context (dumps : json -> string).

(** The entry of [tool_calls] built for a tool use. *)
Definition tool_call (block : ToolUseBlock) : json :=
  JDict [("id", JStr (id block));
         ("type", JStr "function");
         ("function",
          JDict [("name", JStr (name block));
                 ("arguments", JStr (dumps (input block)))])].

(** The loop of [_format_assistant_message]: the text collected and the
    tool calls built so far. *)
Definition on_block (acc : string * list json) (block : ContentBlock)
  : string * list json :=
  match block with
  | TextBlock text => (acc.1 +:+ text, acc.2)
  | ToolUse b => (acc.1, acc.2 ++ [tool_call b])
  | _ => acc
  end.

Definition _format_assistant_message (message : AssistantMessage) : dict :=
  let '(text_content, tool_calls) := fold_left on_block (content message) ("", []) in
  [("role", JStr "assistant")]
  ++ (if negb (String.eqb text_content "") then [("content", JStr text_content)] else [])
  ++ (if negb (Nat.eqb (length tool_calls) 0) then [("tool_calls", JList tool_calls)] else []).

Definition format_message (msg : Message) : dict :=
  match msg with
  | System content => [("role", JStr "system"); ("content", JStr content)]
  | User content => _format_user_message content
  | Assistant m => _format_assistant_message m
  | Tool m =>
      [("role", JStr "tool");
       ("content", JStr (tool_content m));
       ("tool_call_id", JStr (tool_call_id m))]
  end.

Definition format_messages (messages : list Message) : list dict :=
  map format_message messages.

End Format.

Definition format_tools (tools : list ToolDefinition) : list dict :=
  map (fun tool =>
         [("type", JStr "function");
          ("function",
           JDict [("name", JStr (tool_name tool));
                  ("description", JStr (description tool));
                  ("parameters", input_schema tool)])]) tools.

Section Parse.
(** [json.loads]; [None] stands for [JSONDecodeError]. *)
Context (loads : string -> option json).

(** The [ToolUseBlock] built for one tool call; [None] when
    [json.loads] raises. *)
Definition parse_tool_call (tool_call : MessageToolCall) : option ContentBlock :=
  input ← loads (function_arguments (call_function tool_call));
  Some (ToolUse {| id := call_id tool_call;
                   name := function_name (call_function tool_call);
                   input := input |}).

(** [parse_response]. [None] is an exception: IndexError when
    [choices] is empty, JSONDecodeError when the arguments of a tool
    call do not parse. *)
Definition parse_response (response : ChatCompletion) : option AssistantMessage :=
  match completion_choices response with
  | [] => None
  | choice :: _ =>
      let message := choice_message choice in
      let text_blocks :=
        if truthy_str (message_content message)
        then [TextBlock (OpenAI.or_empty (message_content message))]
        else [] in
      tool_blocks ←
        match message_tool_calls message with
        | Some tool_calls => mapM parse_tool_call tool_calls
        | None => Some []
        end;
      Some {| content := text_blocks ++ tool_blocks;
              model := completion_model response;
              finish_reason := OpenAI._map_finish_reason (completion_finish_reason choice) |}
  end.

End Parse.

End OpenAIFormat.

(** ** providers/claude.py: formatting and parsing *)

Module ClaudeFormat.
Import Types.

Definition dict : Type := list (string * json).

(** [source.split(",", 1)[1]]: what follows the first comma, when there
    is one. *)
Fixpoint after_comma (s : string) : option string :=
  match s with
  | EmptyString => None
  | String c rest =>
      if Ascii.eqb c (Ascii.ascii_of_nat 44) then Some rest else after_comma rest
  end.

Definition format_block (block : ContentBlock) : dict :=
  match block with
  | TextBlock text => [("type", JStr "text"); ("text", JStr text)]
  | ImageBlock source media_type =>
      if String.prefix "data:" source then
        [("type", JStr "image");
         ("source",
          JDict [("type", JStr "base64");
                 ("media_type", JStr media_type);
                 ("data", JStr (default source (after_comma source)))])]
      else
        [("type", JStr "image");
         ("source", JDict [("type", JStr "url"); ("url", JStr source)])]
  | ToolUse b =>
      [("type", JStr "tool_use");
       ("id", JStr (id b));
       ("name", JStr (name b));
       ("input", input b)]
  | ToolResultBlock tool_use_id content is_error =>
      [("type", JStr "tool_result");
       ("tool_use_id", JStr tool_use_id);
       ("content", Client.json_of_str content);
       ("is_error", JBool is_error)]
  | ThinkingBlock thinking signature =>
      [("type", JStr "thinking"); ("thinking", JStr thinking)]
      ++ (if truthy_str signature
          then [("signature", JStr (OpenAI.or_empty signature))]
          else [])
  end.

Definition _format_content_blocks (blocks : list ContentBlock) : list dict :=
  map format_block blocks.

Definition _format_user_message (content : string + list ContentBlock) : dict :=
  match content with
  | inl text => [("role", JStr "user"); ("content", JStr text)]
  | inr blocks =>
      [("role", JStr "user");
       ("content", JList (map JDict (_format_content_blocks blocks)))]
  end.

Definition _format_assistant_message (message : AssistantMessage) : dict :=
  [("role", JStr "assistant");
   ("content", JList (map JDict (_format_content_blocks (content message))))].

(** The body of the loop of [format_messages]: the system prompt and
    the formatted messages so far. *)
Definition on_message (acc : option string * list dict) (msg : Message)
  : option string * list dict :=
  match msg with
  | System content => (Some content, acc.2)
  | User content => (acc.1, acc.2 ++ [_format_user_message content])
  | Assistant m => (acc.1, acc.2 ++ [_format_assistant_message m])
  | Tool m =>
      (acc.1,
       acc.2 ++ [[("role", JStr "user");
                  ("content",
                   JList [JDict [("type", JStr "tool_result");
                                 ("tool_use_id", JStr (tool_call_id m));
                                 ("content", JStr (tool_content m))]])]])
  end.

Definition format_messages (messages : list Message) : option string * list dict :=
  fold_left on_message messages (None, []).

Definition format_tools (tools : list ToolDefinition) : list dict :=
  map (fun tool =>
         [("name", JStr (tool_name tool));
          ("description", JStr (description tool));
          ("input_schema", input_schema tool)]) tools.

(** The [system] entry of the request [complete] and [stream] build:
    [options.system_prompt or system_prompt], when one of the two is
    truthy. *)
Definition request_system (options_system_prompt : option string)
    (messages : list Message) : option string :=
  let system_prompt := (format_messages messages).1 in
  if truthy_str system_prompt || truthy_str options_system_prompt then
    if truthy_str options_system_prompt then options_system_prompt else system_prompt
  else None.

(** The vendor's response object, as far as [parse_response] reads it.
    A content block is an object whose attributes are the entries of a
    dictionary. *)
Record RawResponse := {
  response_content : list dict;
  response_model : string;
  response_stop_reason : option string;
}.

(** An attribute that holds a string. [None] is an exception
    (AttributeError when the attribute is missing) or a value that is
    not of the type the dataclass declares. *)
Definition str_attr (name : string) (block : dict) : option string :=
  match get name block with
  | Some (JStr s) => Some s
  | _ => None
  end.

(** [getattr(block, "signature", None)] *)
Definition signature_attr (block : dict) : option (option string) :=
  match get "signature" block with
  | None => Some None
  | Some JNull => Some None
  | Some (JStr s) => Some (Some s)
  | Some _ => None
  end.

(** The body of the loop of [parse_response]: [Some None] is a block
    that is skipped. *)
Definition parse_block (block : dict) : option (option ContentBlock) :=
  type ← str_attr "type" block;
  if String.eqb type "text" then
    text ← str_attr "text" block; Some (Some (TextBlock text))
  else if String.eqb type "tool_use" then
    id ← str_attr "id" block;
    name ← str_attr "name" block;
    input ← get "input" block;
    Some (Some (ToolUse {| id := id; name := name; input := input |}))
  else if String.eqb type "thinking" then
    thinking ← str_attr "thinking" block;
    signature ← signature_attr block;
    Some (Some (ThinkingBlock thinking signature))
  else Some None.

Definition parse_response (response : RawResponse) : option AssistantMessage :=
  blocks ← mapM parse_block (response_content response);
  Some {| content := omap (fun b => b) blocks;
          model := Some (response_model response);
          finish_reason := Claude._map_stop_reason (response_stop_reason response) |}.

End ClaudeFormat.

(** ** Properties of the two dialects, stated over the embedding *)

Module FormatSpec.
Import Types.

(** *** Anthropic dialect *)

(** A vendor response whose content is the content of a formatted
    assistant message. *)
Definition claude_echo (formatted : ClaudeFormat.dict) (model : string)
    (stop_reason : option string) : ClaudeFormat.RawResponse :=
  {| ClaudeFormat.response_content :=
       match get "content" formatted with
       | Some (JList blocks) =>
           omap (fun b => match b with JDict d => Some d | _ => None end) blocks
       | _ => []
       end;
     ClaudeFormat.response_model := model;
     ClaudeFormat.response_stop_reason := stop_reason |}.

(** What comes back of a block after formatting and parsing. *)
Definition returned (block : ContentBlock) : option ContentBlock :=
  match block with
  | TextBlock text => Some (TextBlock text)
  | ToolUse b => Some (ToolUse b)
  | ThinkingBlock thinking signature =>
      Some (ThinkingBlock thinking (if truthy_str signature then signature else None))
  | ImageBlock _ _ => None
  | ToolResultBlock _ _ _ => None
  end.

(** The blocks the specification says round-trip: text, tool use, and
    thinking with its signature. *)
Definition round_trippable (block : ContentBlock) : Prop :=
  match block with
  | TextBlock _ => True
  | ToolUse _ => True
  | ThinkingBlock _ signature => truthy_str signature = true
  | _ => False
  end.

(** The content of the last SystemMessage. *)
Definition last_system (messages : list Message) : option string :=
  last (omap (fun m => match m with System c => Some c | _ => None end) messages).

(** The role under which a message that is not a SystemMessage is
    sent. *)
Definition claude_role (m : Message) : option json :=
  match m with
  | User _ => Some (JStr "user")
  | Assistant _ => Some (JStr "assistant")
  | Tool _ => Some (JStr "user")
  | System _ => None
  end.

(** *** OpenAI dialect *)

(** A vendor completion whose message is a formatted assistant
    message. *)
Definition call_of (j : json) : option OpenAIFormat.MessageToolCall :=
  match j with
  | JDict d =>
      match get "id" d, get "function" d with
      | Some (JStr i), Some (JDict f) =>
          match get "name" f, get "arguments" f with
          | Some (JStr n), Some (JStr a) =>
              Some {| OpenAIFormat.call_id := i;
                      OpenAIFormat.call_function :=
                        {| OpenAIFormat.function_name := n;
                           OpenAIFormat.function_arguments := a |} |}
          | _, _ => None
          end
      | _, _ => None
      end
  | _ => None
  end.

Definition openai_echo (formatted : OpenAIFormat.dict) (model : option string)
    (finish_reason : option string) : OpenAIFormat.ChatCompletion :=
  {| OpenAIFormat.completion_choices :=
       [{| OpenAIFormat.choice_message :=
             {| OpenAIFormat.message_content :=
                  match get "content" formatted with
                  | Some (JStr s) => Some s
                  | _ => None
                  end;
                OpenAIFormat.message_tool_calls :=
                  match get "tool_calls" formatted with
                  | Some (JList calls) => Some (omap call_of calls)
                  | _ => None
                  end |};
           OpenAIFormat.completion_finish_reason := finish_reason |}];
     OpenAIFormat.completion_model := model |}.

(** The ids of the tool calls an entry of the request lists. *)
Definition tool_call_ids (entry : OpenAIFormat.dict) : list string :=
  match get "tool_calls" entry with
  | Some (JList calls) =>
      omap (fun c =>
              match c with
              | JDict d => match get "id" d with Some (JStr i) => Some i | _ => None end
              | _ => None
              end) calls
  | _ => []
  end.

(** The string an entry holds under a key. *)
Definition str_at (key : string) (entry : OpenAIFormat.dict) : option string :=
  match get key entry with
  | Some (JStr s) => Some s
  | _ => None
  end.

(** The vendor's rule for tool messages, on the formatted history:
    every entry of role [tool] answers, in order, one of the tool calls
    of the entry of another role that precedes it. [open] holds the
    ids of the calls not answered yet. With [complete] set, no call may
    be left unanswered. *)
Fixpoint answered (complete : bool) (open : list string) (entries : list OpenAIFormat.dict)
  : bool :=
  match entries with
  | [] => negb complete || Nat.eqb (length open) 0
  | entry :: rest =>
      if bool_decide (str_at "role" entry = Some "tool") then
        match open with
        | i :: open =>
            bool_decide (str_at "tool_call_id" entry = Some i)
            && answered complete open rest
        | [] => false
        end
      else
        (negb complete || Nat.eqb (length open) 0)
        && answered complete (tool_call_ids entry) rest
  end.

End FormatSpec.

(** ** examples/docker/api: the routes that use the session manager *)

Module Api.
Import SessionManager.

(** [AgentSession.add_message]. [timestamp] and [now] are the two
    clock readings it takes, for the entry and for [touch]; the entry's
    timestamp is kept as the reading, not as its ISO rendering. *)
Definition add_message (role content : string) (timestamp now : Z) (s : AgentSession)
  : AgentSession :=
  {| session_id := SessionManager.session_id s;
     agent_id := agent_id s;
     config_id := config_id s;
     config_name := config_name s;
     api_key := api_key s;
     container_info := container_info s;
     status := status s;
     created_at := created_at s;
     last_activity := now;
     message_count := S (message_count s);
     conversation_history := conversation_history s ++ [(role, content, timestamp)] |}.

(** [AgentSession.touch] *)
Definition touched (now : Z) (s : AgentSession) : AgentSession :=
  {| session_id := SessionManager.session_id s;
     agent_id := agent_id s;
     config_id := config_id s;
     config_name := config_name s;
     api_key := api_key s;
     container_info := container_info s;
     status := status s;
     created_at := created_at s;
     last_activity := now;
     message_count := message_count s;
     conversation_history := conversation_history s |}.

(** [session.container_info = container_info] *)
Definition set_container_info (info : gmap string string) (s : AgentSession) : AgentSession :=
  {| session_id := SessionManager.session_id s;
     agent_id := agent_id s;
     config_id := config_id s;
     config_name := config_name s;
     api_key := api_key s;
     container_info := info;
     status := status s;
     created_at := created_at s;
     last_activity := last_activity s;
     message_count := message_count s;
     conversation_history := conversation_history s |}.

(** A change made to a session object: the session manager's map holds
    the same object. *)
Definition update (session_id : string) (f : AgentSession -> AgentSession)
    (self : SessionManager) : SessionManager :=
  {| sessions := alter f session_id (sessions self);
     inserted := inserted self;
     insertions := insertions self;
     _container_manager := _container_manager self;
     stop_calls := stop_calls self |}.

Inductive Response :=
| Launched (session_id agent_id : string) (config_id : option string) (created_at : Z)
| Stopped (session_id : string)
| HTTPException (status_code : Z) (detail : string).

(** The two [except] clauses of [launch_agent]. *)
Definition launch_error (e : Types.Exception) : Response :=
  if String.eqb (Types.error_type e) "FileNotFoundError"
  then HTTPException 404 (Types.error e)
  else HTTPException 500 (Types.error e).

(** [launch_agent]. [loaded] is what loading the configuration comes
    to (its string entries, or the exception raised), [created] what
    [create_agent_container] comes to; [now] and [now'] are the two
    clock readings of [create_session]. *)
Definition launch_agent (loaded : gmap string string + Types.Exception)
    (uuid1 uuid2 : string) (now now' : Z) (api_key : string)
    (created : gmap string string + Types.Exception) (self : SessionManager)
  : Response * SessionManager :=
  match loaded with
  | inr e => (launch_error e, self)
  | inl config =>
      let config_id := config !! "id" in
      let config_name := default "Agent" (config !! "name") in
      let '(session, self) :=
        create_session uuid1 uuid2 now now' api_key config_id config_name ∅ self in
      match created with
      | inr e => (launch_error e, self)
      | inl container_info =>
          (Launched (SessionManager.session_id session) (agent_id session) config_id
             (created_at session),
           update (SessionManager.session_id session) (set_container_info container_info)
             self)
      end
  end.

(** [stop_session] *)
Definition stop_session (session_id : string) (self : SessionManager)
  : Response * SessionManager :=
  match get_session session_id self with
  | inr _ => (HTTPException 404 "Session not found", self)
  | inl _ => (Stopped session_id, cleanup_session session_id self)
  end.

Section Chat.
(** [container_manager.execute_query]: the lines the container streams
    back for a handle, a message and a history, and the exception that
    ends the stream, if any. *)
Context (execute_query :
           gmap string string -> string -> list (string * string * Z) ->
           list string * option Types.Exception).

(** [stream_response]: the strings it yields, and the manager
    afterwards. [timestamp] and [now] are the clock readings of
    [add_message], [later] that of the final [touch]. *)
Definition stream_response (timestamp now later : Z) (session_id message : string)
    (self : SessionManager) : list string * SessionManager :=
  match get_session session_id self with
  | inr _ =>
      (["data: {'error': 'Session not found'}" +:+ Client.newline +:+ Client.newline], self)
  | inl session =>
      let session := add_message "user" message timestamp now session in
      let self := update session_id (add_message "user" message timestamp now) self in
      let history := conversation_history session in
      let '(lines, exn) :=
        execute_query (container_info session) message
          (take (length history - 1) history) in
      let yielded := map (fun line => line +:+ Client.newline) lines in
      match exn with
      | None => (yielded, touch session_id later self)
      | Some e =>
          (yielded
           ++ ["data: {'error': '" +:+ Types.error e +:+ "'}"
               +:+ Client.newline +:+ Client.newline],
           self)
      end
  end.

(** What reaches the session manager while the server runs. *)
Inductive Request :=
| Launch (loaded : gmap string string + Types.Exception) (uuid1 uuid2 : string)
    (now now' : Z) (api_key : string) (created : gmap string string + Types.Exception)
| Chat (session_id message : string) (timestamp now later : Z)
| StopSession (session_id : string)
| Evict (timeout now : Z)
| Shutdown.

Definition serve (request : Request) (self : SessionManager) : SessionManager :=
  match request with
  | Launch loaded uuid1 uuid2 now now' api_key created =>
      (launch_agent loaded uuid1 uuid2 now now' api_key created self).2
  | Chat session_id message timestamp now later =>
      (stream_response timestamp now later session_id message self).2
  | StopSession session_id => (stop_session session_id self).2
  | Evict timeout now => _cleanup_idle_sessions timeout now self
  | Shutdown => stop self
  end.

Definition serve_all (requests : list Request) (self : SessionManager) : SessionManager :=
  fold_left (fun m request => serve request m) requests self.

End Chat.

(** The manager [main.py] starts with: no session, the container
    manager attached. *)
Definition started (cm : ContainerManager) : SessionManager :=
  set_container_manager cm SessionManager.__init__.

End Api.

(** ** Properties of the session layer, stated over the embedding *)

Module ApiSpec.
Import SessionManager Api.

(** A session is idle when its last activity is more than [timeout]
    before [now]. *)
Definition idle (timeout now : Z) (s : AgentSession) : bool :=
  (timeout <? now - last_activity s)%Z.

(** The clock reading after a request, when the readings the request
    takes do not go back in time. *)
Definition advance (t : Z) (request : Request) : option Z :=
  match request with
  | Launch _ _ _ now now' _ _ =>
      if (t <=? now)%Z && (now <=? now')%Z then Some now' else None
  | Chat _ _ timestamp now later =>
      if (t <=? timestamp)%Z && (timestamp <=? now)%Z && (now <=? later)%Z
      then Some later else None
  | StopSession _ => Some t
  | Evict _ now => if (t <=? now)%Z then Some now else None
  | Shutdown => Some t
  end.

Fixpoint chronological (t : Z) (requests : list Request) : option Z :=
  match requests with
  | [] => Some t
  | request :: rest =>
      match advance t request with
      | Some t => chronological t rest
      | None => None
      end
  end.

(** What holds of every session in the map. *)
Definition well_kept (sid : string) (s : AgentSession) : Prop :=
  SessionManager.session_id s = sid
  ∧ message_count s = length (conversation_history s)
  ∧ Forall (fun entry => entry.1.1 = "user") (conversation_history s).

End ApiSpec.

(** ** Concrete runs of the session layer *)

Module ApiFixtures.
Import SessionManager Api.

(** A container that answers every query with one line. *)
Definition echo_query (info : gmap string string) (message : string)
    (history : list (string * string * Z)) : list string * option Types.Exception :=
  (["data: " +:+ message], None).

(** A launch at time 100 to 101, a chat at time 110 to 112, an eviction
    pass at time 200. *)
Definition one_day : list Request :=
  [Launch (inl {[ "id" := "default"; "name" := "Default Agent" ]})
     "0123456789abcdef" "fedcba9876543210" 100 101 "key"
     (inl {[ "container_id" := "c1" ]});
   Chat "sess-0123456789ab" "hello" 110 111 112;
   Evict 1800 200].

(** A launch during which the clock is set back, between the two
    readings that creating the session takes. *)
Definition clock_set_back : list Request :=
  [Launch (inl {[ "id" := "default"; "name" := "Default Agent" ]})
     "0123456789abcdef" "fedcba9876543210" 101 100 "key"
     (inl {[ "container_id" := "c1" ]})].

End ApiFixtures.

(** ** config.py: setting and validating *)

Module ConfigApi.
Import Config.

(** [set], for a provider name already in lower case. *)
Definition set (provider key value : string) (self : Config) : Config :=
  {| secret_fetcher := secret_fetcher self;
     _overrides :=
       <[provider := <[key := value]> (get_dict (_overrides self) provider)]>
         (_overrides self) |}.

(** [set_api_key] *)
Definition set_api_key (provider api_key : string) (self : Config) : Config :=
  set provider "api_key" api_key self.

(** [from_dict] *)
Definition from_dict (config_dict : gmap string (gmap string string)) : Config :=
  {| secret_fetcher := None; _overrides := config_dict |}.

Section Validation.
(** [os.environ] *)
Context (environ : gmap string string).

Definition get_api_key (self : Config) (provider : string) : option string :=
  _get_value environ self provider "api_key".

(** [validate], for a provider name already in lower case. *)
Definition validate (self : Config) (provider : string) : list string :=
  let missing :=
    if bool_decide (provider ∈ ["claude"; "anthropic"; "openai"; "gemini"])
       && negb (Types.truthy_str (get_api_key self provider))
    then ["api_key"] else [] in
  if String.eqb provider "azure_openai" then
    let missing :=
      if negb (Types.truthy_str (get_api_key self provider))
      then missing ++ ["api_key"] else missing in
    let config := get_provider_config environ self provider in
    if negb (Types.truthy_str (config !! "azure_endpoint"))
    then missing ++ ["azure_endpoint"] else missing
  else missing.

Definition is_configured (self : Config) (provider : string) : bool :=
  Nat.eqb (length (validate self provider)) 0.

(** [list_configured_providers]: the keys of [PROVIDER_ENV_VARS], in
    the order the source lists them, that are configured. *)
Definition list_configured_providers (self : Config) : list string :=
  List.filter (is_configured self)
    ["claude"; "anthropic"; "openai"; "azure_openai"; "gemini"; "ollama"].

End Validation.

End ConfigApi.

(** ** Concrete configurations *)

Module ConfigFixtures.

(** A configuration that sets the Azure key and endpoint under the keys
    [config.py] knows. *)
Definition azure_set : Config.Config :=
  ConfigApi.set "azure_openai" "azure_endpoint" "https://example.openai.azure.com"
    (ConfigApi.set_api_key "azure_openai" "k" Scenarios.no_overrides).

(** The same, with the endpoint also under the key the provider
    reads. *)
Definition azure_ready : Config.Config :=
  ConfigApi.set "azure_openai" "base_url" "https://example.openai.azure.com" azure_set.

End ConfigFixtures.

(** ** query.py: the one-shot query with tools *)

Module Query.
Import Types Client.

(** A [ToolResultBlock] as [_query_with_tools] collects them. *)
Record ToolResult := {
  result_tool_use_id : string;
  result_content : option string;
  result_is_error : bool;
}.

Section Query.
Context (options : AgentOptions).
(** [options.session_id] *)
Context (session_id : option string).
(** [json.dumps] *)
Context (dumps : json -> string).
Context (provider : BaseProvider).

(** The permission callback, called when it is set. The call stands
    outside the [try] of the loop body: an exception it raises ([inr])
    leaves the query. *)
Definition ask_permission (tool_use : ToolUseBlock) : option (PermissionResult + Exception) :=
  match can_use_tool options with
  | Some callback =>
      Some (callback (name tool_use) (input tool_use) {| perm_session_id := session_id |})
  | None => None
  end.

(** The body of [for tool_use in tool_uses]: the result appended to
    [tool_results], or the exception that leaves the loop. The state
    records the handler calls. *)
Definition execute_tool (tool_use : ToolUseBlock) (st : State)
  : (ToolResult + Exception) * State :=
  match ask_permission tool_use with
  | Some (inr e) => (inr e, st)
  | Some (inl (PermissionResultDeny message _)) =>
      (inl {| result_tool_use_id := id tool_use;
              result_content := Some ("Permission denied: " +:+ message);
              result_is_error := true |}, st)
  | _ =>
      match find_tool options tool_use ≫= handler with
      | None =>
          (inl {| result_tool_use_id := id tool_use;
                  result_content :=
                    Some ("Tool '" +:+ name tool_use +:+ "' not found or has no handler");
                  result_is_error := true |}, st)
      | Some h =>
          let '(outcome, st) := call_handler h (name tool_use) (input tool_use) st in
          match stringify dumps outcome with
          | inl content =>
              (inl {| result_tool_use_id := id tool_use;
                      result_content := Some content;
                      result_is_error := false |}, st)
          | inr e =>
              (inl {| result_tool_use_id := id tool_use;
                      result_content := Some ("Error executing tool: " +:+ error e);
                      result_is_error := true |}, st)
          end
      end
  end.

(** The [for tool_use in tool_uses] loop: the list [tool_results] it
    builds, or the exception that leaves it. *)
Fixpoint execute_tools (tool_uses : list ToolUseBlock) (st : State)
  : (list ToolResult + Exception) * State :=
  match tool_uses with
  | [] => (inl [], st)
  | tool_use :: rest =>
      match execute_tool tool_use st with
      | (inr e, st) => (inr e, st)
      | (inl result, st) =>
          match execute_tools rest st with
          | (inr e, st) => (inr e, st)
          | (inl results, st) => (inl (result :: results), st)
          end
      end
  end.

(** The loop that turns the tool results into tool messages. The
    content of a result is a string or [None] here. *)
Definition to_tool_message (result : ToolResult) : Message :=
  tool_message (OpenAI.or_empty (result_content result)) (result_tool_use_id result).

Definition append_all (ms : list Message) (st : State) : State :=
  fold_left (fun st m => append m st) ms st.

(** [ResultMessage(is_error=False, num_turns=turns)] *)
Definition result_message (turns : Z) : AnyMessage :=
  AResult {| is_error := false;
             num_turns := turns;
             Types.session_id := None;
             usage := None;
             result_finish_reason := None |}.

(** The statement after the [while] loop. *)
Definition after_loop (max_turns turns : Z) : list AnyMessage :=
  if (max_turns <=? turns)%Z then [result_message turns] else [].

(** The last AssistantMessage among what a provider stream yielded. *)
Definition last_assistant (msgs : list AnyMessage) : option AssistantMessage :=
  fold_left
    (fun response msg =>
       match isinstance_AssistantMessage msg with
       | Some a => Some a
       | None => response
       end) msgs None.

(** The [while turns < max_turns] loop of [_query_with_tools], with the
    statement that follows it. [fuel] bounds the iterations. *)
Fixpoint query_loop (fuel : nat) (max_turns turns : Z) (st : State) : option Generated :=
  if (turns <? max_turns)%Z then
    match fuel with
    | O => None
    | S fuel =>
        let turns := (turns + 1)%Z in
        let called :=
          if stream options then
            let '(msgs, exn) :=
              provider_stream provider (provider_calls st) (_messages st) in
            (msgs, match exn with Some e => inr e | None => inl (last_assistant msgs) end)
          else
            match provider_complete provider (provider_calls st) (_messages st) with
            | inl response => ([AMessage (Assistant response)], inl (Some response))
            | inr e => ([], inr e)
            end in
        let st := count_provider_call st in
        match called with
        | (msgs, inr e) => Some {| yielded := msgs; raised := Some e; after := st |}
        | (msgs, inl None) =>
            Some {| yielded := msgs ++ after_loop max_turns turns;
                    raised := None; after := st |}
        | (msgs, inl (Some response)) =>
            match tool_uses_of response with
            | [] =>
                Some {| yielded :=
                          msgs
                          ++ (if negb (stream options) then [result_message turns] else [])
                          ++ after_loop max_turns turns;
                        raised := None; after := st |}
            | tool_uses =>
                let st := append (Assistant response) st in
                match execute_tools tool_uses st with
                | (inr e, st) => Some {| yielded := msgs; raised := Some e; after := st |}
                | (inl tool_results, st) =>
                    let st := append_all (map to_tool_message tool_results) st in
                    prepend msgs <$> query_loop fuel max_turns turns st
                end
            end
        end
    end
  else Some {| yielded := after_loop max_turns turns; raised := None; after := st |}.

Definition _query_with_tools (st : State) : option Generated :=
  let max_turns := effective_max_turns options in
  query_loop (Z.to_nat max_turns) max_turns 0 st.

End Query.

End Query.

(** ** Properties of the one-shot query, stated over the embedding *)

Module QuerySpec.
Import Types Client.

(** How many ResultMessages a sequence holds. *)
Definition results_in (msgs : list AnyMessage) : nat :=
  length (List.filter isinstance_ResultMessage msgs).

(** A turn of the one-shot query that the permission callback left by
    raising for one of its tool uses: the assistant message is in the
    list, and no tool message follows it. *)
Definition left_unanswered (options : AgentOptions) (session_id : option string)
    (response : AssistantMessage) (results : list ToolMessage) : Prop :=
  results = []
  ∧ ∃ tool_use e,
      tool_use ∈ tool_uses_of response
      ∧ Spec.permission_raises options session_id tool_use e.

(** The options with another streaming mode. *)
Definition set_stream (b : bool) (options : AgentOptions) : AgentOptions :=
  {| tools := tools options;
     can_use_tool := can_use_tool options;
     max_turns := max_turns options;
     opt_hooks := opt_hooks options;
     stream := b |}.

End QuerySpec.

(** ** examples/docker/container/agent_server.py: the SSE translation *)

Module AgentServer.
Import Types.

Definition dict : Type := list (string * json).

(** [delta.get(key, default)] *)
Definition get_or (key : string) (default : json) (delta : dict) : json :=
  match get key delta with
  | Some v => v
  | None => default
  end.

(** [delta.get(key) == value] for a string [value]. *)
Definition holds (key value : string) (delta : dict) : bool :=
  match get key delta with
  | Some (JStr s) => String.eqb s value
  | _ => false
  end.

Section Server.
(** [json.dumps] *)
Context (dumps : json -> string).

(** An SSE line: [data: ] and the JSON document, closed by an empty
    line. *)
Definition sse (payload : dict) : string :=
  "data: " +:+ dumps (JDict payload) +:+ Client.newline +:+ Client.newline.

(** The branch of the loop of [stream_query] for a StreamEvent: the
    lines it yields. [timestamp] is the clock reading the branch takes.
    The buffers the branch keeps are written and never read. *)
Definition on_stream_event (timestamp : string) (msg : StreamEvent) : list string :=
  let event_type := event_type msg in
  (* msg.delta or {} *)
  let delta := default [] (delta msg) in
  if String.eqb event_type "tool_execution_start" then
    [sse [("type", JStr "tool_start");
          ("tool_name", get_or "tool_name" (JStr "unknown") delta);
          ("tool_use_id", get_or "tool_use_id" (JStr "") delta);
          ("tool_input", get_or "tool_input" (JDict []) delta);
          ("status", JStr "started");
          ("timestamp", JStr timestamp)]]
  else if String.eqb event_type "tool_execution_complete" then
    if holds "type" "tool_execution_error" delta then
      [sse [("type", JStr "tool_error");
            ("tool_name", get_or "tool_name" (JStr "unknown") delta);
            ("tool_use_id", get_or "tool_use_id" (JStr "") delta);
            ("error", get_or "error" JNull delta);
            ("status", JStr "error");
            ("duration_ms", get_or "duration_ms" JNull delta);
            ("timestamp", JStr timestamp)]]
    else
      [sse [("type", JStr "tool_complete");
            ("tool_name", get_or "tool_name" (JStr "unknown") delta);
            ("tool_use_id", get_or "tool_use_id" (JStr "") delta);
            ("output", get_or "output" JNull delta);
            ("status", JStr "completed");
            ("duration_ms", get_or "duration_ms" JNull delta);
            ("timestamp", JStr timestamp)]]
  else if String.eqb event_type "content_block_start" then []
  else if String.eqb event_type "content_block_delta" then
    if holds "type" "thinking_delta" delta then
      [sse [("type", JStr "thinking");
            ("content", get_or "thinking" (JStr "") delta);
            ("timestamp", JStr timestamp)]]
    else if holds "type" "signature_delta" delta then []
    else if holds "type" "input_json_delta" delta then []
    else if holds "type" "text_delta" delta then
      [sse [("type", JStr "stream");
            ("event_type", JStr "text_delta");
            ("delta", JDict [("type", JStr "text");
                             ("text", get_or "text" (JStr "") delta)]);
            ("timestamp", JStr timestamp)]]
    else []
  else if String.eqb event_type "content_block_stop" then []
  else
    [sse ([("type", JStr "stream");
           ("event_type", JStr event_type);
           ("timestamp", JStr timestamp)]
          ++ (if negb (Nat.eqb (length delta) 0) then [("delta", JDict delta)] else []))].

(** The branch for an AssistantMessage: the text of the blocks that
    have a [text] attribute, the TextBlocks. *)
Definition on_assistant_message (timestamp : string) (msg : AssistantMessage)
  : list string :=
  [sse [("type", JStr "message");
        ("role", JStr "assistant");
        ("content", JStr (StreamSpec.message_text (content msg)));
        ("timestamp", JStr timestamp)]].

(** The body of [async for msg in client.receive()]. *)
Definition on_message (timestamp : string) (msg : AnyMessage) : list string :=
  match msg with
  | AEvent e => on_stream_event timestamp e
  | AMessage (Assistant m) => on_assistant_message timestamp m
  | _ => []
  end.

End Server.

End AgentServer.

(** * Proofs *)

(** ** The hook pipeline *)

Module HookProofs.
Import Types Client Spec.

Lemma run_hooks_fold m hs input_data tool_use_id context combined :
  run_hooks m hs input_data tool_use_id context combined =
  (foldl (fun c o => o ∪ c) combined (hook_outputs m hs input_data tool_use_id context).1,
   (hook_outputs m hs input_data tool_use_id context).2).
Proof.
  revert combined. induction hs as [|hook rest IH]; intros combined; simpl; [done|].
  destruct (await_hook m (hook input_data tool_use_id context)) as [output|e];
    try apply IH.
  destruct (Nat.eqb (size output) 0); [apply IH|].
  destruct (continue_is_False output); [done|].
  rewrite IH. by destruct (hook_outputs m rest input_data tool_use_id context).
Qed.

Lemma run_matchers_fold ms input_data tool_use_id tool_name context combined :
  run_matchers ms input_data tool_use_id tool_name context combined =
  foldl (fun c o => o ∪ c) combined
    (matcher_outputs ms input_data tool_use_id tool_name context).
Proof.
  revert combined. induction ms as [|m rest IH]; intros combined; simpl; [done|].
  destruct (skips m tool_name); [apply IH|].
  rewrite run_hooks_fold.
  destruct (hook_outputs m (hooks m) input_data tool_use_id context) as [outs [|]]; simpl.
  - done.
  - by rewrite IH, foldl_app.
Qed.

Lemma fold_union_lookup key (outs : list (gmap string HookField)) combined :
  foldl (fun c o => o ∪ c) combined outs !! key =
  foldl (fun found output =>
           match output !! key with
           | Some v => Some v
           | None => found
           end) (combined !! key) outs.
Proof.
  revert combined. induction outs as [|o outs IH]; intros combined; simpl; [done|].
  rewrite IH. f_equal. rewrite lookup_union.
  destruct (o !! key), (combined !! key); done.
Qed.

Lemma last_setting_unset key (outs : list (gmap string HookField)) found :
  Forall (fun o => o !! key = None) outs ->
  foldl (fun found output =>
           match output !! key with
           | Some v => Some v
           | None => found
           end) found outs = found.
Proof.
  revert found. induction outs as [|o outs IH]; intros found Hall; simpl; [done|].
  apply Forall_cons in Hall as [Ho Hall]. rewrite Ho. by apply IH.
Qed.

(** C4, as amended: the merged output of an event is the left-to-right
    fold of the outputs of the hooks that ran, a later output replacing
    earlier values key by key; so every key, [hookSpecificOutput] with
    its permission decision included, holds what the last output that
    has the key gave it, and a deny is kept exactly as long as no later
    output carries a [hookSpecificOutput]. *)
Theorem hooks_merge_last_wins options _session_id event input_data tool_use_id tool_name :
  let outs := executed_outputs options _session_id event input_data tool_use_id tool_name in
  let merged := _execute_hooks options _session_id event input_data tool_use_id tool_name in
  merged = merge_outputs outs
  ∧ (∀ key, merged !! key = last_setting key outs)
  ∧ (∀ before output after,
       outs = before ++ output :: after ->
       is_Some (output !! "hookSpecificOutput") ->
       Forall (fun o => o !! "hookSpecificOutput" = None) after ->
       get_hookSpecificOutput merged = get_hookSpecificOutput output).
Proof.
  intros outs merged.
  assert (Hfold : merged = merge_outputs outs).
  { unfold merged, outs, _execute_hooks, executed_outputs, merge_outputs.
    destruct (opt_hooks options) as [hs|]; simpl; [|done].
    destruct (Nat.eqb (size hs) 0) eqn:Hsz.
    - apply Nat.eqb_eq, map_size_empty_iff in Hsz. subst hs.
      by rewrite lookup_empty.
    - destruct (hs !! event) as [matchers|]; [|done].
      apply run_matchers_fold. }
  assert (Hkey : ∀ key, merged !! key = last_setting key outs).
  { intros key. rewrite Hfold. unfold merge_outputs, last_setting.
    rewrite fold_union_lookup. by rewrite lookup_empty. }
  split; [done|]. split; [done|].
  intros before output after Houts [v Hv] Hafter.
  unfold get_hookSpecificOutput. rewrite Hkey, Houts. unfold last_setting.
  rewrite foldl_app. simpl. rewrite Hv.
  by rewrite last_setting_unset.
Qed.

(** C4, as stated, fails: a hook that denies followed by a hook that
    allows leaves the merged decision at allow. *)
Lemma deny_overridden_by_allow :
  let input_data := PreToolUseHookInput "sess" "add" (JDict []) in
  (∃ output,
     result (Scenarios.deny_hook input_data (Some "t1")
               {| ctx_session_id := "sess"; ctx_tool_use_id := Some "t1" |})
     = Returns output
     ∧ specific_get (get_hookSpecificOutput output) "permissionDecision" = Some "deny")
  ∧ specific_get
      (get_hookSpecificOutput
         (_execute_hooks Scenarios.deny_then_allow "sess" "PreToolUse" input_data
            (Some "t1") (Some "add")))
      "permissionDecision" = Some "allow".
Proof.
  split.
  - eexists. split; [reflexivity|]. vm_compute. reflexivity.
  - vm_compute. reflexivity.
Qed.

End HookProofs.

(** ** Tool execution and the agent loops *)

Module LoopProofs.
Import Types Client Spec.

Section ToolFacts.
Context (options : AgentOptions) (_session_id : string) (dumps : json -> string).

Lemma call_handler_state h name tool_input st outcome st' :
  call_handler h name tool_input st = (outcome, st') ->
  _messages st' = _messages st ∧ provider_calls st' = provider_calls st.
Proof.
  unfold call_handler. destruct tool_input; intros [= <- <-]; done.
Qed.

Lemma ask_permission_raises tool_use decision e :
  ask_permission options _session_id tool_use decision = Some (inr e) ->
  permission_raises options (Some _session_id) tool_use e.
Proof.
  unfold ask_permission, permission_raises.
  destruct (can_use_tool options) as [callback|]; [|done].
  destruct (negb (truthy_str decision)); [|done].
  intros [= H]. by exists callback.
Qed.

(** One tool use appends at most one tool message, carrying the id of
    the block: exactly one when the loop goes on to the next tool use;
    otherwise the run ends at this tool use, stopped by a hook or left
    by an exception of the permission callback. *)
Lemma execute_tool_with_events_history tool_use st events outcome st' :
  execute_tool_with_events options _session_id dumps tool_use st = (events, outcome, st') ->
  provider_calls st' = provider_calls st
  ∧ match outcome with
    | inl true =>
        pre_stops options _session_id tool_use = false
        ∧ ∃ content, _messages st' = _messages st ++ [tool_message content (id tool_use)]
    | inl false =>
        ∃ last, _messages st' = _messages st ++ map Tool last
                ∧ StoppedAt options _session_id tool_use None last
    | inr e =>
        _messages st' = _messages st
        ∧ StoppedAt options _session_id tool_use (Some e) []
    end.
Proof.
  unfold execute_tool_with_events. intros H.
  destruct (continue_is_False
              (_execute_hooks options _session_id "PreToolUse"
                 (PreToolUseHookInput _session_id (name tool_use) (input tool_use))
                 (Some (id tool_use)) (Some (name tool_use)))) eqn:Hpre.
  { simplify_eq. split; [done|]. exists []. simpl. rewrite app_nil_r.
    split; [done|]. by constructor. }
  repeat match type of H with
         | context [call_handler ?h ?n ?i ?s] =>
             let E := fresh "Hcall" in
             destruct (call_handler h n i s) as [? ?] eqn:E;
             apply call_handler_state in E as [? ?]
         | context [match ?x with _ => _ end] => destruct x eqn:?
         end;
    simplify_eq; simpl; (split; [congruence|]).
  all: try (split; [exact Hpre|]; eexists; simpl;
            try match goal with H : _messages _ = _messages _ |- _ => rewrite H end;
            reflexivity).
  all: try (split; [done|]; constructor; [exact Hpre|by eapply ask_permission_raises]).
  all: refine (ex_intro _ [Build_ToolMessage _ (id tool_use)] _); simpl;
    (split; [f_equal; congruence|]); constructor; [exact Hpre|done|]; simpl;
    eexists; eassumption.
Qed.

(** The non-streaming executor is the streaming one without its
    events. *)
Lemma execute_tool_erases_events tool_use st :
  execute_tool options _session_id dumps tool_use st =
  ((execute_tool_with_events options _session_id dumps tool_use st).1.2,
   (execute_tool_with_events options _session_id dumps tool_use st).2).
Proof.
  unfold execute_tool, execute_tool_with_events.
  repeat match goal with
         | |- context [call_handler ?h ?n ?i ?s] =>
             destruct (call_handler h n i s) as [? ?]
         | |- context [match ?x with _ => _ end] => destruct x eqn:?
         end; reflexivity.
Qed.

Lemma should_continue_of_events (events : list StreamEvent) more b :
  fold_left (fun sc (ev : StreamEvent + bool) =>
               match ev with inl _ => sc | inr b => b end)
    (map inl events ++ more) b =
  fold_left (fun sc (ev : StreamEvent + bool) =>
               match ev with inl _ => sc | inr b => b end) more b.
Proof. induction events; simpl; auto. Qed.

Lemma _execute_tools_erases_events tool_uses st :
  _execute_tools options _session_id dumps tool_uses st =
  return_value (_execute_tools_with_events options _session_id dumps tool_uses st).
Proof.
  revert st. induction tool_uses as [|tool_use rest IH]; intros st; simpl; [done|].
  rewrite execute_tool_erases_events.
  destruct (execute_tool_with_events options _session_id dumps tool_use st)
    as [[events [[|]|e]] st1]; simpl.
  - rewrite IH.
    destruct (_execute_tools_with_events options _session_id dumps rest st1)
      as [[more exn] st2]; unfold return_value; simpl.
    unfold should_continue_of. by rewrite should_continue_of_events.
  - unfold return_value, should_continue_of. simpl. by rewrite should_continue_of_events.
  - done.
Qed.

(** A run over the tool uses of one assistant message appends tool
    messages for a prefix of them, in order: for all of them when the
    run says to continue; otherwise it ended at one of them. *)
Lemma _execute_tools_with_events_history tool_uses st :
  ∃ results : list ToolMessage,
    let out := _execute_tools_with_events options _session_id dumps tool_uses st in
    _messages out.2 = _messages st ++ map Tool results
    ∧ provider_calls out.2 = provider_calls st
    ∧ map tool_call_id results `prefix_of` map id tool_uses
    ∧ match return_value out with
      | (inl true, _) =>
          map tool_call_id results = map id tool_uses
          ∧ Forall (fun tool_use => pre_stops options _session_id tool_use = false) tool_uses
      | (inl false, _) => EndedAt options _session_id tool_uses None results
      | (inr e, _) => EndedAt options _session_id tool_uses (Some e) results
      end.
Proof.
  revert st. induction tool_uses as [|tool_use rest IH]; intros st; simpl.
  { exists []. simpl. by rewrite app_nil_r. }
  destruct (execute_tool_with_events options _session_id dumps tool_use st)
    as [[events outcome] st1] eqn:Hstep.
  apply execute_tool_with_events_history in Hstep as (Hcalls & Hstep).
  destruct outcome as [[|]|e].
  - destruct Hstep as [Hpre [content Hmsgs]].
    destruct (IH st1) as (results & Hm & Hc & Hp & Hall).
    destruct (_execute_tools_with_events options _session_id dumps rest st1)
      as [[more exn] st2]; unfold return_value in *; simpl in *.
    exists ({| tool_content := content; tool_call_id := id tool_use |} :: results).
    simpl. rewrite Hm, Hmsgs, <- app_assoc. simpl. split; [done|].
    split; [congruence|]. split; [by apply prefix_cons|].
    unfold should_continue_of in *. rewrite should_continue_of_events.
    assert (∀ exn',
              EndedAt options _session_id rest exn' results ->
              EndedAt options _session_id (tool_use :: rest) exn'
                ({| tool_content := content; tool_call_id := id tool_use |} :: results))
      as Hext.
    { intros exn' (before & tool_use' & after & first & last & -> & -> & Hids & Hbefore & Hat).
      exists (tool_use :: before), tool_use', after,
        ({| tool_content := content; tool_call_id := id tool_use |} :: first), last.
      simpl. rewrite Hids. repeat split; try done. by constructor. }
    destruct exn as [e|]; [by apply Hext|].
    destruct (fold_left _ more true); [|by apply Hext].
    destruct Hall as [Hall Hnone]. split; [by f_equal|by constructor].
  - destruct Hstep as (last & Hmsgs & Hat).
    exists last. unfold return_value, should_continue_of. simpl.
    rewrite should_continue_of_events. simpl.
    split; [done|]. split; [done|].
    split.
    + inversion Hat; subst; simpl; [apply prefix_nil|].
      match goal with H : tool_call_id _ = _ |- _ => rewrite H end.
      apply prefix_cons, prefix_nil.
    + exists [], tool_use, rest, [], last. repeat split; done.
  - destruct Hstep as (Hmsgs & Hat).
    exists []. unfold return_value. simpl. rewrite app_nil_r.
    split; [done|]. split; [done|]. split; [apply prefix_nil|].
    exists [], tool_use, rest, [], []. repeat split; done.
Qed.

End ToolFacts.

Section LoopFacts.
Context (options : AgentOptions) (_session_id : string) (dumps : json -> string).
Context (provider : BaseProvider).

Abbreviation is_result := (fun m => isinstance_ResultMessage m = true).
Abbreviation results_carry t :=
  (Forall (fun m => isinstance_ResultMessage m = true -> m = result_message _session_id t)).

Lemma passed_no_result (msgs : list AnyMessage) t :
  results_carry t (List.filter (fun msg => negb (isinstance_ResultMessage msg)) msgs).
Proof.
  apply Forall_forall. intros m Hm%list_elem_of_In%filter_In Hr.
  destruct Hm as [_ Hm]. rewrite Hr in Hm. done.
Qed.

Lemma forwarded_no_result (events : list (StreamEvent + bool)) t :
  results_carry t (forwarded_events events).
Proof.
  apply Forall_forall. intros m Hm Hr. unfold forwarded_events in Hm.
  apply list_elem_of_omap in Hm as ([e|b] & _ & Hm); simplify_eq.
Qed.

Lemma after_loop_carry max_turns t : results_carry t (after_loop _session_id max_turns t).
Proof. unfold after_loop. case_match; repeat constructor. Qed.

Lemma after_loop_exhausted max_turns t :
  (max_turns ≤ t)%Z -> Exists is_result (after_loop _session_id max_turns t).
Proof.
  intros H. unfold after_loop. destruct (Z.leb_spec max_turns t); [|lia].
  by constructor.
Qed.

Lemma result_carry t : results_carry t [result_message _session_id t].
Proof. by repeat constructor. Qed.

Lemma ended_at_may_raise tool_uses e results :
  EndedAt options _session_id tool_uses (Some e) results -> may_raise options provider e.
Proof.
  intros (before & tool_use & after & first & last & _ & _ & _ & _ & Hat).
  inversion Hat as [| |e' _ (callback & Hcb & Hraise)]; subst.
  right; right. by exists callback, (name tool_use), (input tool_use),
    {| perm_session_id := Some _session_id |}.
Qed.

Lemma stream_loop_inv fuel max_turns turns st :
  (max_turns - turns ≤ Z.of_nat fuel)%Z ->
  ∃ g, stream_loop options _session_id dumps provider fuel max_turns turns st = Some g
       ∧ LoopInv options _session_id provider
           (∀ n h, last_response (provider_stream provider n h).1 ≠ None)
           max_turns turns st g.
Proof.
  revert turns st. induction fuel as [|fuel IH]; intros turns st Hfuel.
  all: cbn [stream_loop]; destruct (Z.ltb_spec turns max_turns) as [Hlt|Hge]; try lia.
  1,3: eexists; split; [done|]; exists 0%nat, []; cbn;
       rewrite Z.add_0_r, app_nil_r, Nat.add_0_r;
       repeat split; try done; try lia;
       [apply after_loop_carry | intros; by apply after_loop_exhausted
       | intros; by apply after_loop_exhausted | constructor].
  destruct (provider_stream provider (provider_calls st) (_messages st))
    as [msgs exn] eqn:Hcall.
  destruct exn as [e|].
  { eexists; split; [done|]. exists 1%nat, []. cbn. rewrite app_nil_r.
    repeat split; try done; try lia; [apply passed_no_result|constructor|].
    intros e' [= <-]. left. exists (provider_calls st), (_messages st). by rewrite Hcall. }
  destruct (last_response msgs) as [response|] eqn:Hresp.
  2:{ eexists; split; [done|]. exists 1%nat, []. cbn. rewrite app_nil_r.
      repeat split; try done; try lia.
      - apply Forall_app; split; [apply passed_no_result|apply after_loop_carry].
      - intros _ H. apply Exists_app. right. by apply after_loop_exhausted.
      - intros _ H. specialize (H (provider_calls st) (_messages st)).
        rewrite Hcall in H. done.
      - constructor. }
  destruct (tool_uses_of response) as [|tool_use rest] eqn:Htools.
  { eexists; split; [done|]. exists 1%nat, []. cbn. rewrite app_nil_r.
    repeat split; try done; try lia.
    - apply Forall_app; split; [apply passed_no_result|].
      apply Forall_cons; split; [done|apply after_loop_carry].
    - intros _ _. apply Exists_app. right. by constructor.
    - intros _ _. apply Exists_app. right. by constructor.
    - constructor. }
  rewrite <- Htools.
  destruct (_execute_tools_with_events_history options _session_id dumps
              (tool_uses_of response)
              (append (Assistant response) (count_provider_call st)))
    as (results & Hm & Hc & Hp & Hret).
  destruct (_execute_tools_with_events options _session_id dumps
              (tool_uses_of response)
              (append (Assistant response) (count_provider_call st)))
    as [[events exn] st2]; unfold return_value in Hret; cbn in Hm, Hc, Hp;
    cbn [fst snd] in Hret.
  destruct exn as [e|]; cbv beta iota in Hret.
  { eexists; split; [done|].
    exists 1%nat, (Assistant response :: map Tool results). cbn.
    repeat split; try done; try lia.
    - apply Forall_app; split; [apply passed_no_result|apply forwarded_no_result].
    - rewrite Hm. cbn. by rewrite <- !app_assoc.
    - apply Covered_cut. by exists (Some e).
    - intros e' [= <-]. by eapply ended_at_may_raise. }
  destruct (should_continue_of events) eqn:Hsc; cbv beta iota in Hret.
  - destruct (IH (turns + 1)%Z st2)
      as (g & Hg & calls & suffix & I1 & I2 & I3 & I4 & I5 & I6 & I7 & I8 & I9); [lia|].
    rewrite Hg. eexists; split; [done|].
    exists (S calls), (Assistant response :: map Tool results ++ suffix). cbn.
    repeat split; try lia.
    + apply Forall_app; split.
      * apply Forall_app; split; [apply passed_no_result|apply forwarded_no_result].
      * replace (turns + Z.of_nat (S calls))%Z with (turns + 1 + Z.of_nat calls)%Z by lia.
        done.
    + intros Hr Hb. apply Exists_app. right. apply I5; [done|lia].
    + intros Hr Hb. apply Exists_app. right. by apply I6.
    + rewrite I7, Hm. cbn. by rewrite <- !app_assoc.
    + destruct Hret as [Hall Hnone]. by constructor.
    + done.
  - eexists; split; [done|].
    exists 1%nat, (Assistant response :: map Tool results). cbn.
    repeat split; try done; try lia.
    + apply Forall_app; split; [apply passed_no_result|].
      apply Forall_app; split; [apply forwarded_no_result|].
      apply Forall_cons; split; [done|apply after_loop_carry].
    + intros _ _. apply Exists_app. right. apply Exists_app. right. by constructor.
    + intros _ _. apply Exists_app. right. apply Exists_app. right. by constructor.
    + rewrite Hm. cbn. by rewrite <- !app_assoc.
    + apply Covered_cut. by exists None.
Qed.

Lemma complete_loop_inv fuel max_turns turns st :
  (max_turns - turns ≤ Z.of_nat fuel)%Z ->
  ∃ g, complete_loop options _session_id dumps provider fuel max_turns turns st = Some g
       ∧ LoopInv options _session_id provider True max_turns turns st g.
Proof.
  revert turns st. induction fuel as [|fuel IH]; intros turns st Hfuel.
  all: cbn [complete_loop]; destruct (Z.ltb_spec turns max_turns) as [Hlt|Hge]; try lia.
  1,3: eexists; split; [done|]; exists 0%nat, []; cbn;
       rewrite Z.add_0_r, app_nil_r, Nat.add_0_r;
       repeat split; try done; try lia;
       [apply after_loop_carry | intros; by apply after_loop_exhausted
       | intros; by apply after_loop_exhausted | constructor].
  destruct (provider_complete provider (provider_calls st) (_messages st))
    as [response|e] eqn:Hcall.
  2:{ eexists; split; [done|]. exists 1%nat, []. cbn. rewrite app_nil_r.
      repeat split; try done; try lia; try (by constructor).
      intros e' [= <-]. right; left.
      by exists (provider_calls st), (_messages st). }
  destruct (tool_uses_of response) as [|tool_use rest] eqn:Htools.
  { eexists; split; [done|]. exists 1%nat, []. cbn. rewrite app_nil_r.
    repeat split; try done; try lia.
    - apply Forall_cons; split; [done|].
      apply Forall_cons; split; [done|apply after_loop_carry].
    - intros _ _. apply Exists_cons. right. by constructor.
    - intros _ _. apply Exists_cons. right. by constructor.
    - constructor. }
  rewrite <- Htools. rewrite _execute_tools_erases_events.
  destruct (_execute_tools_with_events_history options _session_id dumps
              (tool_uses_of response)
              (append (Assistant response) (count_provider_call st)))
    as (results & Hm & Hc & Hp & Hret).
  destruct (_execute_tools_with_events options _session_id dumps
              (tool_uses_of response)
              (append (Assistant response) (count_provider_call st)))
    as [[events exn] st2]; unfold return_value in *; cbn in Hm, Hc, Hp;
    cbn [fst snd] in *.
  destruct exn as [e|]; cbv beta iota in Hret.
  { eexists; split; [done|].
    exists 1%nat, (Assistant response :: map Tool results). cbn.
    repeat split; try done; try lia.
    - by repeat constructor.
    - rewrite Hm. cbn. by rewrite <- !app_assoc.
    - apply Covered_cut. by exists (Some e).
    - intros e' [= <-]. by eapply ended_at_may_raise. }
  destruct (should_continue_of events) eqn:Hsc; cbv beta iota in Hret.
  - destruct (IH (turns + 1)%Z st2)
      as (g & Hg & calls & suffix & I1 & I2 & I3 & I4 & I5 & I6 & I7 & I8 & I9); [lia|].
    rewrite Hg. eexists; split; [done|].
    exists (S calls), (Assistant response :: map Tool results ++ suffix). cbn.
    repeat split; try lia.
    + apply Forall_cons; split; [done|].
      replace (turns + Z.of_nat (S calls))%Z with (turns + 1 + Z.of_nat calls)%Z by lia.
      done.
    + intros Hr Hb. apply Exists_cons. right. apply I5; [done|lia].
    + intros Hr Hb. apply Exists_cons. right. by apply I6.
    + rewrite I7, Hm. cbn. by rewrite <- !app_assoc.
    + destruct Hret as [Hall Hnone]. by constructor.
    + done.
  - eexists; split; [done|].
    exists 1%nat, (Assistant response :: map Tool results). cbn.
    repeat split; try done; try lia.
    + apply Forall_cons; split; [done|].
      apply Forall_cons; split; [done|apply after_loop_carry].
    + intros _ _. apply Exists_cons. right. by constructor.
    + intros _ _. apply Exists_cons. right. by constructor.
    + rewrite Hm. cbn. by rewrite <- !app_assoc.
    + apply Covered_cut. by exists None.
Qed.

End LoopFacts.

Lemma until_result_last msgs i m :
  (until_result msgs).1 !! i = Some m ->
  isinstance_ResultMessage m = true ->
  S i = length (until_result msgs).1.
Proof.
  revert i. induction msgs as [|msg rest IH]; intros i; simpl; [done|].
  destruct (isinstance_ResultMessage msg) eqn:Hmsg.
  - destruct i; simpl; [done|]. by rewrite lookup_nil.
  - destruct (until_result rest) as [more found]. simpl in *.
    destruct i as [|i]; simpl.
    + intros [= ->] Hm. congruence.
    + intros Hi Hm. f_equal. by apply IH.
Qed.

Lemma until_result_found msgs :
  Exists (fun m => isinstance_ResultMessage m = true) msgs ->
  ∃ front res,
    until_result msgs = (front ++ [AResult res], true) ∧ AResult res ∈ msgs.
Proof.
  induction msgs as [|msg rest IH]; intros H; [by apply Exists_nil in H|].
  simpl. destruct (isinstance_ResultMessage msg) eqn:Hmsg.
  - destruct msg as [| res |]; try done. exists [], res. split; [done|]. by left.
  - apply Exists_cons in H as [H|H]; [congruence|].
    destruct (IH H) as (front & res & -> & Hin).
    exists (msg :: front), res. split; [done|]. by right.
Qed.

Lemma until_result_not_found msgs :
  (until_result msgs).2 = false -> (until_result msgs).1 = msgs.
Proof.
  induction msgs as [|msg rest IH]; simpl; [done|].
  destruct (isinstance_ResultMessage msg); [done|].
  destruct (until_result rest) as [more found]; simpl in *.
  intros ->. by rewrite IH.
Qed.

Section ReceiveFacts.
Context (options : AgentOptions) (_session_id : string) (dumps : json -> string).
Context (provider : BaseProvider).

(** Every pending generator runs to its end, and keeps the loop
    guarantees. *)
Lemma run_pending_inv p st :
  ∃ g, run_pending options _session_id dumps provider p st = Some g
       ∧ (p = Finished -> g = {| yielded := []; raised := None; after := st |})
       ∧ (p ≠ Finished ->
          LoopInv options _session_id provider
            (p = CompleteWithTools
             ∨ ∀ n h, last_response (provider_stream provider n h).1 ≠ None)
            (effective_max_turns options) 0 st g).
Proof.
  destruct p; simpl.
  - destruct (stream_loop_inv options _session_id dumps provider
                (Z.to_nat (effective_max_turns options)) (effective_max_turns options) 0 st)
      as (g & Hg & calls & suffix & I); [lia|].
    exists g. split; [done|]. split; [done|]. intros _.
    exists calls, suffix. destruct I as (?&?&?&?&?&I6&?&?&?).
    repeat split; try done. intros Hr [?|Hp]; [done|]. by apply I6.
  - destruct (complete_loop_inv options _session_id dumps provider
                (Z.to_nat (effective_max_turns options)) (effective_max_turns options) 0 st)
      as (g & Hg & calls & suffix & I); [lia|].
    exists g. split; [done|]. split; [done|]. intros _.
    exists calls, suffix. destruct I as (?&?&?&?&?&I6&?&?&?).
    repeat split; try done. intros Hr _. by apply I6.
  - eexists. split; [done|]. split; [done|]. done.
Qed.

End ReceiveFacts.

Lemma until_result_true msgs out :
  until_result msgs = (out, true) ->
  Exists (fun m => isinstance_ResultMessage m = true) msgs.
Proof.
  revert out. induction msgs as [|x l IH]; simpl; intros out; [done|].
  destruct (isinstance_ResultMessage x) eqn:Hx; [by left|].
  destruct (until_result l) as [more f]. intros [= <- ->]. right. by eapply IH.
Qed.






(** C3: with [max_turns = N] (a positive [N], or 10 when unset) one
    [receive] makes at most [N] provider calls, and when it has made
    all [N] without the provider raising, it ends with a ResultMessage
    that has [is_error = false] and [num_turns = N]. *)
Theorem turn_bound options _session_id dumps provider c p N :
  (max_turns options = Some N ∧ (0 < N)%Z) ∨ (max_turns options = None ∧ N = 10%Z) ->
  _pending_response c = Some p -> p ≠ Finished ->
  ∃ r, receive options _session_id dumps provider c = Some r
    ∧ (provider_calls (state (client r)) ≤ provider_calls (state c) + Z.to_nat N)%nat
    ∧ (receive_raised r = None ->
       provider_calls (state (client r)) = (provider_calls (state c) + Z.to_nat N)%nat ->
       ∃ front res,
         received r = front ++ [AResult res]
         ∧ is_error res = false ∧ num_turns res = N).
Proof.
  intros HN Hp Hne.
  assert (effective_max_turns options = N ∧ (0 < N)%Z) as [HeqN Hpos].
  { unfold effective_max_turns.
    destruct HN as [[-> ?]|[-> ->]]; [|done].
    destruct (Z.eqb_spec N 0); [lia|done]. }
  unfold receive. rewrite Hp.
  destruct (run_pending_inv options _session_id dumps provider p (state c))
    as (g & -> & _ & Hinv).
  destruct (Hinv Hne) as (calls & suffix & I1 & I2 & _ & I4 & I5 & _).
  rewrite HeqN in *.
  simpl. destruct (until_result (yielded g)) as [msgs found] eqn:Hu.
  eexists. split; [done|]. simpl. split; [lia|].
  intros Hr Hcalls.
  assert (Exists (fun m => isinstance_ResultMessage m = true) (yielded g)) as Hex.
  { destruct found; [by eapply until_result_true|]. apply I5; [done|lia]. }
  apply until_result_found in Hex as (front & res & Hf & Hin).
  rewrite Hu in Hf. simplify_eq. exists front, res. split; [done|].
  rewrite Forall_forall in I4. specialize (I4 _ Hin eq_refl).
  unfold result_message in I4. simplify_eq. simpl. split; [done|lia].
Qed.


Lemma turn_bound_witness :
  ∃ r, receive Scenarios.two_turns "sess" Scenarios.dumps Scenarios.always_add
         Scenarios.streaming = Some r
    ∧ (provider_calls (state (client r))
       ≤ provider_calls (state Scenarios.streaming) + Z.to_nat 2)%nat
    ∧ (receive_raised r = None ->
       provider_calls (state (client r))
       = (provider_calls (state Scenarios.streaming) + Z.to_nat 2)%nat ->
       ∃ front res,
         received r = front ++ [AResult res]
         ∧ is_error res = false ∧ num_turns res = 2%Z).
Proof.
  apply (turn_bound Scenarios.two_turns "sess" Scenarios.dumps Scenarios.always_add
           Scenarios.streaming StreamWithTools 2).
  - left. split; [reflexivity|lia].
  - reflexivity.
  - discriminate.
Defined.

(** C10: with [max_turns] unset or 0 the bound is 10: both loops run
    exactly as with [max_turns = 10], and in particular call the
    provider at least once. *)
Theorem zero_max_turns_means_ten options _session_id dumps provider st :
  max_turns options = None ∨ max_turns options = Some 0%Z ->
  effective_max_turns options = 10%Z
  ∧ _stream_with_tools options _session_id dumps provider st =
    _stream_with_tools (set_max_turns (Some 10%Z) options) _session_id dumps provider st
  ∧ _complete_with_tools options _session_id dumps provider st =
    _complete_with_tools (set_max_turns (Some 10%Z) options) _session_id dumps provider st
  ∧ (∃ g, _stream_with_tools options _session_id dumps provider st = Some g
          ∧ (provider_calls st < provider_calls (after g))%nat)
  ∧ (∃ g, _complete_with_tools options _session_id dumps provider st = Some g
          ∧ (provider_calls st < provider_calls (after g))%nat).
Proof.
  intros H.
  assert (effective_max_turns options = 10%Z) as Heff.
  { unfold effective_max_turns. by destruct H as [->| ->]. }
  split; [done|].
  unfold _stream_with_tools, _complete_with_tools. rewrite Heff.
  change (effective_max_turns (set_max_turns (Some 10%Z) options)) with 10%Z.
  split; [reflexivity|]. split; [reflexivity|].
  split.
  - destruct (stream_loop_inv options _session_id dumps provider (Z.to_nat 10) 10 0 st)
      as (g & Hg & calls & suffix & I1 & _ & I3 & _); [lia|].
    exists g. split; [done|]. specialize (I3 ltac:(lia)). lia.
  - destruct (complete_loop_inv options _session_id dumps provider (Z.to_nat 10) 10 0 st)
      as (g & Hg & calls & suffix & I1 & _ & I3 & _); [lia|].
    exists g. split; [done|]. specialize (I3 ltac:(lia)). lia.
Qed.


Lemma zero_max_turns_means_ten_witness :
  effective_max_turns Scenarios.zero_turns = 10%Z
  ∧ _stream_with_tools Scenarios.zero_turns "sess" Scenarios.dumps Scenarios.always_add
      Scenarios.fresh
    = _stream_with_tools (set_max_turns (Some 10%Z) Scenarios.zero_turns) "sess"
        Scenarios.dumps Scenarios.always_add Scenarios.fresh
  ∧ _complete_with_tools Scenarios.zero_turns "sess" Scenarios.dumps Scenarios.always_add
      Scenarios.fresh
    = _complete_with_tools (set_max_turns (Some 10%Z) Scenarios.zero_turns) "sess"
        Scenarios.dumps Scenarios.always_add Scenarios.fresh
  ∧ (∃ g, _stream_with_tools Scenarios.zero_turns "sess" Scenarios.dumps
            Scenarios.always_add Scenarios.fresh = Some g
          ∧ (provider_calls Scenarios.fresh < provider_calls (after g))%nat)
  ∧ (∃ g, _complete_with_tools Scenarios.zero_turns "sess" Scenarios.dumps
            Scenarios.always_add Scenarios.fresh = Some g
          ∧ (provider_calls Scenarios.fresh < provider_calls (after g))%nat).
Proof.
  apply (zero_max_turns_means_ten Scenarios.zero_turns "sess" Scenarios.dumps
           Scenarios.always_add Scenarios.fresh).
  right. reflexivity.
Defined.

(** The end-to-end scenarios of the specification, run on the model. *)

Example s1_plain_text :
  received <$> receive Scenarios.three_turns "sess" Scenarios.dumps
                 {| provider_stream := fun _ _ =>
                      ([AMessage (Assistant (Scenarios.assistant [TextBlock "hi"] STOP));
                        Scenarios.provider_result STOP], None);
                    provider_complete := fun _ _ =>
                      inl (Scenarios.assistant [TextBlock "hi"] STOP) |}
                 Scenarios.streaming
  = Some [AMessage (Assistant (Scenarios.assistant [TextBlock "hi"] STOP));
          result_message "sess" 1].
Proof. vm_compute. reflexivity. Qed.

Example s2_single_tool_call :
  ∃ r, receive Scenarios.two_turns "sess" Scenarios.dumps Scenarios.add_then_text
         Scenarios.streaming = Some r
    ∧ received r =
      [AMessage (Assistant (Scenarios.assistant [ToolUse Scenarios.add_request] TOOL_USE));
       AEvent (tool_execution_start Scenarios.add_request);
       AEvent (tool_execution_complete Scenarios.add_request "5");
       AMessage (Assistant (Scenarios.assistant [TextBlock "5"] STOP));
       result_message "sess" 2]
    ∧ _messages (state (client r)) =
      [User (inl "go");
       Assistant (Scenarios.assistant [ToolUse Scenarios.add_request] TOOL_USE);
       tool_message "5" "t1"].
Proof. eexists. split; [vm_compute; reflexivity|]. split; reflexivity. Qed.

Example s3_permission_denial :
  ∃ r, receive Scenarios.denying "sess" Scenarios.dumps Scenarios.add_then_text
         Scenarios.streaming = Some r
    ∧ received r =
      [AMessage (Assistant (Scenarios.assistant [ToolUse Scenarios.add_request] TOOL_USE));
       AEvent (tool_execution_start Scenarios.add_request);
       AEvent (tool_execution_error Scenarios.add_request
                 (Some "Permission denied: not allowed"));
       AMessage (Assistant (Scenarios.assistant [TextBlock "5"] STOP));
       result_message "sess" 2]
    ∧ _messages (state (client r)) =
      [User (inl "go");
       Assistant (Scenarios.assistant [ToolUse Scenarios.add_request] TOOL_USE);
       tool_message "Permission denied: not allowed" "t1"]
    ∧ handler_calls (state (client r)) = [].
Proof. eexists. split; [vm_compute; reflexivity|]. repeat split. Qed.

Example s4_hook_modifies_input :
  ∃ r, receive Scenarios.rewriting "sess" Scenarios.dumps Scenarios.writes_once
         Scenarios.streaming = Some r
    ∧ handler_calls (state (client r)) = [("write_file", Scenarios.redirected_input)]
    ∧ _messages (state (client r)) =
      [User (inl "go");
       Assistant (Scenarios.assistant [ToolUse Scenarios.write_request] TOOL_USE);
       tool_message "written" "t1"].
Proof. eexists. split; [vm_compute; reflexivity|]. split; reflexivity. Qed.

Example s5_max_turns_exhausted :
  ∃ r, receive Scenarios.two_turns "sess" Scenarios.dumps Scenarios.always_add
         Scenarios.streaming = Some r
    ∧ last (received r) = Some (result_message "sess" 2)
    ∧ receive_raised r = None
    ∧ provider_calls (state (client r)) = 2%nat.
Proof. eexists. split; [vm_compute; reflexivity|]. repeat split. Qed.

(** A permission callback that raises ends [receive] with its
    exception, after the start event of the tool use: no ResultMessage
    is yielded, and the assistant message stays in the history without
    its tool message. *)
Example callback_exception_leaves_receive :
  ∃ r, receive Scenarios.raising "sess" Scenarios.dumps Scenarios.add_then_text
         Scenarios.streaming = Some r
    ∧ received r =
      [AMessage (Assistant (Scenarios.assistant [ToolUse Scenarios.add_request] TOOL_USE));
       AEvent (tool_execution_start Scenarios.add_request)]
    ∧ receive_raised r = Some Scenarios.refused
    ∧ _messages (state (client r)) =
      [User (inl "go");
       Assistant (Scenarios.assistant [ToolUse Scenarios.add_request] TOOL_USE)]
    ∧ handler_calls (state (client r)) = [].
Proof. eexists. split; [vm_compute; reflexivity|]. repeat split. Qed.

(** A hook that runs past its matcher's timeout is skipped: its
    [continue_ = False] does not stop the run. *)
Example timed_out_hook_is_skipped :
  _execute_hooks Scenarios.impatient "sess" "PreToolUse"
    (PreToolUseHookInput "sess" "add" (JDict [])) (Some "t1") (Some "add") = ∅.
Proof. vm_compute. reflexivity. Qed.

(** The part of C5 that holds: with no hook decision, a Deny from the
    permission callback appends the permission-denied tool message and
    leaves the handler uncalled. *)
Lemma denied_by_callback options _session_id dumps tool_use st callback message interrupt :
  let pre :=
    _execute_hooks options _session_id "PreToolUse"
      (PreToolUseHookInput _session_id (name tool_use) (input tool_use))
      (Some (id tool_use)) (Some (name tool_use)) in
  continue_is_False pre = false ->
  specific_get (get_hookSpecificOutput pre) "permissionDecision" = None ->
  can_use_tool options = Some callback ->
  callback (name tool_use) (input tool_use) {| perm_session_id := Some _session_id |}
  = inl (PermissionResultDeny message interrupt) ->
  execute_tool_with_events options _session_id dumps tool_use st =
  ([tool_execution_start tool_use;
    tool_execution_error tool_use (Some ("Permission denied: " +:+ message))],
   inl true,
   append (tool_message ("Permission denied: " +:+ message) (id tool_use)) st).
Proof.
  intros pre Hcont Hdec Hcb Hdeny.
  unfold execute_tool_with_events. fold pre. rewrite Hcont, Hdec.
  rewrite bool_decide_eq_false_2 by done.
  unfold ask_permission. rewrite Hcb. simpl. by rewrite Hdeny.
Qed.

(** C5 on the code: the permission callback allows a write with
    [updated_input] set, and the handler is called with the input the
    model supplied. *)
Theorem updated_input_ignored :
  ∃ r, receive Scenarios.redirecting "sess" Scenarios.dumps Scenarios.writes_once
         Scenarios.streaming = Some r
    ∧ Scenarios.redirect "write_file" Scenarios.requested_input
        {| perm_session_id := Some "sess" |}
      = inl (PermissionResultAllow (Some Scenarios.redirected_input))
    ∧ handler_calls (state (client r)) = [("write_file", Scenarios.requested_input)]
    ∧ Scenarios.requested_input ≠ Scenarios.redirected_input.
Proof.
  eexists. split; [vm_compute; reflexivity|]. split; [reflexivity|].
  split; [reflexivity|]. discriminate.
Qed.

End LoopProofs.

(** ** The provider streams *)

Module StreamProofs.
Import Types StreamSpec.

Lemma append_nil_l s : "" +:+ s = s.
Proof. reflexivity. Qed.

Lemma append_cons a s t : String a s +:+ t = String a (s +:+ t).
Proof. reflexivity. Qed.

Lemma append_nil_r s : s +:+ "" = s.
Proof. induction s as [|a s IH]; [done|]. by rewrite append_cons, IH. Qed.

Lemma append_assoc a b c : (a +:+ b) +:+ c = a +:+ (b +:+ c).
Proof. induction a as [|x a IH]; [done|]. by rewrite !append_cons, IH. Qed.

Lemma join_app a b : join (a ++ b) = join a +:+ join b.
Proof.
  induction a as [|x a IH]; [done|].
  change (x +:+ join (a ++ b) = (x +:+ join a) +:+ join b).
  by rewrite IH, append_assoc.
Qed.

Lemma join_cons x a : join (x :: a) = x +:+ join a.
Proof. reflexivity. Qed.

Lemma join_nil : join [] = "".
Proof. reflexivity. Qed.

Ltac strings := rewrite ?join_cons, ?join_nil, ?append_nil_l, ?append_nil_r.

Lemma omap_app_list {A B} (f : A -> option B) (l1 l2 : list A) :
  omap f (l1 ++ l2) = omap f l1 ++ omap f l2.
Proof. apply omap_app. Qed.


Section OpenAIFacts.
Import OpenAI.

Lemma truthy_str_false o : truthy_str o = false -> or_empty o = "".
Proof.
  destruct o as [s|]; simpl; [|done].
  by destruct (String.eqb_spec s "").
Qed.

Lemma on_tool_call_args tool_call tool_calls idx :
  args_at (on_tool_call tool_call tool_calls).1 idx =
  args_at tool_calls idx
  +:+ join (omap (json_payload idx) [(on_tool_call tool_call tool_calls).2]).
Proof.
  unfold on_tool_call, args_at. cbn [fst snd].
  unfold json_payload. cbn [index delta omap list_omap].
  rewrite lookup_insert.
  destruct (decide (tc_index tool_call = idx)) as [->|Hne].
  2:{ rewrite bool_decide_eq_false_2 by congruence. cbn. by strings. }
  rewrite bool_decide_eq_true_2 by done.
  destruct (tool_calls !! idx) as [e|];
    destruct (truthy_str (tc_id tool_call));
    destruct (tc_function tool_call) as [[fname [s|]]|]; cbn;
    strings; try done.
  all: destruct (truthy_str fname); cbn; strings; try done.
  all: match goal with |- context [String.eqb ?s ""] =>
         destruct (String.eqb_spec s "") as [->|Hs]; cbn; by strings
       end.
Qed.

Lemma on_tool_call_text tool_call tool_calls :
  text_payload (on_tool_call tool_call tool_calls).2 = None.
Proof. reflexivity. Qed.

Lemma on_tool_calls_args tcs tool_calls idx :
  args_at (on_tool_calls tcs tool_calls).1 idx =
  args_at tool_calls idx
  +:+ join (omap (json_payload idx) (on_tool_calls tcs tool_calls).2).
Proof.
  revert tool_calls. induction tcs as [|tc tcs IH]; intros tool_calls; cbn [on_tool_calls].
  { cbn. by strings. }
  pose proof (on_tool_call_args tc tool_calls idx) as Hone.
  destruct (on_tool_call tc tool_calls) as [tcs1 ev]. cbn [fst snd] in Hone.
  specialize (IH tcs1).
  destruct (on_tool_calls tcs tcs1) as [tcs2 evs]. cbv beta iota. cbn [fst snd] in *.
  rewrite IH, Hone.
  change (ev :: evs) with ([ev] ++ evs).
  by rewrite omap_app, join_app, append_assoc.
Qed.

Lemma on_tool_calls_text tcs tool_calls :
  omap text_payload (on_tool_calls tcs tool_calls).2 = [].
Proof.
  revert tool_calls. induction tcs as [|tc tcs IH]; intros tool_calls;
    cbn [on_tool_calls]; [done|].
  pose proof (on_tool_call_text tc tool_calls) as Hone.
  destruct (on_tool_call tc tool_calls) as [tcs1 ev]. cbn [fst snd] in Hone.
  specialize (IH tcs1).
  destruct (on_tool_calls tcs tcs1) as [tcs2 evs]. cbv beta iota. cbn [fst snd] in *.
  cbn [omap list_omap]. by rewrite Hone.
Qed.

(** What a run over chunks adds to the accumulator is what it emits. *)
Lemma on_chunks_consistent chunks acc :
  let out := on_chunks chunks acc in
  content_text out.1 = content_text acc +:+ join (omap text_payload out.2)
  ∧ ∀ idx, args_at (tool_calls out.1) idx =
           args_at (tool_calls acc) idx +:+ join (omap (json_payload idx) out.2).
Proof.
  revert acc. induction chunks as [|chunk chunks IH]; intros acc; cbn [on_chunks].
  { cbn. split; [|intros idx]; by strings. }
  assert (content_text (on_chunk chunk acc).1 =
            content_text acc +:+ join (omap text_payload (on_chunk chunk acc).2)
          ∧ ∀ idx, args_at (tool_calls (on_chunk chunk acc).1) idx =
                   args_at (tool_calls acc) idx
                   +:+ join (omap (json_payload idx) (on_chunk chunk acc).2))
    as [Htext Hargs].
  { unfold on_chunk. destruct (choices chunk) as [|choice rest]; cbn [fst snd].
    { cbn. split; [|intros idx]; by strings. }
    assert (∀ tcs idx,
              args_at (on_tool_calls tcs (tool_calls acc)).1 idx =
              args_at (tool_calls acc) idx
              +:+ join (omap (json_payload idx) (on_tool_calls tcs (tool_calls acc)).2))
      as Ha by (intros; apply on_tool_calls_args).
    assert (∀ tcs, omap text_payload (on_tool_calls tcs (tool_calls acc)).2 = [])
      as Ht by (intros; apply on_tool_calls_text).
    destruct (delta_tool_calls (choice_delta choice)) as [tcs|].
    - specialize (Ha tcs). specialize (Ht tcs).
      destruct (on_tool_calls tcs (tool_calls acc)) as [tcs1 evs].
      cbn [fst snd] in Ha, Ht.
      destruct (delta_content (choice_delta choice)) as [s|]; cbn [truthy_str].
      + destruct (String.eqb_spec s "") as [->|Hs]; cbn [negb fst snd content_text tool_calls].
        * cbn [app]. rewrite Ht. cbn. by strings.
        * split.
          -- rewrite omap_app, Ht. cbn. by strings.
          -- intros idx. rewrite omap_app. cbn. apply Ha.
      + cbn [negb fst snd content_text tool_calls app]. rewrite Ht. cbn.
        by strings.
    - destruct (delta_content (choice_delta choice)) as [s|]; cbn [truthy_str].
      + destruct (String.eqb_spec s "") as [->|Hs]; cbn.
        * split; [|intros idx]; by strings.
        * split; [|intros idx]; by strings.
      + cbn. split; [|intros idx]; by strings. }
  destruct (on_chunk chunk acc) as [acc1 evs]. cbn [fst snd] in *.
  destruct (IH acc1) as [IHt IHa].
  destruct (on_chunks chunks acc1) as [acc2 more]. cbv beta iota. cbn [fst snd] in *.
  split.
  - by rewrite IHt, Htext, omap_app, join_app, append_assoc.
  - intros idx. by rewrite IHa, Hargs, omap_app, join_app, append_assoc.
Qed.


(** C6, as amended: the OpenAI-dialect stream has a vocabulary of its
    own. Every StreamEvent it emits is a [content_block_delta] whose
    delta type is [text], or a [tool_call_delta] whose delta type is
    [tool_call]. *)
Theorem openai_event_vocabulary (loads : string -> option json) chunks :
  Forall openai_vocabulary (events_of (OpenAI.stream loads chunks)).
Proof.
  assert (∀ tcs tool_calls, Forall openai_vocabulary (on_tool_calls tcs tool_calls).2)
    as Htools.
  { induction tcs as [|tc tcs IH]; intros tool_calls; cbn [on_tool_calls]; [constructor|].
    destruct (on_tool_call tc tool_calls) as [tcs1 ev] eqn:Hone.
    specialize (IH tcs1). destruct (on_tool_calls tcs tcs1) as [tcs2 evs].
    cbn [fst snd] in *. constructor; [|done].
    unfold on_tool_call in Hone. injection Hone as _ <-. by right. }
  assert (∀ chunk acc, Forall openai_vocabulary (on_chunk chunk acc).2) as Hchunk.
  { intros chunk acc. unfold on_chunk.
    destruct (choices chunk) as [|choice rest]; [constructor|].
    destruct (truthy_str (delta_content (choice_delta choice)));
      destruct (delta_tool_calls (choice_delta choice)) as [tcs|].
    - specialize (Htools tcs (tool_calls acc)).
      destruct (on_tool_calls tcs (tool_calls acc)) as [tcs1 evs]. cbn [fst snd] in *.
      constructor; [by left|done].
    - cbn. constructor; [by left|constructor].
    - specialize (Htools tcs (tool_calls acc)).
      by destruct (on_tool_calls tcs (tool_calls acc)) as [tcs1 evs].
    - constructor. }
  assert (∀ acc, Forall openai_vocabulary (on_chunks chunks acc).2) as Hall.
  { induction chunks as [|chunk chunks IH]; intros acc; cbn [on_chunks]; [constructor|].
    specialize (Hchunk chunk acc). destruct (on_chunk chunk acc) as [acc1 evs].
    specialize (IH acc1). destruct (on_chunks chunks acc1) as [acc2 more].
    cbn [fst snd] in *. by apply Forall_app. }
  unfold OpenAI.stream. specialize (Hall initial).
  destruct (on_chunks chunks initial) as [acc evs]. cbn [fst snd] in Hall.
  unfold events_of. rewrite omap_app. cbn. rewrite app_nil_r.
  assert (omap (fun m => match m with AEvent e => Some e | _ => None end) (map AEvent evs)
          = evs) as ->; [|done].
  clear. induction evs as [|e evs IH]; cbn; [done|]. by rewrite IH.
Qed.

(** C6, as stated, fails: a chunk with a text fragment and a tool-call
    fragment makes the stream emit two events, neither of them in the
    canonical grammar. *)
Lemma openai_events_not_canonical :
  events_of (OpenAI.stream Scenarios.loads [Scenarios.chunk]) =
  [{| event_type := "content_block_delta"; index := None;
      delta := Some [("type", JStr "text"); ("text", JStr "hi")] |};
   {| event_type := "tool_call_delta"; index := Some 0%Z;
      delta := Some [("type", JStr "tool_call"); ("id", JStr "call_1");
                     ("name", JStr "add"); ("arguments", JStr "{}")] |}]
  ∧ List.filter canonical (events_of (OpenAI.stream Scenarios.loads [Scenarios.chunk])) = [].
Proof. split; vm_compute; reflexivity. Qed.

End OpenAIFacts.

Lemma last_response_stream (evs : list StreamEvent) m r :
  Client.last_response (map AEvent evs ++ [AMessage (Assistant m); AResult r]) = Some m.
Proof.
  unfold Client.last_response. rewrite List.filter_app. cbn.
  rewrite fold_left_app. cbn. done.
Qed.

Lemma events_of_stream (evs : list StreamEvent) m r :
  events_of (map AEvent evs ++ [AMessage (Assistant m); AResult r]) = evs.
Proof.
  unfold events_of. rewrite omap_app. cbn. rewrite app_nil_r.
  induction evs as [|e evs IH]; cbn; [done|]. by rewrite IH.
Qed.


Section ClaudeFacts.
Import Claude.
Context (loads : string -> option json).

Lemma on_event_emit event acc : (on_event loads event acc).2 = emit event.
Proof.
  destruct event as [| |idx d| | | |]; try reflexivity.
  - destruct d; reflexivity.
  - unfold emit. cbn.
    destruct (negb (String.eqb (current_text acc) "")); [done|].
    destruct (current_tool_use acc); [done|].
    by destruct (negb (String.eqb (current_thinking acc) "")).
Qed.

Lemma on_events_app evs1 evs2 acc :
  on_events loads (evs1 ++ evs2) acc =
  ((on_events loads evs2 (on_events loads evs1 acc).1).1,
   (on_events loads evs1 acc).2 ++ (on_events loads evs2 (on_events loads evs1 acc).1).2).
Proof.
  revert acc. induction evs1 as [|e evs1 IH]; intros acc; cbn [on_events app].
  { cbn. by destruct (on_events loads evs2 acc). }
  destruct (on_event loads e acc) as [acc1 out1]. rewrite IH.
  destruct (on_events loads evs1 acc1) as [acc2 out2]. cbn [fst snd].
  destruct (on_events loads evs2 acc2) as [acc3 out3]. cbn [fst snd].
  by rewrite app_assoc.
Qed.

Lemma on_events_emitted evs acc :
  (on_events loads evs acc).2 = flat_map emit evs.
Proof.
  revert acc. induction evs as [|e evs IH]; intros acc; cbn [on_events flat_map]; [done|].
  pose proof (on_event_emit e acc) as He.
  destruct (on_event loads e acc) as [acc1 out1]. specialize (IH acc1).
  destruct (on_events loads evs acc1) as [acc2 out2]. cbn [fst snd] in *.
  by rewrite He, IH.
Qed.

Lemma text_deltas idx parts acc :
  let acc' :=
    (on_events loads (map (fun s => content_block_delta idx (text_delta s)) parts) acc).1 in
  content_blocks acc' = content_blocks acc
  ∧ current_text acc' = current_text acc +:+ join parts
  ∧ current_tool_use acc' = current_tool_use acc
  ∧ current_thinking acc' = current_thinking acc.
Proof.
  revert acc. induction parts as [|s parts IH]; intros acc; cbn [map on_events].
  { cbn. by strings. }
  cbn [on_event]. specialize (IH
    {| content_blocks := content_blocks acc;
       current_text := current_text acc +:+ s;
       current_tool_use := current_tool_use acc;
       current_thinking := current_thinking acc;
       current_thinking_signature := current_thinking_signature acc;
       acc_model := acc_model acc;
       acc_usage := acc_usage acc;
       acc_stop_reason := acc_stop_reason acc |}).
  cbv zeta in IH.
  match goal with |- context [on_events loads ?l ?a] =>
    destruct (on_events loads l a) as [acc2 out2] end.
  cbn [fst snd content_blocks current_text current_tool_use current_thinking] in *.
  destruct IH as (-> & -> & -> & ->). by rewrite join_cons, append_assoc.
Qed.

Lemma json_deltas idx parts acc t :
  current_tool_use acc = Some t ->
  let acc' :=
    (on_events loads (map (fun s => content_block_delta idx (input_json_delta s)) parts)
       acc).1 in
  content_blocks acc' = content_blocks acc
  ∧ current_text acc' = current_text acc
  ∧ current_tool_use acc' =
    Some {| cur_id := cur_id t; cur_name := cur_name t;
            cur_input := cur_input t +:+ join parts |}
  ∧ current_thinking acc' = current_thinking acc.
Proof.
  revert acc t. induction parts as [|s parts IH]; intros acc t Ht; cbn [map on_events].
  { cbn. strings. rewrite Ht. by destruct t. }
  cbn [on_event]. rewrite Ht.
  specialize (IH
    {| content_blocks := content_blocks acc;
       current_text := current_text acc;
       current_tool_use :=
         Some {| cur_id := cur_id t; cur_name := cur_name t;
                 cur_input := cur_input t +:+ s |};
       current_thinking := current_thinking acc;
       current_thinking_signature := current_thinking_signature acc;
       acc_model := acc_model acc;
       acc_usage := acc_usage acc;
       acc_stop_reason := acc_stop_reason acc |} _ eq_refl).
  cbv zeta in IH.
  match goal with |- context [on_events loads ?l ?a] =>
    destruct (on_events loads l a) as [acc2 out2] end.
  cbn [fst snd content_blocks current_text current_tool_use current_thinking
       cur_id cur_name cur_input] in *.
  destruct IH as (-> & -> & -> & ->). by rewrite join_cons, append_assoc.
Qed.

Lemma thinking_deltas idx parts acc :
  let acc' :=
    (on_events loads
       (map (fun p =>
               content_block_delta idx
                 match p with
                 | Thought s => thinking_delta s
                 | Signature s => signature_delta s
                 end) parts) acc).1 in
  content_blocks acc' = content_blocks acc
  ∧ current_text acc' = current_text acc
  ∧ current_tool_use acc' = current_tool_use acc.
Proof.
  revert acc. induction parts as [|p parts IH]; intros acc; cbn [map on_events].
  { done. }
  destruct p as [s|s]; cbn [on_event].
  all: match goal with |- context [on_events loads ?l ?a] =>
         specialize (IH a); cbv zeta in IH;
         destruct (on_events loads l a) as [acc2 out2] end.
  all: cbn [fst snd content_blocks current_text current_tool_use] in *.
  all: by destruct IH as (-> & -> & ->).
Qed.

(** One block of the stream, met between blocks, adds its own content
    block (or nothing, when it carried no text or thought) and leaves
    the accumulator between blocks again. *)
Lemma on_block idx b acc :
  clean acc ->
  let acc' := (on_events loads (render_block idx b) acc).1 in
  ∃ new,
    content_blocks acc' = content_blocks acc ++ new
    ∧ message_text new = join (block_texts b)
    ∧ tool_uses_in new = block_tool_use loads b
    ∧ clean acc'.
Proof.
  intros (Htext & Htool & Hthink). destruct b as [parts|id name parts|parts].
  - cbn [render_block]. rewrite app_comm_cons.
    change (content_block_start idx RawText :: ?l) with ([content_block_start idx RawText] ++ l).
    cbv zeta. rewrite !on_events_app. cbn [fst snd].
    set (acc1 := (on_events loads [content_block_start idx RawText] acc).1).
    assert (content_blocks acc1 = content_blocks acc ∧ current_text acc1 = ""
            ∧ current_tool_use acc1 = None ∧ current_thinking acc1 = "")
      as (H1 & H2 & H3 & H4) by (unfold acc1; cbn; auto).
    clearbody acc1.
    destruct (text_deltas idx parts acc1) as (D1 & D2 & D3 & D4).
    set (acc2 := (on_events loads _ acc1).1) in *. clearbody acc2.
    rewrite H2, append_nil_l in D2. rewrite H1 in D1. rewrite H3 in D3. rewrite H4 in D4.
    cbn [on_events on_event]. rewrite D2.
    destruct (String.eqb_spec (join parts) "") as [Hj|Hj]; cbn [negb fst snd].
    + rewrite D3, D4. cbn. exists []. rewrite app_nil_r, Hj.
      repeat split; try done. congruence.
    + exists [TextBlock (join parts)]. cbn. rewrite D1. unfold message_text. cbn.
      strings. repeat split; done.
  - cbn [render_block]. rewrite app_comm_cons.
    change (content_block_start idx (RawToolUse id name) :: ?l)
      with ([content_block_start idx (RawToolUse id name)] ++ l).
    cbv zeta. rewrite !on_events_app. cbn [fst snd].
    set (acc1 := (on_events loads [content_block_start idx (RawToolUse id name)] acc).1).
    assert (content_blocks acc1 = content_blocks acc ∧ current_text acc1 = ""
            ∧ current_tool_use acc1 =
              Some {| cur_id := id; cur_name := name; cur_input := "" |}
            ∧ current_thinking acc1 = "")
      as (H1 & H2 & H3 & H4) by (unfold acc1; cbn; auto).
    clearbody acc1.
    destruct (json_deltas idx parts acc1 _ H3) as (D1 & D2 & D3 & D4).
    set (acc2 := (on_events loads _ acc1).1) in *. clearbody acc2.
    cbn [cur_id cur_name cur_input] in D3. rewrite append_nil_l in D3.
    cbn [on_events on_event]. rewrite D2, H2, D3. cbn.
    exists [ToolUse {| id := id; name := name; input := input_data loads (join parts) |}].
    unfold clean. cbn. rewrite ?D1, ?H1, ?D2, ?H2, ?D4, ?H4. repeat split; done.
  - cbn [render_block]. rewrite app_comm_cons.
    change (content_block_start idx RawThinking :: ?l)
      with ([content_block_start idx RawThinking] ++ l).
    cbv zeta. rewrite !on_events_app. cbn [fst snd].
    set (acc1 := (on_events loads [content_block_start idx RawThinking] acc).1).
    assert (content_blocks acc1 = content_blocks acc ∧ current_text acc1 = ""
            ∧ current_tool_use acc1 = None)
      as (H1 & H2 & H3) by (unfold acc1; cbn; auto).
    clearbody acc1.
    destruct (thinking_deltas idx parts acc1) as (D1 & D2 & D3).
    set (acc2 := (on_events loads _ acc1).1) in *. clearbody acc2.
    cbn [on_events on_event]. rewrite D2, H2, D3, H3. cbn [String.eqb negb].
    destruct (String.eqb_spec (current_thinking acc2) "") as [Hj|Hj]; cbn [negb fst snd].
    + exists []. unfold clean. rewrite app_nil_r, ?D1, ?H1, ?D2, ?H2, ?D3, ?H3.
      repeat split; done.
    + eexists [_]. unfold clean. cbn. rewrite ?D1, ?H1, ?D2, ?H2, ?D3, ?H3.
      repeat split; done.
Qed.


Lemma message_text_app a b : message_text (a ++ b) = message_text a +:+ message_text b.
Proof. unfold message_text. by rewrite omap_app, join_app. Qed.

Lemma on_blocks idx bs acc :
  clean acc ->
  let acc' := (on_events loads (render_blocks idx bs) acc).1 in
  ∃ new,
    content_blocks acc' = content_blocks acc ++ new
    ∧ message_text new = join (flat_map block_texts bs)
    ∧ tool_uses_in new = flat_map (block_tool_use loads) bs
    ∧ clean acc'.
Proof.
  revert idx acc. induction bs as [|b bs IH]; intros idx acc Hclean; cbn [render_blocks].
  { exists []. cbn. by rewrite app_nil_r. }
  cbv zeta. rewrite on_events_app. cbn [fst snd].
  destruct (on_block idx b acc Hclean) as (new1 & B1 & B2 & B3 & B4).
  destruct (IH (idx + 1)%Z _ B4) as (new2 & R1 & R2 & R3 & R4).
  exists (new1 ++ new2). rewrite R1, B1, <- app_assoc. split; [done|].
  split; [|split; [|done]].
  - rewrite message_text_app, B2, R2. cbn [flat_map]. by rewrite join_app.
  - unfold tool_uses_in in *. rewrite omap_app, B3, R3. done.
Qed.

(** What the emitted events of one block carry. *)
Lemma flat_map_emit_map {A} (f : A -> RawEvent) (g : A -> StreamEvent) parts :
  (∀ x, emit (f x) = [g x]) -> flat_map emit (map f parts) = map g parts.
Proof.
  intros H. induction parts as [|x parts IH]; cbn; [done|]. by rewrite H, IH.
Qed.

Lemma emitted_block_texts idx b :
  omap text_payload (flat_map emit (render_block idx b)) = block_texts b.
Proof.
  destruct b as [parts|id name parts|parts]; cbn [render_block flat_map block_texts].
  all: rewrite flat_map_app, !omap_app.
  - rewrite (flat_map_emit_map _
               (fun s => {| event_type := "content_block_delta"; index := Some idx;
                            delta := Some [("type", JStr "text_delta"); ("text", JStr s)] |}))
      by done.
    cbn. rewrite app_nil_r. induction parts as [|s parts IH]; cbn; [done|]. by rewrite IH.
  - rewrite (flat_map_emit_map _
               (fun s => {| event_type := "content_block_delta"; index := Some idx;
                            delta := Some [("type", JStr "input_json_delta");
                                           ("partial_json", JStr s)] |}))
      by done.
    cbn. rewrite app_nil_r. induction parts as [|s parts IH]; cbn; done.
  - cbn. rewrite app_nil_r. induction parts as [|[s|s] parts IH]; cbn; done.
Qed.

Lemma emitted_block_jsons i idx b :
  omap (json_payload i) (flat_map emit (render_block idx b)) =
  if decide (i = idx) then block_jsons b else [].
Proof.
  assert (∀ (e : StreamEvent), index e = Some idx -> i ≠ idx -> json_payload i e = None)
    as Hother.
  { intros e He Hne. unfold json_payload. rewrite He.
    rewrite bool_decide_eq_false_2; [done|congruence]. }
  destruct b as [parts|id name parts|parts]; cbn [render_block flat_map block_jsons].
  all: rewrite flat_map_app, !omap_app.
  - rewrite (flat_map_emit_map _
               (fun s => {| event_type := "content_block_delta"; index := Some idx;
                            delta := Some [("type", JStr "text_delta"); ("text", JStr s)] |}))
      by done.
    assert (omap (json_payload i) (emit (content_block_start idx RawText)) = []) as ->.
    { unfold emit, json_payload. cbn. by case_bool_decide. }
    assert (omap (json_payload i) (flat_map emit [content_block_stop idx]) = []) as ->.
    { unfold emit, json_payload. cbn. by case_bool_decide. }
    rewrite app_nil_r. cbn [app].
    assert (omap (json_payload i)
              (map (fun s => {| event_type := "content_block_delta"; index := Some idx;
                                delta := Some [("type", JStr "text_delta");
                                               ("text", JStr s)] |}) parts) = []) as ->.
    { induction parts as [|s parts IH]; cbn; [done|]. rewrite IH.
      unfold json_payload. cbn. by case_bool_decide. }
    by case_decide.
  - rewrite (flat_map_emit_map _
               (fun s => {| event_type := "content_block_delta"; index := Some idx;
                            delta := Some [("type", JStr "input_json_delta");
                                           ("partial_json", JStr s)] |}))
      by done.
    assert (omap (json_payload i) (emit (content_block_start idx (RawToolUse id name))) = [])
      as ->.
    { unfold emit, json_payload. cbn. by case_bool_decide. }
    assert (omap (json_payload i) (flat_map emit [content_block_stop idx]) = []) as ->.
    { unfold emit, json_payload. cbn. by case_bool_decide. }
    rewrite app_nil_r. cbn [app].
    case_decide as Hi.
    + subst i. induction parts as [|s parts IH]; cbn; [done|]. rewrite IH.
      unfold json_payload. cbn. by rewrite bool_decide_eq_true_2.
    + induction parts as [|s parts IH]; cbn; [done|]. rewrite IH.
      rewrite Hother; done.
  - assert (omap (json_payload i) (emit (content_block_start idx RawThinking)) = []) as ->.
    { unfold emit, json_payload. cbn. by case_bool_decide. }
    assert (omap (json_payload i) (flat_map emit [content_block_stop idx]) = []) as ->.
    { unfold emit, json_payload. cbn. by case_bool_decide. }
    rewrite app_nil_r. cbn [app].
    assert (omap (json_payload i)
              (flat_map emit
                 (map (fun p => content_block_delta idx
                                  match p with
                                  | Thought s => thinking_delta s
                                  | Signature s => signature_delta s
                                  end) parts)) = []) as ->.
    { induction parts as [|[s|s] parts IH]; cbn [map flat_map]; [done| |].
      all: rewrite omap_app, IH, app_nil_r.
      all: unfold emit, json_payload; cbn; by case_bool_decide. }
    by case_decide.
Qed.

Lemma emitted_blocks_texts idx bs :
  omap text_payload (flat_map emit (render_blocks idx bs)) = flat_map block_texts bs.
Proof.
  revert idx. induction bs as [|b bs IH]; intros idx; cbn [render_blocks flat_map]; [done|].
  by rewrite flat_map_app, omap_app, emitted_block_texts, IH.
Qed.

Lemma emitted_blocks_below i idx bs :
  (i < idx)%Z -> omap (json_payload i) (flat_map emit (render_blocks idx bs)) = [].
Proof.
  revert idx. induction bs as [|b bs IH]; intros idx Hlt; cbn [render_blocks flat_map]; [done|].
  rewrite flat_map_app, omap_app, emitted_block_jsons, IH by lia.
  case_decide; [lia|done].
Qed.

Lemma expected_tool_uses_local bs idx pre :
  (∀ i, (idx ≤ i)%Z -> omap (json_payload i) pre = []) ->
  expected_tool_uses loads (pre ++ flat_map emit (render_blocks idx bs)) idx bs =
  flat_map (block_tool_use loads) bs.
Proof.
  revert idx pre. induction bs as [|b bs IH]; intros idx pre Hpre; [done|].
  cbn [render_blocks flat_map]. rewrite flat_map_app.
  assert (expected_tool_uses loads
            (pre ++ flat_map emit (render_block idx b)
                 ++ flat_map emit (render_blocks (idx + 1) bs)) (idx + 1) bs =
          flat_map (block_tool_use loads) bs) as Hrest.
  { rewrite app_assoc. apply IH. intros i Hi.
    rewrite omap_app, Hpre, emitted_block_jsons by lia. case_decide; [lia|done]. }
  destruct b as [parts|id name parts|parts]; cbn [expected_tool_uses block_tool_use app].
  - done.
  - f_equal; [|done]. f_equal. unfold parse_or_empty, input_data.
    rewrite !omap_app, Hpre, emitted_block_jsons, emitted_blocks_below by lia.
    rewrite decide_True by done. cbn [block_jsons app]. by rewrite app_nil_r.
  - done.
Qed.


End ClaudeFacts.

Lemma openai_build_content loads acc :
  message_text (OpenAI.build_content loads acc) = OpenAI.content_text acc
  ∧ omap isinstance_ToolUseBlock (OpenAI.build_content loads acc) =
    map (fun '(_, tc) =>
           {| id := OpenAI.entry_id tc;
              name := OpenAI.entry_name tc;
              input := OpenAI.input_data loads (OpenAI.entry_arguments tc) |})
      (OpenAI.sorted_items (OpenAI.tool_calls acc)).
Proof.
  unfold OpenAI.build_content, message_text. rewrite !omap_app.
  generalize (OpenAI.sorted_items (OpenAI.tool_calls acc)). intros items.
  assert (omap (fun b => match b with TextBlock t => Some t | _ => None end)
            (map (fun '(_, tc) =>
                    ToolUse {| id := OpenAI.entry_id tc;
                               name := OpenAI.entry_name tc;
                               input := OpenAI.input_data loads (OpenAI.entry_arguments tc) |})
               items) = []) as ->.
  { induction items as [|[i tc] items IH]; cbn; done. }
  assert (omap isinstance_ToolUseBlock
            (map (fun '(_, tc) =>
                    ToolUse {| id := OpenAI.entry_id tc;
                               name := OpenAI.entry_name tc;
                               input := OpenAI.input_data loads (OpenAI.entry_arguments tc) |})
               items) =
          map (fun '(_, tc) =>
                 {| id := OpenAI.entry_id tc;
                    name := OpenAI.entry_name tc;
                    input := OpenAI.input_data loads (OpenAI.entry_arguments tc) |})
            items) as ->.
  { induction items as [|[i tc] items IH]; cbn; [done|]. by rewrite IH. }
  destruct (String.eqb_spec (OpenAI.content_text acc) "") as [Hc|Hc]; cbn.
  - by rewrite Hc.
  - by strings.
Qed.




End StreamProofs.

(** ** Configuration *)

Module ConfigProofs.
Import Types.

(** The resolution of [config.py]: for the Azure provider the API
    version comes from the environment when it is set there, and is
    2024-02-01 otherwise. *)
Lemma config_api_version :
  Config.get_provider_config Scenarios.azure_environ Scenarios.no_overrides "azure_openai"
    !! "api_version" = Some "2023-05-15"
  ∧ Config.get_provider_config ∅ Scenarios.no_overrides "azure_openai"
      !! "api_version" = Some "2024-02-01".
Proof. split; vm_compute; reflexivity. Qed.

(** C9 on the code: a provider configured with key and endpoint only
    takes API version 2024-02-15-preview, whether the environment sets
    AZURE_OPENAI_API_VERSION or not. *)
Theorem azure_api_version_default :
  AzureOpenAIProvider._get_client Scenarios.azure_config Scenarios.azure_environ =
  inl {| AzureOpenAIProvider.api_key := "k";
         AzureOpenAIProvider.azure_endpoint := "https://example.openai.azure.com";
         AzureOpenAIProvider.api_version := "2024-02-15-preview" |}
  ∧ AzureOpenAIProvider._get_client Scenarios.azure_config ∅ =
    inl {| AzureOpenAIProvider.api_key := "k";
           AzureOpenAIProvider.azure_endpoint := "https://example.openai.azure.com";
           AzureOpenAIProvider.api_version := "2024-02-15-preview" |}.
Proof. split; vm_compute; reflexivity. Qed.

(** Only the provider's own configuration decides the version. *)
Lemma azure_api_version_from_config config environ kwargs :
  AzureOpenAIProvider._get_client config environ = inl kwargs ->
  AzureOpenAIProvider.api_version kwargs
  = default "2024-02-15-preview" (config !! "api_version").
Proof.
  unfold AzureOpenAIProvider._get_client. repeat case_match; intros [= <-]; done.
Qed.

End ConfigProofs.

(** ** The session manager *)

Module SessionProofs.
Import SessionManager SessionSpec.

Lemma stops_of_snoc sid self sid' info :
  length (List.filter (fun call : string * gmap string string => String.eqb call.1 sid)
            (stop_calls self ++ [(sid', info)])) =
  (stops_of sid self + if String.eqb sid' sid then 1 else 0)%nat.
Proof.
  unfold stops_of. rewrite List.filter_app, length_app. simpl.
  by destruct (String.eqb sid' sid).
Qed.

Lemma cleanup_session_gone sid stops sid' self :
  gone sid stops self -> gone sid stops (cleanup_session sid' self).
Proof.
  intros [Hnone Hstops]. unfold gone, cleanup_session.
  destruct (sessions self !! sid') as [session|] eqn:Hs; [|done].
  assert (sid' ≠ sid) as Hne by congruence.
  simpl. split; [by rewrite lookup_delete_ne|].
  destruct (_container_manager self); [|done].
  unfold stops_of at 1. simpl. rewrite stops_of_snoc.
  destruct (String.eqb_spec sid' sid); [done|lia].
Qed.

Lemma cleanup_all_gone sid stops ids self :
  gone sid stops self -> gone sid stops (cleanup_all ids self).
Proof.
  revert self. induction ids as [|i ids IH]; intros self H; simpl; [done|].
  apply IH. by apply cleanup_session_gone.
Qed.

Lemma step_gone sid stops op self :
  ¬ creates op sid -> gone sid stops self -> gone sid stops (step op self).
Proof.
  intros Hfresh Hgone. destruct op; simpl.
  - done.
  - destruct Hgone as [Hnone Hstops]. split; [|done]. simpl in *.
    by rewrite lookup_insert_ne.
  - destruct Hgone as [Hnone Hstops]. split; [|done]. simpl.
    rewrite lookup_alter. case_decide; [subst; by rewrite Hnone|done].
  - by apply cleanup_session_gone.
  - by apply cleanup_all_gone.
  - by apply cleanup_all_gone.
Qed.

Lemma run_gone sid stops ops self :
  Forall (fun op => ¬ creates op sid) ops ->
  gone sid stops self -> gone sid stops (run ops self).
Proof.
  revert self. induction ops as [|op ops IH]; intros self Hf Hgone; simpl; [done|].
  apply Forall_cons in Hf as [Hop Hf]. apply IH; [done|]. by apply step_gone.
Qed.

Lemma cleanup_session_absent sid self :
  sessions self !! sid = None -> cleanup_session sid self = self.
Proof. intros Hs. unfold cleanup_session. by rewrite Hs. Qed.

(** C8, as amended: cleaning up a live session whose container was not
    stopped yet removes it from the map and calls [stop_container] on
    its handle once when a container manager is attached, and not at
    all when none is; a second cleanup changes nothing; and whatever
    happens to the manager later (a container manager attached,
    sessions created, touched, cleaned up, evicted, the manager
    stopped; short of the same id being allocated again), the session
    stays removed, the number of calls of [stop_container] for its id
    stays what the first cleanup made it, and cleaning it up again
    changes nothing. *)
Theorem cleanup_session_stops_once sid session self :
  sessions self !! sid = Some session ->
  stops_of sid self = 0%nat ->
  let cleaned := cleanup_session sid self in
  sessions cleaned = delete sid (sessions self)
  ∧ stop_calls cleaned
    = stop_calls self
      ++ match _container_manager self with
         | Some _ => [(sid, container_info session)]
         | None => []
         end
  ∧ stops_of sid cleaned = stops_made self
  ∧ cleanup_session sid cleaned = cleaned
  ∧ ∀ ops, Forall (fun op => ¬ creates op sid) ops ->
           sessions (run ops cleaned) !! sid = None
           ∧ stops_of sid (run ops cleaned) = stops_made self
           ∧ cleanup_session sid (run ops cleaned) = run ops cleaned.
Proof.
  intros Hs Hzero cleaned.
  assert (cleaned
          = {| sessions := delete sid (sessions self);
               inserted := delete sid (inserted self);
               insertions := insertions self;
               _container_manager := _container_manager self;
               stop_calls :=
                 stop_calls self
                 ++ match _container_manager self with
                    | Some _ => [(sid, container_info session)]
                    | None => []
                    end |}) as Hcleaned.
  { unfold cleaned, cleanup_session. rewrite Hs.
    destruct (_container_manager self); [done|]. by rewrite app_nil_r. }
  assert (gone sid (stops_made self) cleaned) as Hgone.
  { rewrite Hcleaned. split; [apply lookup_delete_eq|].
    unfold stops_made. destruct (_container_manager self).
    - unfold stops_of at 1. cbn [stop_calls]. rewrite stops_of_snoc, Hzero.
      by rewrite String.eqb_refl.
    - unfold stops_of in *. cbn [stop_calls]. by rewrite app_nil_r. }
  split; [by rewrite Hcleaned|]. split; [by rewrite Hcleaned|].
  split; [apply Hgone|]. split; [apply cleanup_session_absent, Hgone|].
  intros ops Hops.
  destruct (run_gone sid (stops_made self) ops cleaned Hops Hgone) as [Hnone Hstops].
  split; [done|]. split; [done|]. by apply cleanup_session_absent.
Qed.

(** [stop] walks the sessions in the order they were created. *)
Example stop_walks_in_insertion_order :
  stop_calls (stop Scenarios.two_sessions)
  = [("sess-bbbbbbbbbbbb", {[ "container_id" := "c1" ]});
     ("sess-aaaaaaaaaaaa", {[ "container_id" := "c2" ]})].
Proof. vm_compute. reflexivity. Qed.

Lemma cleanup_session_stops_once_witness :
  let sid := "sess-0123456789ab" in
  let cleaned := cleanup_session sid Scenarios.one_session in
  sessions cleaned = delete sid (sessions Scenarios.one_session)
  ∧ stop_calls cleaned =
    stop_calls Scenarios.one_session ++ [(sid, {[ "container_id" := "c1" ]})]
  ∧ stops_of sid cleaned = 1%nat
  ∧ cleanup_session sid cleaned = cleaned
  ∧ ∀ ops, Forall (fun op => ¬ creates op sid) ops ->
           sessions (run ops cleaned) !! sid = None
           ∧ stops_of sid (run ops cleaned) = 1%nat
           ∧ cleanup_session sid (run ops cleaned) = run ops cleaned.
Proof.
  refine (cleanup_session_stops_once "sess-0123456789ab"
           {| session_id := "sess-0123456789ab";
              agent_id := "agent-fedcba98";
              config_id := None;
              config_name := "Agent";
              api_key := "key";
              container_info := {[ "container_id" := "c1" ]};
              status := RUNNING;
              created_at := 100;
              last_activity := 101;
              message_count := 0;
              conversation_history := [] |}
           Scenarios.one_session _ _).
  - vm_compute. reflexivity.
  - vm_compute. reflexivity.
Defined.

(** C8, as stated, fails: under a manager that was given no container
    manager, cleaning up a live session removes it from the map and
    calls [stop_container] not once. *)
Lemma cleanup_without_container_manager :
  let sid := "sess-0123456789ab" in
  is_Some (sessions Scenarios.unattached !! sid)
  ∧ sessions (cleanup_session sid Scenarios.unattached) !! sid = None
  ∧ stop_calls (cleanup_session sid Scenarios.unattached) = []
  ∧ stops_of sid (cleanup_session sid Scenarios.unattached) = 0%nat.
Proof.
  cbv zeta. split; [eexists; vm_compute; reflexivity|].
  repeat split; vm_compute; reflexivity.
Qed.

End SessionProofs.

(** * Properties of the code around the engine *)

Module ClientProofs.
Import Types Client Spec Lifecycle ClientSpec.

Section ExecutorFacts.
Context (options : AgentOptions) (_session_id : string) (dumps : json -> string).

(** The events of one tool use: its two events, or its start event
    alone when the permission callback raises. *)
Lemma execute_tool_with_events_keys tool_use st :
  let out := execute_tool_with_events options _session_id dumps tool_use st in
  match out.1.2 with
  | inl _ => map event_key out.1.1 = announced tool_use
  | inr e =>
      out.1.1 = [tool_execution_start tool_use]
      ∧ permission_raises options (Some _session_id) tool_use e
  end.
Proof.
  unfold execute_tool_with_events.
  repeat match goal with
         | |- context [call_handler ?h ?n ?i ?s] =>
             destruct (call_handler h n i s) as [? ?]
         | |- context [match ?x with _ => _ end] => destruct x eqn:?
         end; simpl in *; simplify_eq; try reflexivity.
  all: split; [done|]; by eapply LoopProofs.ask_permission_raises.
Qed.

Lemma call_handler_calls h name tool_input st :
  (call_handler h name tool_input st).2 = st
  ∨ (∃ d, tool_input = JDict d)
    ∧ handler_calls (call_handler h name tool_input st).2
      = handler_calls st ++ [(name, tool_input)].
Proof. unfold call_handler. destruct tool_input; eauto. Qed.

Lemma find_tool_registered tool_use h :
  find_tool options tool_use ≫= handler = Some h ->
  ∃ t, t ∈ tools options ∧ tool_name t = name tool_use ∧ is_Some (handler t).
Proof.
  unfold find_tool. destruct (List.find _ _) as [t|] eqn:Hfind; [|done].
  simpl. intros Hh. apply find_some in Hfind as [Hin Heq].
  exists t. split; [by apply list_elem_of_In|].
  split; [by apply String.eqb_eq|by eexists].
Qed.

(** One tool use makes at most one handler call, under the name of the
    tool use, and only of a handler the options hold. *)
Lemma execute_tool_with_events_calls tool_use st :
  let st' := (execute_tool_with_events options _session_id dumps tool_use st).2 in
  handler_calls st' = handler_calls st
  ∨ ∃ tool_input,
      handler_calls st' = handler_calls st ++ [(name tool_use, tool_input)]
      ∧ registered_call options (name tool_use, tool_input).
Proof.
  unfold execute_tool_with_events.
  repeat match goal with
         | |- context [call_handler ?h ?n ?i ?s] =>
             let H := fresh "Hcall" in
             pose proof (call_handler_calls h n i s) as H;
             destruct (call_handler h n i s) as [? ?]
         | |- context [match ?x with _ => _ end] => destruct x eqn:?
         end; simpl in *; try (by left).
  all: destruct Hcall as [->|[Hd ->]]; [by left|right].
  all: eexists; split; [done|]; split; [|done].
  all: simpl; by eapply find_tool_registered.
Qed.

Lemma _execute_tools_with_events_calls tool_uses st :
  ∃ calls,
    handler_calls (_execute_tools_with_events options _session_id dumps tool_uses st).2
    = handler_calls st ++ calls
    ∧ calls.*1 `sublist_of` map name tool_uses
    ∧ Forall (registered_call options) calls.
Proof.
  revert st. induction tool_uses as [|tool_use rest IH]; intros st; simpl.
  { exists []. by rewrite app_nil_r. }
  pose proof (execute_tool_with_events_calls tool_use st) as Hstep.
  destruct (execute_tool_with_events options _session_id dumps tool_use st)
    as [[events continue] st1]. simpl in Hstep.
  assert (∃ calls1, handler_calls st1 = handler_calls st ++ calls1
                    ∧ calls1.*1 `sublist_of` [name tool_use]
                    ∧ Forall (registered_call options) calls1)
    as (calls1 & H1 & Hsub1 & Hreg1).
  { destruct Hstep as [Hs|(i & Hs & Hr)].
    - exists []. rewrite app_nil_r. repeat split; [done|apply sublist_nil_l|done].
    - exists [(name tool_use, i)]. repeat split; [done|done|by constructor]. }
  destruct continue as [[|]|e].
  - destruct (IH st1) as (calls & Hc & Hsub & Hreg).
    destruct (_execute_tools_with_events options _session_id dumps rest st1)
      as [[more exn] st2]; simpl in *.
    exists (calls1 ++ calls). rewrite Hc, H1, app_assoc. split; [done|].
    split; [|by apply Forall_app].
    rewrite fmap_app. by apply (sublist_app _ [_]).
  - simpl. exists calls1. split; [done|]. split; [|done].
    etrans; [done|]. apply sublist_skip, sublist_nil_l.
  - simpl. exists calls1. split; [done|]. split; [|done].
    etrans; [done|]. apply sublist_skip, sublist_nil_l.
Qed.

End ExecutorFacts.

Section StoreFacts.
Context (options : AgentOptions) (_session_id : string) (dumps : json -> string).
Context (provider : BaseProvider).

Lemma tool_turn_results (results : list ToolMessage) : Forall tool_turn (map Tool results).
Proof. induction results; by constructor. Qed.

Lemma stream_loop_stores fuel max_turns turns st g :
  stream_loop options _session_id dumps provider fuel max_turns turns st = Some g ->
  ∃ suffix, _messages (after g) = _messages st ++ suffix ∧ Forall tool_turn suffix.
Proof.
  revert turns st g. induction fuel as [|fuel IH]; intros turns st g.
  all: cbn [stream_loop]; destruct (turns <? max_turns)%Z.
  1,2,4: intros [= <-]; exists []; by rewrite app_nil_r.
  destruct (provider_stream provider (provider_calls st) (_messages st)) as [msgs exn].
  destruct exn as [e|]; [intros [= <-]; exists []; by rewrite app_nil_r|].
  destruct (last_response msgs) as [response|];
    [|intros [= <-]; exists []; by rewrite app_nil_r].
  destruct (tool_uses_of response) as [|tool_use rest] eqn:Htools;
    [intros [= <-]; exists []; by rewrite app_nil_r|].
  rewrite <- Htools.
  destruct (LoopProofs._execute_tools_with_events_history options _session_id dumps
              (tool_uses_of response)
              (append (Assistant response) (count_provider_call st)))
    as (results & Hm & _).
  destruct (_execute_tools_with_events options _session_id dumps
              (tool_uses_of response)
              (append (Assistant response) (count_provider_call st)))
    as [[events exn] st2]; cbn in Hm.
  assert (Forall tool_turn (Assistant response :: map Tool results)) as Hturn.
  { constructor; [simpl; by rewrite Htools|apply tool_turn_results]. }
  destruct exn as [e|].
  { intros [= <-]. exists (Assistant response :: map Tool results). simpl.
    rewrite Hm. simpl. by rewrite <- !app_assoc. }
  destruct (should_continue_of events).
  - destruct (stream_loop options _session_id dumps provider fuel max_turns
                (turns + 1) st2) as [g'|] eqn:Hg; [|done].
    intros [= <-]. apply IH in Hg as (suffix & Hs & Hf).
    exists ((Assistant response :: map Tool results) ++ suffix). simpl.
    rewrite Hs, Hm. simpl. rewrite <- !app_assoc. split; [done|].
    apply Forall_cons. apply Forall_cons in Hturn as [? ?].
    split; [done|]. by apply Forall_app.
  - intros [= <-]. exists (Assistant response :: map Tool results). simpl.
    rewrite Hm. simpl. by rewrite <- !app_assoc.
Qed.

Lemma complete_loop_stores fuel max_turns turns st g :
  complete_loop options _session_id dumps provider fuel max_turns turns st = Some g ->
  ∃ suffix, _messages (after g) = _messages st ++ suffix ∧ Forall tool_turn suffix.
Proof.
  revert turns st g. induction fuel as [|fuel IH]; intros turns st g.
  all: cbn [complete_loop]; destruct (turns <? max_turns)%Z.
  1,2,4: intros [= <-]; exists []; by rewrite app_nil_r.
  destruct (provider_complete provider (provider_calls st) (_messages st))
    as [response|e]; [|intros [= <-]; exists []; by rewrite app_nil_r].
  destruct (tool_uses_of response) as [|tool_use rest] eqn:Htools;
    [intros [= <-]; exists []; by rewrite app_nil_r|].
  rewrite <- Htools. rewrite LoopProofs._execute_tools_erases_events.
  destruct (LoopProofs._execute_tools_with_events_history options _session_id dumps
              (tool_uses_of response)
              (append (Assistant response) (count_provider_call st)))
    as (results & Hm & _).
  destruct (_execute_tools_with_events options _session_id dumps
              (tool_uses_of response)
              (append (Assistant response) (count_provider_call st)))
    as [[events exn] st2]; cbn in Hm. unfold return_value. cbn [fst snd].
  assert (Forall tool_turn (Assistant response :: map Tool results)) as Hturn.
  { constructor; [simpl; by rewrite Htools|apply tool_turn_results]. }
  destruct exn as [e|].
  { intros [= <-]. exists (Assistant response :: map Tool results). simpl.
    rewrite Hm. simpl. by rewrite <- !app_assoc. }
  destruct (should_continue_of events).
  - destruct (complete_loop options _session_id dumps provider fuel max_turns
                (turns + 1) st2) as [g'|] eqn:Hg; [|done].
    intros [= <-]. apply IH in Hg as (suffix & Hs & Hf).
    exists ((Assistant response :: map Tool results) ++ suffix). simpl.
    rewrite Hs, Hm. simpl. rewrite <- !app_assoc. split; [done|].
    apply Forall_cons. apply Forall_cons in Hturn as [? ?].
    split; [done|]. by apply Forall_app.
  - intros [= <-]. exists (Assistant response :: map Tool results). simpl.
    rewrite Hm. simpl. by rewrite <- !app_assoc.
Qed.

Lemma receive_stores c r :
  receive options _session_id dumps provider c = Some r ->
  ∃ suffix,
    _messages (state (client r)) = _messages (state c) ++ suffix
    ∧ Forall tool_turn suffix.
Proof.
  unfold receive. destruct (_pending_response c) as [p|].
  2:{ intros [= <-]. exists []. by rewrite app_nil_r. }
  destruct (run_pending options _session_id dumps provider p (state c)) as [g|] eqn:Hg;
    [|done].
  simpl. destruct (until_result (yielded g)) as [msgs found]. intros [= <-]. simpl.
  destruct p; simpl in Hg.
  - by eapply stream_loop_stores.
  - by eapply complete_loop_stores.
  - injection Hg as <-. exists []. by rewrite app_nil_r.
Qed.

End StoreFacts.
Lemma until_result_subset msgs m : m ∈ (until_result msgs).1 -> m ∈ msgs.
Proof.
  induction msgs as [|msg rest IH]; simpl; [done|].
  destruct (isinstance_ResultMessage msg).
  - simpl. intros ->%list_elem_of_singleton. by left.
  - destruct (until_result rest) as [more found]. simpl in *.
    intros [->|H]%elem_of_cons; [by left|right; auto].
Qed.

Lemma first_assistant_app front back :
  first_assistant (front ++ back) =
  match first_assistant front with
  | Some a => Some a
  | None => first_assistant back
  end.
Proof.
  induction front as [|m front IH]; simpl; [done|].
  destruct m; simpl; auto.
Qed.

Lemma first_assistant_elem msgs a :
  first_assistant msgs = Some a -> Assistant a ∈ msgs.
Proof.
  induction msgs as [|m msgs IH]; simpl; [done|].
  destruct m as [?|a'|?|?]; [right; auto| |right; auto..].
  intros [= ->]. by left.
Qed.

Lemma filter_system_tool_turns suffix :
  Forall tool_turn suffix -> List.filter isinstance_SystemMessage suffix = [].
Proof.
  induction 1 as [|m suffix Hm _ IH]; simpl; [done|].
  destruct m; simpl in *; done.
Qed.

Lemma first_assistant_system msgs :
  first_assistant (rev (List.filter isinstance_SystemMessage msgs)) = None.
Proof.
  induction msgs as [|m msgs IH]; simpl; [done|].
  destruct m; simpl; try done.
  rewrite first_assistant_app, IH. done.
Qed.


(** X2. Handlers are called at most once per tool use. Both executors
    make the same handler calls; their names are, in order, a
    subsequence of the names of the tool uses (so no tool use is
    executed twice and none out of turn), each is the name of a tool of
    [options.tools] that has a handler, and each input is a mapping. *)
Theorem handlers_called_at_most_once options _session_id dumps tool_uses st :
  ∃ calls,
    handler_calls (_execute_tools_with_events options _session_id dumps tool_uses st).2
    = handler_calls st ++ calls
    ∧ handler_calls (_execute_tools options _session_id dumps tool_uses st).2
      = handler_calls st ++ calls
    ∧ calls.*1 `sublist_of` map name tool_uses
    ∧ Forall (registered_call options) calls.
Proof.
  destruct (_execute_tools_with_events_calls options _session_id dumps tool_uses st)
    as (calls & H1 & H2 & H3).
  exists calls. rewrite LoopProofs._execute_tools_erases_events. done.
Qed.

(** X3. A decision of the hooks pre-empts the permission callback.
    When the PreToolUse hooks return a non-empty [permissionDecision]
    for a tool use (["allow"], ["ask"], ["deny"] or anything else), the
    tool use is processed in the same way whatever [can_use_tool] is:
    the callback is not consulted, so unless the decision is ["deny"] a
    callback that would deny cannot keep the handler from running. *)
Theorem hook_decision_preempts_callback options _session_id dumps tool_use st
    callback1 callback2 :
  truthy_str (hook_decision options _session_id tool_use) = true ->
  execute_tool_with_events (set_can_use_tool callback1 options) _session_id dumps tool_use st
  = execute_tool_with_events (set_can_use_tool callback2 options) _session_id dumps
      tool_use st
  ∧ execute_tool (set_can_use_tool callback1 options) _session_id dumps tool_use st
    = execute_tool (set_can_use_tool callback2 options) _session_id dumps tool_use st.
Proof.
  unfold hook_decision. intros Hdecision.
  assert (∀ callback,
            ask_permission (set_can_use_tool callback options) _session_id tool_use
              (specific_get
                 (get_hookSpecificOutput
                    (_execute_hooks options _session_id "PreToolUse"
                       (PreToolUseHookInput _session_id (name tool_use) (input tool_use))
                       (Some (id tool_use)) (Some (name tool_use))))
                 "permissionDecision") = None) as Hask.
  { intros callback. unfold ask_permission. simpl.
    destruct callback; [|done]. by rewrite Hdecision. }
  split.
  - unfold execute_tool_with_events.
    change (_execute_hooks (set_can_use_tool ?cb options)) with (_execute_hooks options).
    change (find_tool (set_can_use_tool ?cb options)) with (find_tool options).
    by rewrite !Hask.
  - unfold execute_tool.
    change (_execute_hooks (set_can_use_tool ?cb options)) with (_execute_hooks options).
    change (find_tool (set_can_use_tool ?cb options)) with (find_tool options).
    by rewrite !Hask.
Qed.

Lemma hook_decision_preempts_callback_witness :
  truthy_str (hook_decision Scenarios.deny_then_allow "sess" Scenarios.add_request) = true
  ∧ execute_tool_with_events
      (set_can_use_tool (Some (fun _ _ _ => inl (PermissionResultDeny "no" false)))
         Scenarios.deny_then_allow)
      "sess" Scenarios.dumps Scenarios.add_request Scenarios.fresh
    = execute_tool_with_events (set_can_use_tool None Scenarios.deny_then_allow)
        "sess" Scenarios.dumps Scenarios.add_request Scenarios.fresh.
Proof.
  split; [reflexivity|].
  apply (hook_decision_preempts_callback Scenarios.deny_then_allow "sess" Scenarios.dumps
           Scenarios.add_request Scenarios.fresh
           (Some (fun _ _ _ => inl (PermissionResultDeny "no" false))) None).
  reflexivity.
Defined.

(** X4. What the ResultMessage of [receive] says. [receive] runs to its
    end for every provider, and every ResultMessage it yields is the
    engine's own: [is_error] is false, [session_id] is the client's,
    [num_turns] is the number of provider calls made during this
    [receive], and [usage] and [finish_reason] are unset, whatever the
    provider reported in its own ResultMessage. *)
Theorem result_counts_provider_calls options _session_id dumps provider c :
  ∃ r,
    receive options _session_id dumps provider c = Some r
    ∧ ∀ res, AResult res ∈ received r ->
        res = {| is_error := false;
                 num_turns :=
                   Z.of_nat (provider_calls (state (client r)))
                   - Z.of_nat (provider_calls (state c));
                 session_id := Some _session_id;
                 usage := None;
                 result_finish_reason := None |}.
Proof.
  unfold receive. destruct (_pending_response c) as [p|].
  2:{ eexists. split; [done|]. simpl. intros res H. by apply elem_of_nil in H. }
  destruct (LoopProofs.run_pending_inv options _session_id dumps provider p (state c))
    as (g & -> & Hfin & Hinv).
  simpl. destruct (until_result (yielded g)) as [msgs found] eqn:Hu.
  eexists. split; [done|]. simpl. intros res Hin.
  assert (AResult res ∈ yielded g) as Hy.
  { apply until_result_subset. by rewrite Hu. }
  assert (p = Finished ∨ p ≠ Finished) as [->|Hne]
    by (destruct p; (by left) || (by right)).
  { rewrite (Hfin eq_refl) in Hy. by apply elem_of_nil in Hy. }
  destruct (Hinv Hne) as (calls & suffix & I1 & _ & _ & I4 & _).
  rewrite Forall_forall in I4. specialize (I4 _ Hy eq_refl).
  unfold result_message in I4. injection I4 as ->. rewrite I1. f_equal. lia.
Qed.

(** X5. The final answer is not kept. Everything a [receive] appends
    to the history belongs to a turn with tool uses: an assistant
    message with at least one tool use, or a tool message. The
    assistant message that ends the exchange, having no tool use, is
    yielded to the caller and never stored; so when the provider's
    first answer asks for no tool, the history is left as [send] made
    it. *)
Theorem final_answer_not_stored options _session_id dumps provider c :
  ∃ r suffix,
    receive options _session_id dumps provider c = Some r
    ∧ _messages (state (client r)) = _messages (state c) ++ suffix
    ∧ Forall tool_turn suffix.
Proof.
  assert (∃ r, receive options _session_id dumps provider c = Some r) as [r Hr].
  { unfold receive. destruct (_pending_response c) as [p|]; [|by eexists].
    destruct (LoopProofs.run_pending_inv options _session_id dumps provider p (state c))
      as (g & -> & _). simpl. destruct (until_result (yielded g)). by eexists. }
  destruct (receive_stores options _session_id dumps provider c r Hr) as (suffix & H1 & H2).
  by exists r, suffix.
Qed.

Lemma receive_total options _session_id dumps provider c :
  ∃ r, receive options _session_id dumps provider c = Some r.
Proof.
  unfold receive. destruct (_pending_response c) as [p|]; [|by eexists].
  destruct (LoopProofs.run_pending_inv options _session_id dumps provider p (state c))
    as (g & -> & _). simpl. destruct (until_result (yielded g)). by eexists.
Qed.

Lemma until_result_false msgs res :
  (until_result msgs).2 = false -> AResult res ∉ (until_result msgs).1.
Proof.
  induction msgs as [|msg rest IH]; simpl; [intros _; apply not_elem_of_nil|].
  destruct (isinstance_ResultMessage msg) eqn:Hmsg; [done|].
  destruct (until_result rest) as [more found]; simpl in *.
  intros Hf [<-|H]%elem_of_cons; [done|]. by apply IH.
Qed.

(** X6. The text of the final answer is not what
    [get_text_response] returns. After a [receive],
    [get_text_response] either returns what it returned before, or the
    text of an assistant message that asked for tools; the answer that
    ended the exchange is not in the history it reads. *)
Theorem get_text_response_misses_final_answer options _session_id dumps provider c :
  ∃ r,
    receive options _session_id dumps provider c = Some r
    ∧ (get_text_response (client r) = get_text_response c
       ∨ ∃ a, Assistant a ∈ _messages (state (client r))
              ∧ tool_uses_of a ≠ []
              ∧ get_text_response (client r) = StreamSpec.message_text (content a)).
Proof.
  destruct (receive_total options _session_id dumps provider c) as [r Hr].
  exists r. split; [done|].
  destruct (receive_stores options _session_id dumps provider c r Hr) as (suffix & Hs & Hf).
  unfold get_text_response. rewrite Hs, rev_app_distr, first_assistant_app.
  destruct (first_assistant (rev suffix)) as [a|] eqn:Ha; [|by left].
  right. exists a. apply first_assistant_elem in Ha.
  apply list_elem_of_In, in_rev, list_elem_of_In in Ha.
  split; [apply elem_of_app; by right|]. split; [|done].
  rewrite Forall_forall in Hf. by apply (Hf _ Ha).
Qed.

(** X7. A second [receive] without a [send] yields nothing. If the
    first [receive] ended with a ResultMessage, or no [send] was made
    at all, the second raises RuntimeError (no pending response); if
    the first ended without one (the provider raised, or a stream
    delivered no assistant message), the second returns silently. In
    both cases it yields no message and leaves the client's state as it
    was. *)
Theorem second_receive_is_empty options _session_id dumps provider c :
  ∃ r r2,
    receive options _session_id dumps provider c = Some r
    ∧ receive options _session_id dumps provider (client r) = Some r2
    ∧ received r2 = []
    ∧ state (client r2) = state (client r)
    ∧ ((∃ res, AResult res ∈ received r) ∨ _pending_response c = None ->
       receive_raised r2
       = Some {| error_type := "RuntimeError";
                 error := "No pending response. Call send() first." |})
    ∧ ((∀ res, AResult res ∉ received r) -> is_Some (_pending_response c) ->
       receive_raised r2 = None).
Proof.
  unfold receive at 1. destruct (_pending_response c) as [p|] eqn:Hp.
  2:{ eexists _, _. split; [done|]. simpl. unfold receive. rewrite Hp.
      split; [done|]. simpl. repeat split; try done. }
  destruct (LoopProofs.run_pending_inv options _session_id dumps provider p (state c))
    as (g & -> & _).
  simpl. pose proof (until_result_false (yielded g)) as Hfalse.
  pose proof (LoopProofs.until_result_found (yielded g)) as Hfound.
  pose proof (LoopProofs.until_result_true (yielded g)) as Htrue.
  destruct (until_result (yielded g)) as [msgs found]. simpl in *.
  destruct found.
  - eexists _, _. split; [done|]. unfold receive. simpl. split; [done|]. simpl.
    repeat split; try done. intros Hno _. exfalso.
    destruct (Hfound (Htrue _ eq_refl)) as (front & res & [= ->] & _).
    apply (Hno res), elem_of_app. right. by left.
  - eexists _, _. split; [done|]. unfold receive. simpl. split; [done|]. simpl.
    repeat split; try done. intros [[res Hres]|[=]]. by destruct (Hfalse res eq_refl).
Qed.

(** X8. Reconnecting repeats the system messages. [connect] on a
    client that is not connected appends only SystemMessages (the
    system prompt, when set, first; then the additional context of the
    SessionStart hooks, when there is one), and is a no-op while the
    client is connected; [disconnect] keeps the history, so a
    [connect] after a [disconnect] appends the same SystemMessages a
    second time. When [ProviderRegistry.get] raises, [connect] raises
    the same exception and changes nothing. *)
Theorem reconnect_repeats_system_messages options _session_id system_prompt c :
  _connected c = false ->
  ∃ c1 c2 added,
    connect options _session_id system_prompt None c = inl c1
    ∧ connect options _session_id system_prompt None c1 = inl c1
    ∧ connect options _session_id system_prompt None (disconnect c1) = inl c2
    ∧ _messages (state c1) = _messages (state c) ++ added
    ∧ _messages (state c2) = _messages (state c) ++ added ++ added
    ∧ Forall (fun m => isinstance_SystemMessage m = true) added
    ∧ (truthy_str system_prompt = true ->
       head added = Some (System (OpenAI.or_empty system_prompt)))
    ∧ ∀ e, connect options _session_id system_prompt (Some e) c = inr e.
Proof.
  intros Hc. unfold connect. rewrite Hc. simpl.
  set (first := if truthy_str system_prompt
                then [System (OpenAI.or_empty system_prompt)] else []).
  set (second :=
         match
           _execute_hooks options _session_id "SessionStart"
             (SessionStartHookInput _session_id) None None !! "hookSpecificOutput"
         with
         | Some (FSpecific (Some hook_specific)) =>
             if truthy_str (specific_get hook_specific "additionalContext")
             then [System (OpenAI.or_empty (specific_get hook_specific "additionalContext"))]
             else []
         | _ => []
         end).
  assert (∀ st,
    _messages
      match
        _execute_hooks options _session_id "SessionStart"
          (SessionStartHookInput _session_id) None None !! "hookSpecificOutput"
      with
      | Some (FSpecific (Some hook_specific)) =>
          if truthy_str (specific_get hook_specific "additionalContext")
          then append (System (OpenAI.or_empty (specific_get hook_specific "additionalContext")))
                 (if truthy_str system_prompt
                  then append (System (OpenAI.or_empty system_prompt)) st
                  else st)
          else if truthy_str system_prompt
               then append (System (OpenAI.or_empty system_prompt)) st
               else st
      | _ => if truthy_str system_prompt
             then append (System (OpenAI.or_empty system_prompt)) st
             else st
      end = _messages st ++ first ++ second) as Hadd.
  { intros st. unfold first, second.
    destruct (_ !! "hookSpecificOutput") as [[| | |[h|]]|];
      repeat case_match; simpl; rewrite <- ?app_assoc, ?app_nil_r; done. }
  eexists _, _, (first ++ second). split; [done|]. split; [done|]. split; [done|].
  simpl. rewrite !Hadd. split; [done|]. split; [by rewrite <- !app_assoc|].
  split.
  - apply Forall_app. split; unfold first, second; repeat case_match; by repeat constructor.
  - split; [|done]. intros Hp. unfold first. by rewrite Hp.
Qed.

Lemma reconnect_repeats_system_messages_witness :
  ∃ c1 c2,
    connect Fixtures.greeting "sess" (Some "Be brief.") None Fixtures.new_client = inl c1
    ∧ connect Fixtures.greeting "sess" (Some "Be brief.") None (disconnect c1) = inl c2
    ∧ _messages (state c2)
      = [System "Be brief."; System "Today is Monday.";
         System "Be brief."; System "Today is Monday."].
Proof.
  destruct (reconnect_repeats_system_messages Fixtures.greeting "sess" (Some "Be brief.")
              Fixtures.new_client eq_refl)
    as (c1 & c2 & added & H1 & _ & H2 & _).
  exists c1, c2. split; [exact H1|]. split; [exact H2|].
  vm_compute in H1. injection H1 as <-.
  vm_compute in H2. injection H2 as <-. reflexivity.
Defined.

(** X9. [clear_history] forgets a whole exchange. On a connected
    client, sending a text, receiving the response (with any number of
    tool turns) and then clearing the history leaves exactly the
    history that clearing before the exchange would have left: the
    SystemMessages, in order; and [get_text_response] is then the
    empty string. *)
Theorem clear_history_forgets_exchange options _session_id dumps provider c text :
  _connected c = true ->
  ∃ c1 r,
    send options (inl text) c = inl c1
    ∧ receive options _session_id dumps provider c1 = Some r
    ∧ _messages (state (clear_history (client r))) = _messages (state (clear_history c))
    ∧ _messages (state (clear_history c))
      = List.filter isinstance_SystemMessage (_messages (state c))
    ∧ get_text_response (clear_history (client r)) = "".
Proof.
  intros Hc. unfold send. rewrite Hc. simpl.
  eexists. destruct (receive_total options _session_id dumps provider
    {| _connected := true;
       state := append (User (inl text)) (state c);
       _pending_response :=
         Some (if stream options then StreamWithTools else CompleteWithTools) |}) as [r Hr].
  exists r. split; [done|]. split; [done|].
  destruct (receive_stores options _session_id dumps provider _ r Hr) as (suffix & Hs & Hf).
  simpl in Hs. split; [|split; [done|]].
  - simpl. rewrite Hs, !List.filter_app, (filter_system_tool_turns suffix Hf). simpl.
    by rewrite !app_nil_r.
  - unfold get_text_response. simpl. by rewrite first_assistant_system.
Qed.

Lemma clear_history_forgets_exchange_witness :
  ∃ c1 r,
    send Scenarios.two_turns (inl "add 2 and 3") Fixtures.connected_client = inl c1
    ∧ receive Scenarios.two_turns "sess" Scenarios.dumps Scenarios.add_then_text c1 = Some r
    ∧ _messages (state (clear_history (client r))) = [System "Be brief."].
Proof.
  destruct (clear_history_forgets_exchange Scenarios.two_turns "sess" Scenarios.dumps
              Scenarios.add_then_text Fixtures.connected_client "add 2 and 3" eq_refl)
    as (c1 & r & H1 & H2 & H3 & H4 & _).
  exists c1, r. split; [exact H1|]. split; [exact H2|].
  rewrite H3, H4. reflexivity.
Defined.

End ClientProofs.

Module FormatProofs.
Import Types StreamSpec FormatSpec.

(** *** Anthropic dialect *)

Lemma parse_format_block block :
  ClaudeFormat.parse_block (ClaudeFormat.format_block block) = Some (returned block).
Proof.
  destruct block as [text|source media|thinking [signature|]|b|tool_use_id content is_error];
    try reflexivity.
  - unfold ClaudeFormat.format_block. by destruct (String.prefix "data:" source).
  - unfold ClaudeFormat.format_block, returned.
    destruct (truthy_str (Some signature)); reflexivity.
  - by destruct b.
Qed.

Lemma parse_format_blocks blocks :
  mapM ClaudeFormat.parse_block (ClaudeFormat._format_content_blocks blocks)
  = Some (map returned blocks).
Proof.
  induction blocks as [|block blocks IH]; [done|].
  cbn. rewrite parse_format_block. cbn.
  unfold ClaudeFormat._format_content_blocks in IH. by rewrite IH.
Qed.

Lemma omap_JDict (l : list ClaudeFormat.dict) :
  omap (fun b => match b with JDict d => Some d | _ => None end) (map JDict l) = l.
Proof. induction l as [|d l IH]; cbn; [done|]. by rewrite IH. Qed.

Lemma omap_id_map {A B} (f : A -> option B) (l : list A) :
  omap (fun b => b) (map f l) = omap f l.
Proof. induction l as [|x l IH]; cbn; [done|]. rewrite IH. done. Qed.

Lemma omap_returned blocks :
  Forall round_trippable blocks -> omap returned blocks = blocks.
Proof.
  induction 1 as [|block blocks Hb _ IH]; [done|].
  cbn. rewrite IH. destruct block; cbn in *; try done. by rewrite Hb.
Qed.

(** X10. Round trip of the Anthropic dialect. Parsing a vendor
    response whose content is what [_format_assistant_message] made of
    an assistant message gives the message back, with these changes
    only: image and tool-result blocks are gone, and a thinking block
    whose signature is the empty string comes back with no signature.
    So a message made of text blocks, tool uses and thinking blocks with
    a non-empty signature comes back as it was. *)
Theorem claude_round_trip message model stop_reason :
  ClaudeFormat.parse_response
    (claude_echo (ClaudeFormat._format_assistant_message message) model stop_reason)
  = Some {| content := omap returned (content message);
            Types.model := Some model;
            finish_reason := Claude._map_stop_reason stop_reason |}
  ∧ (Forall round_trippable (content message) ->
     ClaudeFormat.parse_response
       (claude_echo (ClaudeFormat._format_assistant_message message) model stop_reason)
     = Some {| content := content message;
               Types.model := Some model;
               finish_reason := Claude._map_stop_reason stop_reason |}).
Proof.
  assert (ClaudeFormat.parse_response
            (claude_echo (ClaudeFormat._format_assistant_message message) model stop_reason)
          = Some {| content := omap returned (content message);
                    Types.model := Some model;
                    finish_reason := Claude._map_stop_reason stop_reason |}) as H.
  { unfold ClaudeFormat.parse_response, claude_echo, ClaudeFormat._format_assistant_message.
    cbn [ClaudeFormat.response_content ClaudeFormat.response_model
         ClaudeFormat.response_stop_reason].
    change (get "content" _) with
      (Some (JList (map JDict (ClaudeFormat._format_content_blocks (content message))))).
    cbv beta iota. rewrite omap_JDict, parse_format_blocks. cbn.
    by rewrite omap_id_map. }
  split; [done|]. intros Hall. by rewrite H, omap_returned.
Qed.

Lemma claude_format_messages_fold messages system_prompt formatted :
  fold_left ClaudeFormat.on_message messages (system_prompt, formatted)
  = (match last_system messages with Some c => Some c | None => system_prompt end,
     formatted ++ (fold_left ClaudeFormat.on_message messages (None, [])).2).
Proof.
  revert system_prompt formatted.
  induction messages as [|msg messages IH] using rev_ind; intros system_prompt formatted.
  { cbn. by rewrite app_nil_r. }
  rewrite !fold_left_app. cbn [fold_left].
  rewrite (IH system_prompt formatted), (IH None []).
  unfold last_system. rewrite omap_app.
  destruct msg; cbn [ClaudeFormat.on_message fst snd omap]; rewrite ?app_nil_r.
  - cbn. by rewrite app_assoc.
  - cbn. by rewrite app_assoc.
  - cbn. by rewrite last_snoc.
  - cbn. by rewrite app_assoc.
Qed.

Lemma claude_format_messages_snoc messages msg :
  (ClaudeFormat.format_messages (messages ++ [msg])).2
  = (ClaudeFormat.format_messages messages).2
    ++ (ClaudeFormat.on_message (None, []) msg).2.
Proof.
  unfold ClaudeFormat.format_messages. rewrite fold_left_app. cbn [fold_left].
  destruct (fold_left ClaudeFormat.on_message messages (None, [])) as [s f].
  destruct msg; cbn; by rewrite ?app_nil_r.
Qed.

(** X11. System messages in the Anthropic dialect. [format_messages]
    takes the SystemMessages out of the list: it returns the content of
    the last one as the system prompt (the earlier ones are dropped) and
    formats the other messages one for one and in order, tool messages
    under the role [user]. The request then carries
    [options.system_prompt] when that is set, whatever SystemMessages
    the history holds, and the last SystemMessage otherwise. *)
Theorem claude_system_messages messages options_system_prompt :
  (ClaudeFormat.format_messages messages).1 = last_system messages
  ∧ map (get "role") (ClaudeFormat.format_messages messages).2
    = map Some (omap claude_role messages)
  ∧ ClaudeFormat.request_system options_system_prompt messages
    = if truthy_str options_system_prompt then options_system_prompt
      else if truthy_str (last_system messages) then last_system messages
      else None.
Proof.
  assert ((ClaudeFormat.format_messages messages).1 = last_system messages) as Hsys.
  { unfold ClaudeFormat.format_messages. rewrite claude_format_messages_fold. cbn.
    by destruct (last_system messages). }
  split; [done|]. split.
  - clear Hsys. induction messages as [|msg messages IH] using rev_ind; [done|].
    rewrite claude_format_messages_snoc, map_app, omap_app, map_app.
    f_equal; [exact IH|]. destruct msg as [[?|?]|?|?|?]; reflexivity.
  - unfold ClaudeFormat.request_system. rewrite Hsys.
    destruct (truthy_str options_system_prompt); [by rewrite orb_true_r|].
    rewrite orb_false_r. by destruct (truthy_str (last_system messages)).
Qed.

(** *** OpenAI dialect *)

Section OpenAIFacts.
Context (dumps : json -> string) (loads : string -> option json).

Lemma on_block_fold blocks text calls :
  fold_left (OpenAIFormat.on_block dumps) blocks (text, calls)
  = (text +:+ message_text blocks, calls ++ map (OpenAIFormat.tool_call dumps) (tool_uses_in blocks)).
Proof.
  revert text calls. induction blocks as [|block blocks IH]; intros text calls.
  { cbn. unfold message_text. cbn.
    by rewrite StreamProofs.join_nil, StreamProofs.append_nil_r, app_nil_r. }
  cbn [fold_left]. destruct block as [t| | |b|]; cbn [OpenAIFormat.on_block fst snd];
    rewrite IH; unfold message_text, tool_uses_in; cbn.
  - by rewrite StreamProofs.join_cons, StreamProofs.append_assoc.
  - done.
  - done.
  - by rewrite <- app_assoc.
  - done.
Qed.

Lemma format_assistant_message message :
  OpenAIFormat._format_assistant_message dumps message
  = [("role", JStr "assistant")]
    ++ (if negb (String.eqb (message_text (content message)) "")
        then [("content", JStr (message_text (content message)))] else [])
    ++ (if negb (Nat.eqb (length (Client.tool_uses_of message)) 0)
        then [("tool_calls", JList (map (OpenAIFormat.tool_call dumps) (Client.tool_uses_of message)))]
        else []).
Proof.
  unfold OpenAIFormat._format_assistant_message. rewrite on_block_fold.
  rewrite StreamProofs.append_nil_l. cbn [app]. by rewrite length_map.
Qed.

Lemma tool_call_ids_assistant message :
  tool_call_ids (OpenAIFormat._format_assistant_message dumps message)
  = map id (Client.tool_uses_of message).
Proof.
  rewrite format_assistant_message. unfold tool_call_ids.
  assert (∀ l,
            omap (fun c =>
                    match c with
                    | JDict d =>
                        match get "id" d with Some (JStr i) => Some i | _ => None end
                    | _ => None
                    end) (map (OpenAIFormat.tool_call dumps) l) = map id l) as Hids.
  { induction l as [|x l IH]; cbn; [done|]. by rewrite IH. }
  destruct (negb (String.eqb (message_text (content message)) ""));
    destruct (Client.tool_uses_of message) as [|t ts]; try done.
  - apply (Hids (t :: ts)).
  - apply (Hids (t :: ts)).
Qed.

Lemma role_assistant message :
  str_at "role" (OpenAIFormat._format_assistant_message dumps message) = Some "assistant".
Proof. by rewrite format_assistant_message. Qed.

Lemma answered_results complete (results : list ToolMessage) rest :
  answered complete (map tool_call_id results)
    (OpenAIFormat.format_messages dumps (map Tool results) ++ rest)
  = answered complete [] rest.
Proof.
  induction results as [|m results IH]; [done|].
  cbn [map OpenAIFormat.format_messages app]. cbn [answered].
  change (str_at "role" (OpenAIFormat.format_message dumps (Tool m))) with (Some "tool").
  change (str_at "tool_call_id" (OpenAIFormat.format_message dumps (Tool m)))
    with (Some (tool_call_id m)).
  rewrite !bool_decide_eq_true_2 by done. cbn. exact IH.
Qed.

Lemma answered_prefix (results : list ToolMessage) ids :
  map tool_call_id results `prefix_of` ids ->
  answered false ids (OpenAIFormat.format_messages dumps (map Tool results)) = true.
Proof.
  revert ids. induction results as [|m results IH]; intros ids Hp; [done|].
  destruct Hp as [more ->]. cbn [map OpenAIFormat.format_messages app]. cbn [answered].
  change (str_at "role" (OpenAIFormat.format_message dumps (Tool m))) with (Some "tool").
  change (str_at "tool_call_id" (OpenAIFormat.format_message dumps (Tool m)))
    with (Some (tool_call_id m)).
  rewrite !bool_decide_eq_true_2 by done. cbn. apply IH. by eexists.
Qed.

Lemma ended_at_prefix options _session_id tool_uses exn (results : list ToolMessage) :
  Spec.EndedAt options _session_id tool_uses exn results ->
  map tool_call_id results `prefix_of` map id tool_uses.
Proof.
  intros (before & tool_use & after & first & last & -> & -> & Hids & _ & Hat).
  rewrite !map_app, Hids. apply prefix_app. cbn [map].
  inversion Hat as [|m _ Hm _|]; subst; cbn [map]; [apply prefix_nil| |apply prefix_nil].
  rewrite Hm. apply prefix_cons, prefix_nil.
Qed.

Lemma covered_answered full cut suffix :
  (∀ response results,
     cut response results ->
     map tool_call_id results `prefix_of` map id (Client.tool_uses_of response)) ->
  Spec.Covered full cut suffix ->
  answered false [] (OpenAIFormat.format_messages dumps suffix) = true
  ∧ (answered true [] (OpenAIFormat.format_messages dumps suffix) = true
     ∨ ∃ front response (results : list ToolMessage),
         suffix = front ++ Assistant response :: map Tool results
         ∧ cut response results).
Proof.
  intros Hprefix.
  induction 1 as [|response results rest Hids _ _ [IH1 IH2]|response results Hcut].
  - split; [done|by left].
  - unfold OpenAIFormat.format_messages. rewrite map_cons, map_app.
    cbn [answered OpenAIFormat.format_message].
    rewrite role_assistant, tool_call_ids_assistant, <- Hids.
    rewrite bool_decide_eq_false_2 by done.
    split.
    + cbn. rewrite (answered_results false). exact IH1.
    + cbn. rewrite (answered_results true).
      destruct IH2 as [IH2|(front & response' & results' & -> & Hcut)]; [by left|].
      right. exists (Assistant response :: map Tool results ++ front), response', results'.
      split; [|done]. cbn. by rewrite <- app_assoc.
  - unfold OpenAIFormat.format_messages. rewrite map_cons.
    cbn [answered OpenAIFormat.format_message].
    rewrite role_assistant, tool_call_ids_assistant.
    rewrite bool_decide_eq_false_2 by done.
    split.
    + cbn. apply answered_prefix. by apply Hprefix.
    + right. by exists [], response, results.
Qed.

End OpenAIFacts.

Local Arguments OpenAIFormat.parse_tool_call : simpl never.

(** X12. Round trip of the OpenAI dialect. Parsing a vendor completion
    whose message is what [_format_assistant_message] made of an
    assistant message gives, provided [json.loads] reads back what
    [json.dumps] wrote for the inputs of its tool uses: one TextBlock
    holding the texts of all its TextBlocks joined, when that is not
    empty, followed by its tool uses in order. Thinking, image and
    tool-result blocks are gone, and text that stood after a tool use
    now stands before it. *)
Theorem openai_round_trip dumps loads message model finish_reason :
  Forall (fun t => loads (dumps (input t)) = Some (input t)) (Client.tool_uses_of message) ->
  OpenAIFormat.parse_response loads
    (openai_echo (OpenAIFormat._format_assistant_message dumps message) model finish_reason)
  = Some {| content :=
              (if negb (String.eqb (message_text (content message)) "")
               then [TextBlock (message_text (content message))] else [])
              ++ map ToolUse (Client.tool_uses_of message);
            Types.model := model;
            finish_reason := OpenAI._map_finish_reason finish_reason |}.
Proof.
  intros Hloads. rewrite format_assistant_message.
  unfold OpenAIFormat.parse_response, openai_echo.
  cbn [OpenAIFormat.completion_choices OpenAIFormat.choice_message
       OpenAIFormat.message_content OpenAIFormat.message_tool_calls
       OpenAIFormat.completion_model OpenAIFormat.completion_finish_reason].
  assert (mapM (OpenAIFormat.parse_tool_call loads)
            (omap call_of (map (OpenAIFormat.tool_call dumps) (Client.tool_uses_of message)))
          = Some (map ToolUse (Client.tool_uses_of message))) as Hcalls.
  { induction Hloads as [|t ts Ht _ IH]; [done|].
    assert (OpenAIFormat.parse_tool_call loads
              {| OpenAIFormat.call_id := id t;
                 OpenAIFormat.call_function :=
                   {| OpenAIFormat.function_name := name t;
                      OpenAIFormat.function_arguments := dumps (input t) |} |}
            = Some (ToolUse t)) as Hcall.
    { unfold OpenAIFormat.parse_tool_call. cbn. rewrite Ht. by destruct t. }
    cbn. rewrite Hcall. cbn. cbn in IH. by rewrite IH. }
  destruct (String.eqb (message_text (content message)) "") eqn:Htext;
    destruct (Client.tool_uses_of message) as [|t ts] eqn:Htools;
    cbn - [mapM omap map]; rewrite ?Htext, ?Hcalls; done.
Qed.

Lemma openai_round_trip_witness :
  OpenAIFormat.parse_response Scenarios.loads
    (openai_echo
       (OpenAIFormat._format_assistant_message Scenarios.dumps
          (Scenarios.assistant
             [ThinkingBlock "hm" None;
              ToolUse {| id := "t1"; name := "now"; input := JDict [] |};
              TextBlock "One moment."] TOOL_USE))
       (Some "gpt-4o") (Some "tool_calls"))
  = Some {| content := [TextBlock "One moment.";
                        ToolUse {| id := "t1"; name := "now"; input := JDict [] |}];
            model := Some "gpt-4o";
            finish_reason := Some TOOL_USE |}.
Proof.
  apply (openai_round_trip Scenarios.dumps Scenarios.loads
           (Scenarios.assistant
              [ThinkingBlock "hm" None;
               ToolUse {| id := "t1"; name := "now"; input := JDict [] |};
               TextBlock "One moment."] TOOL_USE)
           (Some "gpt-4o") (Some "tool_calls")).
  repeat constructor.
Defined.


(** *** The providers under the loop *)

Section QuietProvider.
Context (options : AgentOptions) (_session_id : string) (dumps : json -> string).
Context (provider : Client.BaseProvider).
Hypothesis quiet : ∀ n h, (Client.provider_stream provider n h).2 = None.
Hypothesis present :
  ∀ n h, Client.last_response (Client.provider_stream provider n h).1 ≠ None.
Hypothesis permits : Spec.callback_returns options.

Lemma stream_loop_quiet fuel max_turns turns st g :
  Client.stream_loop options _session_id dumps provider fuel max_turns turns st = Some g ->
  Client.raised g = None.
Proof.
  revert turns st g. induction fuel as [|fuel IH]; intros turns st g.
  all: cbn [Client.stream_loop]; destruct (turns <? max_turns)%Z.
  1,2,4: by intros [= <-].
  pose proof (quiet (Client.provider_calls st) (Client._messages st)) as Hq.
  destruct (Client.provider_stream provider (Client.provider_calls st) (Client._messages st))
    as [msgs exn]. cbn in Hq. subst exn.
  destruct (Client.last_response msgs) as [response|]; [|by intros [= <-]].
  destruct (Client.tool_uses_of response) as [|tool_use rest]; [by intros [= <-]|].
  pose proof (LoopProofs._execute_tools_with_events_history options _session_id dumps
                (tool_use :: rest)
                (Client.append (Assistant response) (Client.count_provider_call st)))
    as (results & _ & _ & _ & Hret).
  destruct (Client._execute_tools_with_events options _session_id dumps
              (tool_use :: rest) _) as [[events exn] st2].
  unfold Spec.return_value in Hret. cbn [fst snd] in Hret.
  destruct exn as [e|].
  { cbv beta iota in Hret.
    destruct Hret as (before & tool_use' & after & first & last & _ & _ & _ & _ & Hat).
    inversion Hat as [| |e' _ (callback & Hcb & Hraise)]; subst.
    by destruct (permits _ _ _ _ _ Hcb Hraise). }
  destruct (Client.should_continue_of events); [|by intros [= <-]].
  destruct (Client.stream_loop options _session_id dumps provider fuel max_turns
              (turns + 1) st2) as [g'|] eqn:Hg; [|done].
  intros [= <-]. cbn. by eapply IH.
Qed.

Lemma streaming_receive_ends_with_result connected st :
  ∃ r front res,
    Client.receive options _session_id dumps provider
      {| Client._connected := connected;
         Client.state := st;
         Client._pending_response := Some Client.StreamWithTools |} = Some r
    ∧ Client.received r = front ++ [AResult res]
    ∧ Forall (fun m => isinstance_ResultMessage m = false) front
    ∧ Client.receive_raised r = None
    ∧ Client._pending_response (Client.client r) = None.
Proof.
  unfold Client.receive. cbn [Client._pending_response Client.state Client._connected].
  destruct (LoopProofs.run_pending_inv options _session_id dumps provider
              Client.StreamWithTools st) as (g & Hg & _ & Hinv).
  rewrite Hg. cbn [mbind option_bind].
  destruct (Hinv ltac:(done)) as (calls & suffix & _ & _ & _ & _ & _ & I6 & _).
  assert (Client.raised g = None) as Hquiet by (by eapply stream_loop_quiet).
  assert (Exists (fun m => isinstance_ResultMessage m = true) (Client.yielded g)) as Hex.
  { apply I6; [done|]. by right. }
  pose proof (LoopProofs.until_result_last (Client.yielded g)) as Hlast.
  apply LoopProofs.until_result_found in Hex as (front & res & Hf & _).
  rewrite Hf in Hlast |- *. cbn [fst] in Hlast.
  eexists _, front, res. split; [done|]. cbn. repeat split.
  apply Forall_lookup. intros i m Hi.
  destruct (isinstance_ResultMessage m) eqn:Hm; [|done].
  pose proof (lookup_lt_Some _ _ _ Hi) as Hlt.
  specialize (Hlast i m). rewrite lookup_app_l in Hlast by done.
  specialize (Hlast Hi Hm). rewrite length_app in Hlast. cbn in Hlast. lia.
Qed.

End QuietProvider.



End FormatProofs.

Module ApiProofs.
Import SessionManager Api ApiSpec.

Lemma cleanup_session_sessions sid self :
  sessions (cleanup_session sid self) = delete sid (sessions self).
Proof.
  unfold cleanup_session. destruct (sessions self !! sid) eqn:Hs; [done|].
  by rewrite delete_id.
Qed.

Lemma cleanup_session_manager sid self :
  _container_manager (cleanup_session sid self) = _container_manager self.
Proof. unfold cleanup_session. by destruct (sessions self !! sid). Qed.

Lemma cleanup_session_calls sid self :
  stop_calls (cleanup_session sid self)
  = stop_calls self
    ++ match sessions self !! sid, _container_manager self with
       | Some s, Some _ => [(sid, container_info s)]
       | _, _ => []
       end.
Proof.
  unfold cleanup_session.
  destruct (sessions self !! sid); destruct (_container_manager self); simpl;
    by rewrite ?app_nil_r.
Qed.

Lemma cleanup_all_manager ids self :
  _container_manager (cleanup_all ids self) = _container_manager self.
Proof.
  revert self. induction ids as [|i ids IH]; intros self; [done|].
  change (cleanup_all (i :: ids) self) with (cleanup_all ids (cleanup_session i self)).
  by rewrite IH, cleanup_session_manager.
Qed.

Lemma cleanup_all_sessions ids self sid :
  sessions (cleanup_all ids self) !! sid
  = if decide (sid ∈ ids) then None else sessions self !! sid.
Proof.
  revert self. induction ids as [|i ids IH]; intros self.
  { destruct (decide (sid ∈ [])) as [H%elem_of_nil|]; done. }
  change (cleanup_all (i :: ids) self) with (cleanup_all ids (cleanup_session i self)).
  rewrite IH, cleanup_session_sessions.
  destruct (decide (sid ∈ ids)) as [Hin|Hnin];
    destruct (decide (sid ∈ i :: ids)) as [Hin'|Hnin']; try done.
  - exfalso. apply Hnin'. by right.
  - apply elem_of_cons in Hin' as [->|?]; [|done]. by rewrite lookup_delete_eq.
  - rewrite lookup_delete_ne; [done|]. intros ->. apply Hnin'. by left.
Qed.

Lemma cleanup_session_stops i self sid :
  is_Some (_container_manager self) ->
  stops_of sid (cleanup_session i self)
  = (stops_of sid self
     + if decide (i = sid) then (if sessions self !! sid is Some _ then 1 else 0) else 0)%nat.
Proof.
  intros [cm Hcm]. unfold stops_of at 1. rewrite cleanup_session_calls, Hcm.
  destruct (decide (i = sid)) as [->|Hne].
  - destruct (sessions self !! sid) as [s|].
    + rewrite SessionProofs.stops_of_snoc. by rewrite String.eqb_refl.
    + rewrite app_nil_r. unfold stops_of. lia.
  - destruct (sessions self !! i) as [s|].
    + rewrite SessionProofs.stops_of_snoc.
      by destruct (String.eqb_spec i sid).
    + rewrite app_nil_r. unfold stops_of. lia.
Qed.

(** A sequence of cleanups over distinct ids stops the container of
    each session it removes once. *)
Lemma cleanup_all_stops ids self sid :
  NoDup ids -> is_Some (_container_manager self) ->
  stops_of sid (cleanup_all ids self)
  = (stops_of sid self
     + if decide (sid ∈ ids) then (if sessions self !! sid is Some _ then 1 else 0) else 0)%nat.
Proof.
  revert self. induction ids as [|i ids IH]; intros self Hnd Hcm.
  { destruct (decide (sid ∈ [])) as [H%elem_of_nil|]; [done|]. simpl. lia. }
  change (cleanup_all (i :: ids) self) with (cleanup_all ids (cleanup_session i self)).
  apply NoDup_cons in Hnd as [Hi Hnd].
  rewrite IH; [|done|by rewrite cleanup_session_manager].
  rewrite cleanup_session_stops by done. rewrite cleanup_session_sessions.
  destruct (decide (i = sid)) as [->|Hne];
    destruct (decide (sid ∈ ids)) as [Hin|Hnin];
    destruct (decide (sid ∈ _ :: ids)) as [Hin'|Hnin']; try done; try lia.
  - exfalso. apply Hnin'. by left.
  - rewrite lookup_delete_ne by done. lia.
  - exfalso. apply Hnin'. by right.
  - apply elem_of_cons in Hin' as [->|?]; done.
Qed.

Lemma cleanup_all_calls_grow ids self call :
  call ∈ stop_calls self -> call ∈ stop_calls (cleanup_all ids self).
Proof.
  revert self. induction ids as [|i ids IH]; intros self Hin; [done|].
  change (cleanup_all (i :: ids) self) with (cleanup_all ids (cleanup_session i self)).
  apply IH. rewrite cleanup_session_calls. apply elem_of_app. by left.
Qed.

Lemma cleanup_all_handle ids self sid s :
  is_Some (_container_manager self) ->
  sid ∈ ids -> sessions self !! sid = Some s ->
  (sid, container_info s) ∈ stop_calls (cleanup_all ids self).
Proof.
  revert self. induction ids as [|i ids IH]; intros self Hcm Hin Hs.
  { by apply elem_of_nil in Hin. }
  change (cleanup_all (i :: ids) self) with (cleanup_all ids (cleanup_session i self)).
  destruct (decide (i = sid)) as [->|Hne].
  - apply cleanup_all_calls_grow. rewrite cleanup_session_calls, Hs.
    destruct Hcm as [cm ->]. apply elem_of_app. right. by left.
  - apply elem_of_cons in Hin as [->|Hin]; [done|].
    apply IH; [by rewrite cleanup_session_manager|done|].
    by rewrite cleanup_session_sessions, lookup_delete_ne.
Qed.

(** The walk of the dict meets every entry once. *)
Lemma elem_of_items self k s : (k, s) ∈ items self ↔ sessions self !! k = Some s.
Proof.
  unfold items. rewrite merge_sort_Permutation. apply elem_of_map_to_list.
Qed.

Lemma NoDup_fst_items self : NoDup (items self).*1.
Proof.
  unfold items. rewrite merge_sort_Permutation. apply NoDup_fst_map_to_list.
Qed.

Lemma idle_ids timeout now self sid :
  sid ∈ omap (fun '(session_id, session) =>
                if (timeout <? now - last_activity session)%Z
                then Some session_id else None) (items self)
  ↔ ∃ s, sessions self !! sid = Some s ∧ idle timeout now s = true.
Proof.
  rewrite list_elem_of_omap. split.
  - intros ([k s] & Hin & Hidle). apply elem_of_items in Hin.
    unfold idle. destruct (timeout <? now - last_activity s)%Z eqn:E; [|done].
    injection Hidle as ->. eauto.
  - intros (s & Hs & Hidle). exists (sid, s). split; [by apply elem_of_items|].
    unfold idle in Hidle. by rewrite Hidle.
Qed.

Lemma idle_ids_NoDup timeout now self :
  NoDup (omap (fun '(session_id, session) =>
                 if (timeout <? now - last_activity session)%Z
                 then Some session_id else None) (items self)).
Proof.
  pose proof (NoDup_fst_items self) as Hnd.
  induction (items self) as [|[k s] l IH]; simpl; [constructor|].
  cbn in Hnd. apply NoDup_cons in Hnd as [Hk Hnd].
  destruct (timeout <? now - last_activity s)%Z; [|by apply IH].
  apply NoDup_cons. split; [|by apply IH].
  intros Hin. apply Hk. apply list_elem_of_omap in Hin as ([k' s'] & Hin & Heq).
  destruct (timeout <? now - last_activity s')%Z; [|done]. injection Heq as ->.
  apply list_elem_of_fmap. by exists (k, s').
Qed.

(** X15. Idle eviction removes exactly the idle sessions. With the
    container manager attached, [_cleanup_idle_sessions] removes a
    session if and only if its last activity is more than the timeout
    ago (a session idle for exactly the timeout stays); it stops the
    container of each session it removes exactly once, on the handle
    of that session, after which [get_session] raises
    SessionNotFoundError for it; every other session is left as it
    was and none of their containers is stopped. *)
Theorem idle_eviction_exact timeout now self sid :
  is_Some (_container_manager self) ->
  let self' := _cleanup_idle_sessions timeout now self in
  match sessions self !! sid with
  | Some s =>
      if (timeout <? now - last_activity s)%Z
      then get_session sid self'
           = inr {| Types.error_type := "SessionNotFoundError";
                    Types.error := "Session not found: " +:+ sid |}
           ∧ stops_of sid self' = S (stops_of sid self)
           ∧ (sid, container_info s) ∈ stop_calls self'
      else get_session sid self' = inl s
           ∧ stops_of sid self' = stops_of sid self
  | None => sessions self' !! sid = None ∧ stops_of sid self' = stops_of sid self
  end.
Proof.
  intros Hcm self'. unfold self', _cleanup_idle_sessions, get_session.
  rewrite cleanup_all_sessions, cleanup_all_stops by (done || apply idle_ids_NoDup).
  pose proof (idle_ids timeout now self sid) as Hidle. unfold idle in Hidle.
  destruct (sessions self !! sid) as [s|] eqn:Hs.
  - destruct (timeout <? now - last_activity s)%Z eqn:E.
    + assert (sid ∈ omap (fun '(session_id, session) =>
                 if (timeout <? now - last_activity session)%Z
                 then Some session_id else None) (items self)) as Hin
        by (apply Hidle; eauto).
      rewrite !decide_True by done. split; [done|]. split; [lia|].
      by apply cleanup_all_handle.
    + assert (sid ∉ omap (fun '(session_id, session) =>
                 if (timeout <? now - last_activity session)%Z
                 then Some session_id else None) (items self)) as Hnin.
      { intros (s' & Hs' & E')%Hidle. congruence. }
      rewrite !decide_False by done. split; [done|lia].
  - assert (sid ∉ omap (fun '(session_id, session) =>
               if (timeout <? now - last_activity session)%Z
               then Some session_id else None) (items self)) as Hnin.
    { intros (s' & Hs' & E')%Hidle. congruence. }
    rewrite !decide_False by done. split; [done|lia].
Qed.

Lemma idle_eviction_exact_witness :
  get_session "sess-0123456789ab"
    (_cleanup_idle_sessions 30 135 Scenarios.one_session)
  = inr {| Types.error_type := "SessionNotFoundError";
           Types.error := "Session not found: sess-0123456789ab" |}
  ∧ stops_of "sess-0123456789ab" (_cleanup_idle_sessions 30 135 Scenarios.one_session)
    = 1%nat
  ∧ get_session "sess-0123456789ab"
      (_cleanup_idle_sessions 30 130 Scenarios.one_session)
    = get_session "sess-0123456789ab" Scenarios.one_session.
Proof.
  pose proof (idle_eviction_exact 30 135 Scenarios.one_session "sess-0123456789ab"
                ltac:(by eexists)) as H1.
  pose proof (idle_eviction_exact 30 130 Scenarios.one_session "sess-0123456789ab"
                ltac:(by eexists)) as H2.
  cbv zeta in H1, H2.
  change (sessions Scenarios.one_session !! "sess-0123456789ab")
    with (Some (SessionManager.create_session "0123456789abcdef" "fedcba9876543210" 100 101
                  "key" None "Agent" {[ "container_id" := "c1" ]}
                  (SessionManager.set_container_manager Scenarios.docker
                     SessionManager.__init__)).1) in H1, H2.
  cbn beta iota in H1, H2.
  change (30 <? 135 - _)%Z with true in H1.
  change (30 <? 130 - _)%Z with false in H2.
  cbn beta iota in H1, H2.
  destruct H1 as (H1 & H1' & _). destruct H2 as (H2 & _).
  split; [exact H1|]. split; [exact H1'|].
  rewrite H2. reflexivity.
Defined.

(** X16. Shutdown leaves no session behind. With the container
    manager attached, [stop] empties the session map and stops the
    container of every session that was in it exactly once. *)
Theorem stop_cleans_every_session self sid :
  is_Some (_container_manager self) ->
  sessions (stop self) = ∅
  ∧ stops_of sid (stop self)
    = (stops_of sid self + if sessions self !! sid is Some _ then 1 else 0)%nat.
Proof.
  intros Hcm. unfold stop.
  assert (∀ k, k ∈ (items self).*1 ↔ is_Some (sessions self !! k)) as Hdom.
  { intros k. rewrite list_elem_of_fmap. split.
    - intros ([k' s] & -> & Hin). apply elem_of_items in Hin. by eexists.
    - intros [s Hs]. exists (k, s). split; [done|]. by apply elem_of_items. }
  split.
  - apply map_eq. intros k. rewrite cleanup_all_sessions, lookup_empty.
    destruct (decide (k ∈ (items self).*1)) as [|Hnin]; [done|].
    destruct (sessions self !! k) eqn:Hk; [|done].
    exfalso. apply Hnin, Hdom. by eexists.
  - rewrite cleanup_all_stops by (done || apply NoDup_fst_items).
    destruct (decide (sid ∈ (items self).*1)) as [|Hnin]; [done|].
    destruct (sessions self !! sid) eqn:Hk; [|done].
    exfalso. apply Hnin, Hdom. by eexists.
Qed.

Lemma stop_cleans_every_session_witness :
  sessions (stop Scenarios.one_session) = ∅
  ∧ stops_of "sess-0123456789ab" (stop Scenarios.one_session) = 1%nat.
Proof.
  destruct (stop_cleans_every_session Scenarios.one_session "sess-0123456789ab"
              ltac:(by eexists)) as [H1 H2].
  split; [exact H1|]. rewrite H2. reflexivity.
Defined.

(** *** The routes *)

Lemma cleanup_session_kept (P : string -> AgentSession -> Prop) sid self :
  map_Forall P (sessions self) -> map_Forall P (sessions (cleanup_session sid self)).
Proof.
  intros H. rewrite cleanup_session_sessions.
  intros k s Hk. apply lookup_delete_Some in Hk as [_ Hk]. by apply H.
Qed.

Lemma cleanup_all_kept (P : string -> AgentSession -> Prop) ids self :
  map_Forall P (sessions self) -> map_Forall P (sessions (cleanup_all ids self)).
Proof.
  revert self. induction ids as [|i ids IH]; intros self H; [done|].
  change (cleanup_all (i :: ids) self) with (cleanup_all ids (cleanup_session i self)).
  by apply IH, cleanup_session_kept.
Qed.

Lemma alter_kept (P : string -> AgentSession -> Prop) (f : AgentSession -> AgentSession)
    sid (m : gmap string AgentSession) :
  (∀ s, P sid s -> P sid (f s)) ->
  map_Forall P m -> map_Forall P (alter f sid m).
Proof.
  intros Hf H k s Hk. destruct (decide (k = sid)) as [->|Hne].
  - rewrite lookup_alter_eq in Hk.
    destruct (m !! sid) as [s0|] eqn:Hs; [|done]. injection Hk as <-.
    apply Hf. by apply H.
  - rewrite lookup_alter_ne in Hk by done. by apply H.
Qed.

Section Served.
Context (execute_query :
           gmap string string -> string -> list (string * string * Z) ->
           list string * option Types.Exception).

(** Where a session found in the map after a request comes from: it
    was there before, unchanged; or the request is a launch and it is
    the session created, with or without its container handle; or the
    request is a chat for it and it has the message added, and is
    touched when the query did not fail. *)
Lemma serve_sessions request self k s' :
  sessions (serve execute_query request self) !! k = Some s' ->
  sessions self !! k = Some s'
  ∨ (∃ loaded uuid1 uuid2 now now' key created cid cname,
       request = Launch loaded uuid1 uuid2 now now' key created
       ∧ k = "sess-" +:+ String.substring 0 12 uuid1
       ∧ let new := (create_session uuid1 uuid2 now now' key cid cname ∅ self).1 in
         s' = new ∨ ∃ info, s' = set_container_info info new)
  ∨ (∃ message timestamp now later s,
       request = Chat k message timestamp now later
       ∧ sessions self !! k = Some s
       ∧ (s' = add_message "user" message timestamp now s
          ∨ s' = touched later (add_message "user" message timestamp now s))).
Proof.
  destruct request as [loaded uuid1 uuid2 now now' key created
                      |sid message timestamp now later|sid|timeout now|]; simpl.
  - unfold launch_agent. destruct loaded as [config|e]; [|by left].
    destruct created as [info|e]; simpl.
    + intros Hk. destruct (decide (k = "sess-" +:+ String.substring 0 12 uuid1)) as [->|Hne].
      * rewrite lookup_alter_eq, lookup_insert_eq in Hk. injection Hk as <-.
        right. left. eexists _, _, _, _, _, _, _, _, _. split; [done|]. split; [done|].
        right. by eexists.
      * rewrite lookup_alter_ne, lookup_insert_ne in Hk by done. by left.
    + intros Hk. destruct (decide (k = "sess-" +:+ String.substring 0 12 uuid1)) as [->|Hne].
      * rewrite lookup_insert_eq in Hk. injection Hk as <-.
        right. left. eexists _, _, _, _, _, _, _, _, _. split; [done|]. split; [done|].
        by left.
      * rewrite lookup_insert_ne in Hk by done. by left.
  - unfold stream_response, get_session.
    destruct (sessions self !! sid) as [s|] eqn:Hs; [|by left].
    destruct (execute_query _ _ _) as [lines [e|]]; simpl.
    + intros Hk. destruct (decide (k = sid)) as [->|Hne].
      * rewrite lookup_alter_eq, Hs in Hk. injection Hk as <-.
        right. right. eexists _, _, _, _, _. split; [done|]. split; [done|]. by left.
      * rewrite lookup_alter_ne in Hk by done. by left.
    + intros Hk. destruct (decide (k = sid)) as [->|Hne].
      * rewrite !lookup_alter_eq, Hs in Hk. injection Hk as <-.
        right. right. eexists _, _, _, _, _. split; [done|]. split; [done|]. by right.
      * rewrite !lookup_alter_ne in Hk by done. by left.
  - unfold stop_session, get_session.
    destruct (sessions self !! sid) as [s|] eqn:Hs; [|by left]. simpl.
    rewrite cleanup_session_sessions. intros [_ Hk]%lookup_delete_Some. by left.
  - unfold _cleanup_idle_sessions. rewrite cleanup_all_sessions.
    case_decide; [done|]. by left.
  - unfold stop. rewrite cleanup_all_sessions. case_decide; [done|]. by left.
Qed.

Lemma serve_all_snoc requests request self :
  serve_all execute_query (requests ++ [request]) self
  = serve execute_query request (serve_all execute_query requests self).
Proof. unfold serve_all. by rewrite fold_left_app. Qed.

(** X17. The session history holds the user's messages only. Whatever
    requests the server has served since it started (launches, chats,
    stops, eviction passes, shutdown) and whatever the containers
    answered, every session in the map is stored under its own id, its
    [message_count] is the length of its [conversation_history], and
    every entry of that history has the role [user]: the replies
    streamed back by the container are never recorded. *)
Theorem history_holds_user_messages cm requests :
  map_Forall well_kept (sessions (serve_all execute_query requests (started cm))).
Proof.
  induction requests as [|request requests IH] using rev_ind.
  { intros k s Hk. cbn in Hk. by rewrite lookup_empty in Hk. }
  rewrite serve_all_snoc. intros k s' Hk.
  apply serve_sessions in Hk
    as [Hk|[(loaded & uuid1 & uuid2 & now & now' & key & created & cid & cname
             & -> & -> & Hnew)
           |(message & timestamp & now & later & s & -> & Hs & Hnew)]].
  - by apply IH.
  - cbv zeta in Hnew. destruct Hnew as [->|[info ->]]; repeat split; constructor.
  - destruct (IH _ _ Hs) as (H1 & H2 & H3).
    destruct Hnew as [->| ->]; (split; [done|]); simpl;
      (split; [rewrite length_app; simpl; lia|]);
      apply Forall_app; split; try done; by repeat constructor.
Qed.

Lemma created_before_active_step t t' request self :
  advance t request = Some t' ->
  map_Forall (fun _ s => (created_at s ≤ last_activity s ≤ t)%Z) (sessions self) ->
  map_Forall (fun _ s => (created_at s ≤ last_activity s ≤ t')%Z)
    (sessions (serve execute_query request self)).
Proof.
  intros Hadv Hinv k s' Hk.
  assert (t ≤ t')%Z as Hle.
  { destruct request; simpl in Hadv; repeat case_match; simplify_eq; lia. }
  apply serve_sessions in Hk
    as [Hk|[(loaded & uuid1 & uuid2 & now & now' & key & created & cid & cname
             & -> & -> & Hnew)
           |(message & timestamp & now & later & s & -> & Hs & Hnew)]].
  - specialize (Hinv _ _ Hk). simpl in Hinv. lia.
  - simpl in Hadv. destruct (Z.leb_spec t now); [|done].
    destruct (Z.leb_spec now now'); [|done]. injection Hadv as <-.
    cbv zeta in Hnew. destruct Hnew as [->|[info ->]]; simpl; lia.
  - specialize (Hinv _ _ Hs). simpl in Hinv, Hadv.
    destruct (Z.leb_spec t timestamp); [|done].
    destruct (Z.leb_spec timestamp now); [|done].
    destruct (Z.leb_spec now later); [|done]. simpl in Hadv. injection Hadv as <-.
    destruct Hnew as [->| ->]; simpl; lia.
Qed.

(** X18. A session is never active before it was created. When the
    clock readings taken while serving the requests do not go back in
    time (the two readings that creating a session takes, one for
    [created_at] and then one for [last_activity], included), every
    session in the map has [created_at <= last_activity], and neither
    lies after the last reading. *)
Theorem created_before_active cm requests t0 t :
  chronological t0 requests = Some t ->
  map_Forall (fun _ s => (created_at s ≤ last_activity s ≤ t)%Z)
    (sessions (serve_all execute_query requests (started cm))).
Proof.
  unfold serve_all.
  assert (∀ self,
    map_Forall (fun _ s => (created_at s ≤ last_activity s ≤ t0)%Z) (sessions self) ->
    chronological t0 requests = Some t ->
    map_Forall (fun _ s => (created_at s ≤ last_activity s ≤ t)%Z)
      (sessions (fold_left (fun m request => serve execute_query request m) requests self)))
    as Hgen.
  { revert t0. induction requests as [|request requests IH]; intros t0 self Hinv Hc.
    - simpl in Hc. by injection Hc as <-.
    - simpl in Hc. destruct (advance t0 request) as [t1|] eqn:Hadv; [|done].
      simpl. apply (IH t1); [|done]. by eapply created_before_active_step. }
  intros Hc. apply Hgen; [|done].
  intros k s Hk. cbn in Hk. by rewrite lookup_empty in Hk.
Qed.


(** X19. A chat queries the container with the history as it was. For
    a session in the map, [stream_response] hands the container the
    conversation history without the message being sent, yields the
    container's lines with a line break added to each, followed by an
    error line when the query failed, and leaves the session with the
    message appended to its history as a user message and counted,
    also when the query failed. For an id that is not in the map it
    yields the error line alone and changes nothing. *)
Theorem chat_sends_prior_history timestamp now later sid message self :
  let out := stream_response execute_query timestamp now later sid message self in
  match sessions self !! sid with
  | Some s =>
      let answer :=
        execute_query (container_info s) message (conversation_history s) in
      out.1 = map (fun line => line +:+ Client.newline) answer.1
              ++ match answer.2 with
                 | Some e =>
                     ["data: {'error': '" +:+ Types.error e +:+ "'}"
                      +:+ Client.newline +:+ Client.newline]
                 | None => []
                 end
      ∧ ∃ s',
          sessions out.2 !! sid = Some s'
          ∧ conversation_history s'
            = conversation_history s ++ [("user", message, timestamp)]
          ∧ message_count s' = S (message_count s)
          ∧ last_activity s' = (if answer.2 is Some _ then now else later)
  | None =>
      out = (["data: {'error': 'Session not found'}" +:+ Client.newline +:+ Client.newline],
             self)
  end.
Proof.
  cbv zeta. unfold stream_response, get_session.
  destruct (sessions self !! sid) as [s|] eqn:Hs; [|done].
  cbn [add_message conversation_history container_info].
  rewrite length_app. cbn [length]. rewrite Nat.add_sub, take_app_length.
  destruct (execute_query (container_info s) message (conversation_history s))
    as [lines [e|]]; cbn [fst snd].
  - split; [done|]. eexists. split; [cbn; by rewrite lookup_alter_eq, Hs|done].
  - split; [by rewrite app_nil_r|]. eexists.
    split; [cbn; by rewrite !lookup_alter_eq, Hs|done].
Qed.

End Served.

(** X20. A launch whose container cannot be created leaves its session
    behind. When [create_agent_container] raises, [launch_agent]
    answers with an HTTP error (404 for a FileNotFoundError, 500
    otherwise) but the session it created first stays in the map, with
    an empty container handle; stopping that session later calls
    [stop_container] on the empty handle. *)
Theorem failed_launch_leaves_session config uuid1 uuid2 now now' key e self :
  let sid := "sess-" +:+ String.substring 0 12 uuid1 in
  let out := launch_agent (inl config) uuid1 uuid2 now now' key (inr e) self in
  out.1 = HTTPException
            (if String.eqb (Types.error_type e) "FileNotFoundError" then 404 else 500)
            (Types.error e)
  ∧ (∃ s, get_session sid out.2 = inl s ∧ container_info s = ∅)
  ∧ (is_Some (_container_manager self) ->
     stop_calls (stop_session sid out.2).2 = stop_calls self ++ [(sid, ∅)]).
Proof.
  cbv zeta. unfold launch_agent, create_session, launch_error. cbn [fst snd].
  split; [by destruct (String.eqb _ _)|].
  unfold stop_session, get_session. cbn [sessions].
  rewrite lookup_insert_eq. split; [by eexists|].
  intros [cm Hcm]. cbn [snd]. rewrite cleanup_session_calls. cbn [sessions].
  rewrite lookup_insert_eq. cbn. by rewrite Hcm.
Qed.

(** When the clock is set back between the two readings of a launch,
    the session is created after its last activity. *)
Example created_after_active :
  ApiSpec.chronological 100 ApiFixtures.clock_set_back = None
  ∧ ∃ s,
      sessions (serve_all ApiFixtures.echo_query ApiFixtures.clock_set_back
                  (started Scenarios.docker)) !! "sess-0123456789ab" = Some s
      ∧ created_at s = 101%Z ∧ last_activity s = 100%Z.
Proof. split; [reflexivity|]. eexists. split; [vm_compute; reflexivity|]. done. Qed.

Lemma created_before_active_witness :
  map_Forall (fun _ s => (created_at s ≤ last_activity s ≤ 200)%Z)
    (sessions (serve_all ApiFixtures.echo_query ApiFixtures.one_day
                 (started Scenarios.docker))).
Proof.
  apply (created_before_active ApiFixtures.echo_query Scenarios.docker
           ApiFixtures.one_day 100 200).
  reflexivity.
Defined.


End ApiProofs.

Module ConfigApiProofs.
Import Types Config ConfigApi.

Lemma get_provider_config_lookup environ self provider key :
  get_provider_config environ self provider !! key
  = _get_value environ self provider key.
Proof.
  assert (∀ o : option string, truthy_str o = true -> is_Some o) as Htruthy
    by (intros [s|]; [by eexists|done]).
  assert (∀ d : option string, d ∪ d = d) as Hidem by (by intros [d|]).
  unfold get_provider_config, _get_value.
  rewrite !lookup_union, map_lookup_imap.
  destruct (get_dict (_overrides self) provider !! key) as [v|] eqn:Ho.
  { by rewrite !union_Some_l. }
  rewrite (left_id None _).
  destruct (get_dict PROVIDER_ENV_VARS provider !! key) as [var|] eqn:Hv; simpl.
  - destruct (truthy_str (match secret_fetcher self with
                          | Some fetch => if negb (var =? "") then fetch var else None
                          | None => None
                          end)) eqn:Hs.
    { apply Htruthy in Hs as [s ->]. by rewrite union_Some_l. }
    destruct (truthy_str (if negb (var =? "") then environ !! var else None)) eqn:He.
    { apply Htruthy in He as [s ->]. by rewrite union_Some_l. }
    apply Hidem.
  - rewrite (left_id None _). by destruct (secret_fetcher self).
Qed.

(** X21. [get_provider_config] is the table of [_get_value]. For every
    provider and every key, the dictionary [get_provider_config]
    returns holds under the key exactly what [_get_value] resolves for
    it (override, then secret, then environment variable, then
    default), and has no entry when [_get_value] returns [None]. *)
Theorem provider_config_is_resolution environ self provider key :
  get_provider_config environ self provider !! key
  = _get_value environ self provider key.
Proof.
  assert (∀ o : option string, truthy_str o = true -> is_Some o) as Htruthy
    by (intros [s|]; [by eexists|done]).
  assert (∀ d : option string, d ∪ d = d) as Hidem by (by intros [d|]).
  unfold get_provider_config, _get_value.
  rewrite !lookup_union, map_lookup_imap.
  destruct (get_dict (_overrides self) provider !! key) as [v|] eqn:Ho.
  { by rewrite !union_Some_l. }
  rewrite (left_id None _).
  destruct (get_dict PROVIDER_ENV_VARS provider !! key) as [var|] eqn:Hv; simpl.
  - destruct (truthy_str (match secret_fetcher self with
                          | Some fetch => if negb (var =? "") then fetch var else None
                          | None => None
                          end)) eqn:Hs.
    { apply Htruthy in Hs as [s ->]. by rewrite union_Some_l. }
    destruct (truthy_str (if negb (var =? "") then environ !! var else None)) eqn:He.
    { apply Htruthy in He as [s ->]. by rewrite union_Some_l. }
    apply Hidem.
  - rewrite (left_id None _). by destruct (secret_fetcher self).
Qed.

Lemma get_dict_set provider key value self provider' :
  get_dict (_overrides (set provider key value self)) provider'
  = if decide (provider = provider')
    then <[key := value]> (get_dict (_overrides self) provider)
    else get_dict (_overrides self) provider'.
Proof.
  unfold get_dict, set. simpl. case_decide as Hp.
  - subst. by rewrite lookup_insert_eq.
  - by rewrite lookup_insert_ne.
Qed.

(** X22. A value that was [set] wins over every other source. After
    [set(provider, key, value)] the key resolves to that value for that
    provider, whatever the secret fetcher, the environment and the
    defaults hold, both through [_get_value] and in the dictionary of
    [get_provider_config]; every other key, of this or another
    provider, resolves as it did before. *)
Theorem set_overrides_every_source environ self provider key value provider' key' :
  _get_value environ (set provider key value self) provider' key'
  = (if decide (provider = provider' ∧ key = key') then Some value
     else _get_value environ self provider' key')
  ∧ get_provider_config environ (set provider key value self) provider' !! key'
    = (if decide (provider = provider' ∧ key = key') then Some value
       else get_provider_config environ self provider' !! key').
Proof.
  assert (_get_value environ (set provider key value self) provider' key'
          = (if decide (provider = provider' ∧ key = key') then Some value
             else _get_value environ self provider' key')) as H.
  { unfold _get_value. rewrite get_dict_set.
    change (secret_fetcher (set provider key value self)) with (secret_fetcher self).
    destruct (decide (provider = provider')) as [->|Hp].
    - destruct (decide (key = key')) as [->|Hk].
      + rewrite lookup_insert_eq. by rewrite decide_True.
      + rewrite lookup_insert_ne by done. rewrite decide_False by (by intros [_ ?]). done.
    - rewrite decide_False by (by intros [? _]). done. }
  split; [done|]. rewrite !get_provider_config_lookup. done.
Qed.

Lemma azure_no_base_url_variable :
  get_dict PROVIDER_ENV_VARS "azure_openai" !! "base_url" = None
  ∧ get_dict DEFAULTS "azure_openai" !! "base_url" = None
  ∧ get_dict PROVIDER_ENV_VARS "azure_openai" !! "api_version"
    = Some "AZURE_OPENAI_API_VERSION"
  ∧ get_dict DEFAULTS "azure_openai" !! "api_version" = Some "2024-02-01".
Proof. repeat split; vm_compute; reflexivity. Qed.

(** X23. Through [Config] the Azure provider never falls back on its
    own API version. When the provider is built from the dictionary of
    [get_provider_config] and [_get_client] succeeds, the API version
    it uses is the one [_get_value] resolves; with no override and no
    secret fetcher that is the value of AZURE_OPENAI_API_VERSION when
    it is set and not empty, and 2024-02-01 otherwise, never the
    provider's 2024-02-15-preview. *)
Theorem azure_version_through_config environ self kwargs :
  AzureOpenAIProvider._get_client (get_provider_config environ self "azure_openai") environ
  = inl kwargs ->
  _get_value environ self "azure_openai" "api_version"
  = Some (AzureOpenAIProvider.api_version kwargs)
  ∧ (get_dict (_overrides self) "azure_openai" !! "api_version" = None ->
     secret_fetcher self = None ->
     AzureOpenAIProvider.api_version kwargs
     = if truthy_str (environ !! "AZURE_OPENAI_API_VERSION")
       then OpenAI.or_empty (environ !! "AZURE_OPENAI_API_VERSION")
       else "2024-02-01").
Proof.
  intros Hclient.
  apply ConfigProofs.azure_api_version_from_config in Hclient.
  rewrite get_provider_config_lookup in Hclient.
  destruct azure_no_base_url_variable as (_ & _ & Hvar & Hdef).
  assert (is_Some (_get_value environ self "azure_openai" "api_version")) as [v Hv].
  { assert (∀ o : option string, truthy_str o = true -> is_Some o) as Htruthy
      by (intros [s|]; [by eexists|done]).
    unfold _get_value. rewrite Hvar, Hdef.
    destruct (get_dict (_overrides self) "azure_openai" !! "api_version");
      [by eexists|].
    repeat match goal with
           | |- is_Some (if truthy_str ?o then _ else _) =>
               let E := fresh in destruct (truthy_str o) eqn:E; [by apply Htruthy|]
           end.
    by eexists. }
  rewrite Hv in Hclient. simpl in Hclient. subst v. split; [done|].
  intros Ho Hs. unfold _get_value in Hv. rewrite Ho, Hs, Hvar, Hdef in Hv. simpl in Hv.
  destruct (environ !! "AZURE_OPENAI_API_VERSION") as [s|]; simpl in *.
  - destruct (negb (s =? "")); by injection Hv.
  - by injection Hv.
Qed.

Lemma azure_version_through_config_witness :
  AzureOpenAIProvider._get_client
    (get_provider_config Scenarios.azure_environ ConfigFixtures.azure_ready "azure_openai")
    Scenarios.azure_environ
  = inl {| AzureOpenAIProvider.api_key := "k";
           AzureOpenAIProvider.azure_endpoint := "https://example.openai.azure.com";
           AzureOpenAIProvider.api_version := "2023-05-15" |}
  ∧ _get_value Scenarios.azure_environ ConfigFixtures.azure_ready "azure_openai" "api_version"
    = Some "2023-05-15".
Proof.
  split; [vm_compute; reflexivity|].
  apply (azure_version_through_config Scenarios.azure_environ ConfigFixtures.azure_ready
           {| AzureOpenAIProvider.api_key := "k";
              AzureOpenAIProvider.azure_endpoint := "https://example.openai.azure.com";
              AzureOpenAIProvider.api_version := "2023-05-15" |}).
  vm_compute; reflexivity.
Defined.

(** X24. The endpoint [Config] resolves does not reach the Azure
    provider. [Config] keeps the Azure endpoint under the key
    [azure_endpoint], the provider reads [base_url]: when
    AZURE_OPENAI_ENDPOINT is not in the environment and no [base_url]
    override is set, a provider built from the dictionary of
    [get_provider_config] raises the AuthenticationError of provider
    [azure_openai] for the missing endpoint, although [is_configured]
    says the provider is configured. *)
Theorem azure_endpoint_not_passed_on environ self :
  is_configured environ self "azure_openai" = true ->
  truthy_str (environ !! "AZURE_OPENAI_ENDPOINT") = false ->
  truthy_str (get_dict (_overrides self) "azure_openai" !! "base_url") = false ->
  AzureOpenAIProvider._get_client (get_provider_config environ self "azure_openai") environ
  = inr {| error_type := "AuthenticationError";
           error :=
             "[azure_openai] AZURE_OPENAI_ENDPOINT environment variable or "
             +:+ "base_url config required (status: 401)" |}.
Proof.
  intros Hconf Henv Hbase.
  destruct azure_no_base_url_variable as (Hvar & Hdef & _).
  assert (truthy_str (_get_value environ self "azure_openai" "api_key") = true) as Hkey.
  { unfold is_configured, validate, get_api_key in Hconf. cbn in Hconf.
    destruct (truthy_str (_get_value environ self "azure_openai" "api_key")); [done|].
    cbn in Hconf. by destruct (negb _). }
  assert (truthy_str (_get_value environ self "azure_openai" "base_url") = false) as Hurl.
  { unfold _get_value. rewrite Hvar, Hdef.
    destruct (get_dict (_overrides self) "azure_openai" !! "base_url"); [done|].
    by destruct (secret_fetcher self). }
  unfold AzureOpenAIProvider._get_client, AzureOpenAIProvider.str_or.
  rewrite !get_provider_config_lookup, Hkey, Hurl, Henv. cbn. by rewrite Hkey.
Qed.

Lemma azure_endpoint_not_passed_on_witness :
  is_configured ∅ ConfigFixtures.azure_set "azure_openai" = true
  ∧ AzureOpenAIProvider._get_client
      (get_provider_config ∅ ConfigFixtures.azure_set "azure_openai") ∅
    = inr {| error_type := "AuthenticationError";
             error :=
               "[azure_openai] AZURE_OPENAI_ENDPOINT environment variable or "
               +:+ "base_url config required (status: 401)" |}.
Proof.
  split; [vm_compute; reflexivity|].
  apply (azure_endpoint_not_passed_on ∅ ConfigFixtures.azure_set);
    vm_compute; reflexivity.
Defined.

End ConfigApiProofs.

Module QueryProofs.
Import Types Client Query QuerySpec.

Section QueryFacts.
Context (options : AgentOptions) (session_id : option string) (dumps : json -> string).
Context (provider : BaseProvider).

Lemma execute_tool_result tool_use st :
  let out := execute_tool options session_id dumps tool_use st in
  _messages out.2 = _messages st
  ∧ provider_calls out.2 = provider_calls st
  ∧ match out.1 with
    | inl result => result_tool_use_id result = id tool_use
    | inr e => Spec.permission_raises options session_id tool_use e
    end.
Proof.
  unfold execute_tool.
  destruct (Query.ask_permission options session_id tool_use) as [[[?|? ?]|e]|] eqn:Hask.
  3:{ simpl. repeat split. unfold Query.ask_permission in Hask.
      destruct (can_use_tool options) as [callback|] eqn:Hcb; [|done].
      injection Hask as Hask. by exists callback. }
  all: repeat match goal with
         | |- context [call_handler ?h ?n ?i ?s] =>
             let H := fresh "Hcall" in
             pose proof (LoopProofs.call_handler_state h n i s) as H;
             destruct (call_handler h n i s) as [? ?];
             specialize (H _ _ eq_refl) as [? ?]
         | |- context [match ?x with _ => _ end] => destruct x eqn:?
         end; simpl in *; simplify_eq; done.
Qed.

Lemma execute_tools_results tool_uses st :
  let out := execute_tools options session_id dumps tool_uses st in
  _messages out.2 = _messages st
  ∧ provider_calls out.2 = provider_calls st
  ∧ match out.1 with
    | inl results => map result_tool_use_id results = map id tool_uses
    | inr e =>
        ∃ tool_use,
          tool_use ∈ tool_uses ∧ Spec.permission_raises options session_id tool_use e
    end.
Proof.
  revert st. induction tool_uses as [|tool_use rest IH]; intros st; simpl; [done|].
  destruct (execute_tool_result tool_use st) as (H1 & H2 & H3).
  destruct (execute_tool options session_id dumps tool_use st) as [[result|e] st1].
  2:{ simpl in *. repeat split; try done. exists tool_use. split; [by left|done]. }
  destruct (IH st1) as (I1 & I2 & I3).
  destruct (execute_tools options session_id dumps rest st1) as [[results|e] st2].
  - simpl in *. repeat split; congruence.
  - simpl in *. repeat split; try congruence.
    destruct I3 as (tool_use' & Hin & Hraise). exists tool_use'. split; [by right|done].
Qed.

Lemma append_all_state ms st :
  _messages (append_all ms st) = _messages st ++ ms
  ∧ provider_calls (append_all ms st) = provider_calls st.
Proof.
  revert st. induction ms as [|m ms IH]; intros st; simpl.
  { by rewrite app_nil_r. }
  destruct (IH (append m st)) as [-> ->]. simpl. by rewrite <- app_assoc.
Qed.

(** What a turn with tool uses does to the client state. *)
Lemma tool_turn_state response st :
  let st1 := append (Assistant response) (count_provider_call st) in
  let out := execute_tools options session_id dumps (tool_uses_of response) st1 in
  match out.1 with
  | inl tool_results =>
      let st2 := append_all (map to_tool_message tool_results) out.2 in
      ∃ results : list ToolMessage,
        _messages st2 = _messages st ++ Assistant response :: map Tool results
        ∧ map tool_call_id results = map id (tool_uses_of response)
        ∧ provider_calls st2 = S (provider_calls st)
  | inr e =>
      _messages out.2 = _messages st ++ [Assistant response]
      ∧ provider_calls out.2 = S (provider_calls st)
      ∧ ∃ tool_use,
          tool_use ∈ tool_uses_of response
          ∧ Spec.permission_raises options session_id tool_use e
  end.
Proof.
  cbv zeta.
  destruct (execute_tools_results (tool_uses_of response)
              (append (Assistant response) (count_provider_call st))) as (H2 & H3 & H1).
  destruct (execute_tools options session_id dumps (tool_uses_of response) _)
    as [[results|e] st1]; simpl in *; [|done].
  destruct (append_all_state (map to_tool_message results) st1) as [-> ->].
  exists (map (fun r => {| tool_content := OpenAI.or_empty (result_content r);
                           tool_call_id := result_tool_use_id r |}) results).
  rewrite H2, H3, <- app_assoc. simpl. rewrite !map_map. simpl. done.
Qed.

Lemma query_loop_total fuel max_turns turns st :
  (max_turns - turns ≤ Z.of_nat fuel)%Z ->
  ∃ g, query_loop options session_id dumps provider fuel max_turns turns st = Some g
       ∧ (∀ e, raised g = Some e -> Spec.may_raise options provider e)
       ∧ ∃ suffix, _messages (after g) = _messages st ++ suffix
                   ∧ Spec.Covered (fun _ => True) (left_unanswered options session_id)
                       suffix
                   ∧ (raised g = None ->
                      Spec.Covered (fun _ => True) (fun _ _ => False) suffix).
Proof.
  revert turns st. induction fuel as [|fuel IH]; intros turns st Hfuel.
  all: cbn [query_loop]; destruct (Z.ltb_spec turns max_turns) as [Hlt|Hge]; try lia.
  1,3: eexists; split; [done|]; split; [done|]; exists []; rewrite app_nil_r;
       split; [done|]; split; [constructor|intros _; constructor].
  assert (∀ msgs e,
            (if stream options
             then let '(msgs, exn) :=
                    provider_stream provider (provider_calls st) (_messages st) in
                  (msgs, match exn with
                         | Some e => inr e
                         | None => inl (last_assistant msgs)
                         end)
             else match provider_complete provider (provider_calls st) (_messages st) with
                  | inl response => ([AMessage (Assistant response)], inl (Some response))
                  | inr e => ([], inr e)
                  end) = (msgs, inr e) ->
            Spec.may_raise options provider e) as Hcalled.
  { intros msgs e. destruct (stream options).
    - destruct (provider_stream provider (provider_calls st) (_messages st))
        as [msgs' [e'|]] eqn:Hcall; intros [= <- <-].
      left. exists (provider_calls st), (_messages st). by rewrite Hcall.
    - destruct (provider_complete provider (provider_calls st) (_messages st))
        as [response|e'] eqn:Hcall; intros [= <- <-].
      right; left. by exists (provider_calls st), (_messages st). }
  destruct (if stream options then _ else _) as [msgs [[response|]|e]].
  2:{ eexists; split; [done|]; split; [done|]; exists []; rewrite app_nil_r;
      split; [done|]; split; [constructor|intros _; constructor]. }
  2:{ eexists; split; [done|]. split; [intros e' [= <-]; by eapply Hcalled|].
      exists []; rewrite app_nil_r. split; [done|]; split; [constructor|done]. }
  clear Hcalled.
  destruct (tool_uses_of response) as [|tool_use rest] eqn:Htools.
  { eexists; split; [done|]. split; [done|]. exists []. rewrite app_nil_r.
    split; [done|]. split; [constructor|intros _; constructor]. }
  rewrite <- Htools.
  pose proof (tool_turn_state response st) as Hturn. cbv zeta in Hturn.
  destruct (execute_tools options session_id dumps (tool_uses_of response) _)
    as [[tool_results|e] st1]; cbn [fst snd] in Hturn.
  - destruct Hturn as (results & Hm & Hids & Hc).
    destruct (IH (turns + 1)%Z (append_all (map to_tool_message tool_results) st1))
      as (g & Hg & Hraise & suffix & Hs & Hcov & Hfull); [lia|].
    rewrite Hg. eexists. split; [done|]. split; [done|].
    exists (Assistant response :: map Tool results ++ suffix). cbn.
    rewrite Hs, Hm, <- app_assoc. split; [done|].
    split; [by constructor|]. intros Hr. constructor; [done|done|by apply Hfull].
  - destruct Hturn as (Hm & Hc & tool_use' & Hin & Hraise).
    eexists. split; [done|]. cbn. split.
    { intros e' [= <-]. destruct Hraise as (callback & Hcb & Hraise).
      right; right. by exists callback, (name tool_use'), (input tool_use'),
        {| perm_session_id := session_id |}. }
    exists [Assistant response]. split; [done|]. split; [|done].
    apply (Spec.Covered_cut _ _ response []). split; [done|]. by exists tool_use', e.
Qed.

Lemma results_in_app a b : results_in (a ++ b) = (results_in a + results_in b)%nat.
Proof. unfold results_in. by rewrite List.filter_app, length_app. Qed.

Lemma query_loop_complete fuel max_turns turns st :
  stream options = false ->
  (max_turns - turns ≤ Z.of_nat fuel)%Z -> (turns < max_turns)%Z ->
  ∃ g, query_loop options session_id dumps provider fuel max_turns turns st = Some g
       ∧ (raised g = None ->
          ∃ front response (calls : nat),
            (1 ≤ calls)%nat
            ∧ provider_calls (after g) = (provider_calls st + calls)%nat
            ∧ (turns + Z.of_nat calls ≤ max_turns)%Z
            ∧ results_in front = 0%nat
            ∧ yielded g
              = front
                ++ AMessage (Assistant response)
                   :: replicate
                        (match tool_uses_of response with [] => 1 | _ => 0 end
                         + if (max_turns <=? turns + Z.of_nat calls)%Z then 1 else 0)
                        (result_message (turns + Z.of_nat calls))).
Proof.
  intros Hmode. revert turns st. induction fuel as [|fuel IH]; intros turns st Hfuel Hlt.
  { lia. }
  cbn [query_loop]. destruct (Z.ltb_spec turns max_turns) as [_|?]; [|lia].
  rewrite Hmode.
  destruct (provider_complete provider (provider_calls st) (_messages st))
    as [response|e]; [|by eexists].
  destruct (tool_uses_of response) as [|tool_use rest] eqn:Htools.
  { eexists. split; [done|]. intros _. exists [], response, 1%nat. cbn.
    rewrite Htools. repeat split; try lia.
    unfold after_loop.
    replace (turns + Z.of_nat 1)%Z with (turns + 1)%Z by lia.
    by destruct (max_turns <=? turns + 1)%Z. }
  rewrite <- Htools.
  pose proof (tool_turn_state response st) as Hturn. cbv zeta in Hturn.
  destruct (execute_tools options session_id dumps (tool_uses_of response) _)
    as [[tool_results|e] st1]; cbn [fst snd] in Hturn; [|by eexists].
  destruct Hturn as (results & Hm & Hids & Hc).
  destruct (Z.ltb_spec (turns + 1) max_turns) as [Hmore|Hlast].
  - destruct (IH (turns + 1)%Z (append_all (map to_tool_message tool_results) st1))
      as (g & Hg & Hinv); [lia|lia|].
    rewrite Hg. eexists. split; [done|]. cbn. intros Hr.
    destruct (Hinv Hr) as (front & last & calls & I1 & I2 & I3 & I4 & I5).
    exists (AMessage (Assistant response) :: front), last, (S calls).
    replace (turns + Z.of_nat (S calls))%Z with (turns + 1 + Z.of_nat calls)%Z by lia.
    split; [lia|]. split; [rewrite I2, Hc; lia|]. split; [lia|]. split; [done|].
    by rewrite I5.
  - assert (query_loop options session_id dumps provider fuel max_turns (turns + 1)
              (append_all (map to_tool_message tool_results) st1)
            = Some {| yielded := after_loop max_turns (turns + 1);
                      raised := None;
                      after := append_all (map to_tool_message tool_results) st1 |}) as ->.
    { destruct fuel; cbn [query_loop];
        destruct (Z.ltb_spec (turns + 1) max_turns); (lia || done). }
    eexists. split; [done|]. cbn. intros _.
    exists [], response, 1%nat.
    replace (turns + Z.of_nat 1)%Z with (turns + 1)%Z by lia.
    rewrite Htools. repeat split; try lia.
    unfold after_loop. destruct (Z.leb_spec max_turns (turns + 1)); [done|lia].
Qed.

Lemma query_loop_stream fuel max_turns turns st :
  stream options = true ->
  (max_turns - turns ≤ Z.of_nat fuel)%Z ->
  ∃ g, query_loop options session_id dumps provider fuel max_turns turns st = Some g
       ∧ ∃ outputs : list (list AnyMessage),
           Forall (fun out => ∃ n h, out = (provider_stream provider n h).1) outputs
           ∧ provider_calls (after g) = (provider_calls st + length outputs)%nat
           ∧ ((turns < max_turns)%Z -> (1 ≤ length outputs)%nat)
           ∧ (turns + Z.of_nat (length outputs) ≤ Z.max turns max_turns)%Z
           ∧ yielded g
             = concat outputs
               ++ match raised g with
                  | None => after_loop max_turns (turns + Z.of_nat (length outputs))
                  | Some _ => []
                  end.
Proof.
  intros Hmode. revert turns st. induction fuel as [|fuel IH]; intros turns st Hfuel.
  all: cbn [query_loop]; destruct (Z.ltb_spec turns max_turns) as [Hlt|Hge]; try lia.
  1,3: eexists; split; [done|]; exists []; cbn; rewrite Z.add_0_r;
       repeat split; try done; lia.
  rewrite Hmode.
  pose proof (ex_intro (fun n => ∃ h, (provider_stream provider (provider_calls st)
                                         (_messages st)).1
                                      = (provider_stream provider n h).1)
                (provider_calls st) (ex_intro _ (_messages st) eq_refl)) as Hout.
  destruct (provider_stream provider (provider_calls st) (_messages st)) as [msgs exn].
  cbn [fst] in Hout.
  destruct exn as [e|].
  { eexists; split; [done|]. exists [msgs]. cbn. rewrite !app_nil_r.
    repeat split; try done; try lia. by repeat constructor. }
  destruct (last_assistant msgs) as [response|].
  2:{ eexists; split; [done|]. exists [msgs]. cbn. rewrite !app_nil_r.
      replace (turns + Z.of_nat 1)%Z with (turns + 1)%Z by lia.
      repeat split; try done; try lia. by repeat constructor. }
  destruct (tool_uses_of response) as [|tool_use rest] eqn:Htools.
  { eexists; split; [done|]. exists [msgs]. cbn. rewrite !app_nil_r.
    replace (turns + Z.of_nat 1)%Z with (turns + 1)%Z by lia.
    repeat split; try done; try lia. by repeat constructor. }
  rewrite <- Htools.
  pose proof (tool_turn_state response st) as Hturn. cbv zeta in Hturn.
  destruct (execute_tools options session_id dumps (tool_uses_of response) _)
    as [[tool_results|e] st1]; cbn [fst snd] in Hturn.
  2:{ destruct Hturn as (Hm & Hc & _).
      eexists; split; [done|]. exists [msgs]. cbn. rewrite !app_nil_r.
      repeat split; try done; try lia. by repeat constructor. }
  destruct Hturn as (results & Hm & Hids & Hc).
  destruct (IH (turns + 1)%Z (append_all (map to_tool_message tool_results) st1))
    as (g & Hg & outputs & I1 & I2 & I3 & I4 & I5); [lia|].
  rewrite Hg. eexists. split; [done|]. exists (msgs :: outputs). cbn [length concat].
  replace (turns + Z.of_nat (S (length outputs)))%Z
    with (turns + 1 + Z.of_nat (length outputs))%Z by lia.
  repeat split; try lia.
  - by constructor.
  - cbn. rewrite I2, Hc. lia.
  - cbn. rewrite I5. by rewrite app_assoc.
Qed.

End QueryFacts.



(** X27. In streaming mode the one-shot query passes on everything the
    provider streams. [_query_with_tools] yields the messages of each
    provider stream in full and in order, ResultMessages included, and
    adds a single ResultMessage of its own only when the turns have run
    out. So with a provider whose stream carries one ResultMessage per
    call, as those of the repository do, a query that takes several
    turns yields one ResultMessage per turn. *)
Theorem streaming_query_passes_results options session_id dumps provider st :
  ∃ g (outputs : list (list AnyMessage)),
    _query_with_tools (set_stream true options) session_id dumps provider st = Some g
    ∧ Forall (fun out => ∃ n h, out = (provider_stream provider n h).1) outputs
    ∧ provider_calls (after g) = (provider_calls st + length outputs)%nat
    ∧ yielded g
      = concat outputs
        ++ match raised g with
           | None =>
               Query.after_loop (effective_max_turns options) (Z.of_nat (length outputs))
           | Some _ => []
           end
    ∧ ((∀ n h, results_in (provider_stream provider n h).1 = 1%nat) ->
       raised g = None ->
       results_in (yielded g)
       = (length outputs
          + if (effective_max_turns options <=? Z.of_nat (length outputs))%Z
            then 1 else 0)%nat).
Proof.
  unfold _query_with_tools.
  change (effective_max_turns (set_stream true options))
    with (effective_max_turns options).
  destruct (query_loop_stream (set_stream true options) session_id dumps provider
              (Z.to_nat (effective_max_turns options)) (effective_max_turns options) 0 st
              eq_refl) as (g & Hg & outputs & I1 & I2 & I3 & I4 & I5); [lia|].
  exists g, outputs. rewrite Z.add_0_l in I5. repeat split; try done.
  intros Hone Hr. rewrite I5, Hr, results_in_app.
  assert (results_in (concat outputs) = length outputs) as ->.
  { clear -I1 Hone. induction I1 as [|out outputs (n & h & ->) _ IH]; [done|].
    cbn [concat length]. by rewrite results_in_app, Hone, IH. }
  f_equal. unfold Query.after_loop. by destruct (_ <=? _)%Z.
Qed.

End QueryProofs.

Module EdgeProofs.
Import Types Client ClientSpec.

Lemma slice_to_prefix n s :
  ∃ rest, s = slice_to n s +:+ rest
          ∧ len (slice_to n s) = Nat.min n (len s)
          ∧ starts_code_point rest.
Proof.
  revert n. induction s as [|c s IH]; intros n; cbn [slice_to len].
  { exists "". repeat split. lia. }
  destruct (is_continuation c) eqn:Hc.
  - destruct (IH n) as (rest & Hrest & Hlen & Hstart). exists rest.
    rewrite StreamProofs.append_cons, <- Hrest. split; [done|]. split; [|done].
    cbn [len]. rewrite Hc. simpl. exact Hlen.
  - destruct n as [|n].
    + exists (String c s). rewrite StreamProofs.append_nil_l. repeat split; done.
    + destruct (IH n) as (rest & Hrest & Hlen & Hstart). exists rest.
      rewrite StreamProofs.append_cons, <- Hrest. split; [done|]. split; [|done].
      cbn [len]. rewrite Hc, Hlen. lia.
Qed.

Lemma truncate_output_prefix content :
  ∃ rest, content = truncate_output content +:+ rest
          ∧ len (truncate_output content) = Nat.min 500 (len content)
          ∧ ((len content ≤ 500)%nat -> rest = "")
          ∧ starts_code_point rest.
Proof.
  unfold truncate_output. destruct (Nat.ltb_spec 500 (len content)) as [Hlong|Hshort].
  - destruct (slice_to_prefix 500 content) as (rest & Hrest & Hlen & Hstart).
    exists rest. split; [done|]. split; [done|]. split; [lia|done].
  - exists "". rewrite StreamProofs.append_nil_r. repeat split. lia.
Qed.

(** X28. The output shown in a tool event is the head of the tool
    message. When [_execute_tools_with_events] reports a tool use as
    completed, the [output] of the event is the first 500 characters
    (code points, not bytes) of the content of the tool message
    appended to the history for that tool use, cut between two
    characters, and the whole content when that has at most 500
    characters; the history keeps the content in full. *)
Theorem tool_event_output_truncated options _session_id dumps tool_use st output :
  let out := execute_tool_with_events options _session_id dumps tool_use st in
  AEvent (tool_execution_complete tool_use output) ∈ map AEvent out.1.1 ->
  ∃ content rest,
    _messages out.2 = _messages st ++ [tool_message content (id tool_use)]
    ∧ content = output +:+ rest
    ∧ len output = Nat.min 500 (len content)
    ∧ ((len content ≤ 500)%nat -> rest = "")
    ∧ starts_code_point rest.
Proof.
  cbv zeta. unfold execute_tool_with_events.
  assert (∀ e : option string,
            tool_execution_complete tool_use output ≠ tool_execution_error tool_use e)
    as Herr by (intros e [=]).
  assert (tool_execution_complete tool_use output ≠ tool_execution_start tool_use)
    as Hstart by (intros [=]).
  assert (∀ c,
            AEvent (tool_execution_complete tool_use output)
            ∈ map AEvent [tool_execution_start tool_use;
                          tool_execution_complete tool_use (truncate_output c)] ->
            ∃ rest,
              c = output +:+ rest
              ∧ len output = Nat.min 500 (len c)
              ∧ ((len c ≤ 500)%nat -> rest = "")
              ∧ starts_code_point rest) as Hok.
  { intros c Hin. cbn in Hin.
    apply elem_of_cons in Hin as [[=]|Hin].
    apply elem_of_cons in Hin as [[= ->]|Hin]; [|by apply elem_of_nil in Hin].
    apply truncate_output_prefix. }
  assert (∀ (e : option string),
            AEvent (tool_execution_complete tool_use output)
            ∈ map AEvent [tool_execution_start tool_use; tool_execution_error tool_use e] ->
            False) as Hbad.
  { intros e Hin. cbn in Hin.
    apply elem_of_cons in Hin as [[=]|Hin].
    apply elem_of_cons in Hin as [[=]|Hin]. by apply elem_of_nil in Hin. }
  assert (AEvent (tool_execution_complete tool_use output)
          ∈ map AEvent [tool_execution_start tool_use] -> False) as Hraised.
  { intros Hin. cbn in Hin.
    apply elem_of_cons in Hin as [[=]|Hin]. by apply elem_of_nil in Hin. }
  repeat match goal with
         | |- context [call_handler ?h ?n ?i ?s] =>
             let H := fresh "Hcall" in
             pose proof (LoopProofs.call_handler_state h n i s) as H;
             destruct (call_handler h n i s) as [? ?];
             specialize (H _ _ eq_refl) as [? ?]
         | |- context [match ?x with _ => _ end] => destruct x eqn:?
         end; cbn [fst snd]; intros Hin;
    try (by destruct (Hbad _ Hin)); try (by destruct (Hraised Hin)).
  all: destruct (Hok _ Hin) as (rest & H1 & H2).
  all: eexists _, rest; split; [|done].
  all: cbn; f_equal; congruence.
Qed.

Lemma tool_event_output_truncated_witness :
  ∃ content rest,
    _messages
      (execute_tool_with_events Fixtures.accented "sess" Scenarios.dumps
         Fixtures.accent_request Scenarios.fresh).2
    = _messages Scenarios.fresh ++ [tool_message content "t1"]
    ∧ content = Fixtures.accents 500 +:+ rest
    ∧ len (Fixtures.accents 500) = Nat.min 500 (len content).
Proof.
  destruct (tool_event_output_truncated Fixtures.accented "sess" Scenarios.dumps
              Fixtures.accent_request Scenarios.fresh (Fixtures.accents 500))
    as (content & rest & H1 & H2 & H3 & _).
  { vm_compute. right. left. }
  by exists content, rest.
Defined.

(** The truncation counts characters: 300 letters with an accent, 600
    bytes, are kept whole; of 501 of them the first 500 are kept. *)
Example accents_truncated :
  String.length (Fixtures.accents 300) = 600%nat
  ∧ truncate_output (Fixtures.accents 300) = Fixtures.accents 300
  ∧ truncate_output (Fixtures.accents 501) = Fixtures.accents 500.
Proof. vm_compute. done. Qed.

(** X29. A negative [max_turns] is not rejected. With [max_turns]
    below zero a [receive] after a [send] makes no provider call, runs
    no tool, and yields a single ResultMessage that reports success
    with [num_turns] zero. *)
Theorem negative_max_turns_calls_nothing options _session_id dumps provider n
    connected st :
  max_turns options = Some n -> (n < 0)%Z ->
  ∀ p, p = StreamWithTools ∨ p = CompleteWithTools ->
  receive options _session_id dumps provider
    {| _connected := connected; state := st; _pending_response := Some p |}
  = Some {| received := [result_message _session_id 0];
            receive_raised := None;
            client := {| _connected := connected;
                         state := st;
                         _pending_response := None |} |}.
Proof.
  intros Hn Hneg p Hp.
  assert (effective_max_turns options = n) as Heff.
  { unfold effective_max_turns. rewrite Hn. destruct (Z.eqb_spec n 0); [lia|done]. }
  unfold receive. cbn [_pending_response state _connected].
  assert (run_pending options _session_id dumps provider p st
          = Some {| yielded := [result_message _session_id 0];
                    raised := None; after := st |}) as ->.
  { destruct Hp as [-> | ->]; cbn [run_pending];
      unfold _stream_with_tools, _complete_with_tools; rewrite Heff;
      destruct (Z.to_nat n); cbn [stream_loop complete_loop];
      destruct (Z.ltb_spec 0 n); try lia;
      unfold after_loop; destruct (Z.leb_spec n 0); (lia || done). }
  done.
Qed.

Lemma negative_max_turns_calls_nothing_witness :
  received
  <$> receive (Spec.set_max_turns (Some (-1)%Z) Scenarios.two_turns) "sess" Scenarios.dumps
        Scenarios.always_add Scenarios.streaming
  = Some [result_message "sess" 0].
Proof.
  unfold Scenarios.streaming.
  rewrite (negative_max_turns_calls_nothing
             (Spec.set_max_turns (Some (-1)%Z) Scenarios.two_turns) "sess" Scenarios.dumps
             Scenarios.always_add (-1) true Scenarios.fresh eq_refl ltac:(lia)
             StreamWithTools (or_introl eq_refl)).
  reflexivity.
Defined.

End EdgeProofs.

Module ServerProofs.
Import Types StreamSpec AgentServer.

Lemma events_of_events (evs : list StreamEvent) rest :
  (∀ m, m ∈ rest -> match m with AEvent _ => False | _ => True end) ->
  events_of (map AEvent evs ++ rest) = evs.
Proof.
  intros Hrest. unfold events_of. rewrite omap_app.
  assert (omap (fun m => match m with AEvent e => Some e | _ => None end) rest = []) as ->.
  { induction rest as [|m rest IH]; [done|]. cbn.
    pose proof (Hrest m ltac:(by left)) as Hm. destruct m; try done.
    all: apply IH; intros m' Hm'; apply Hrest; by right. }
  rewrite app_nil_r. induction evs as [|e evs IH]; cbn; [done|]. by rewrite IH.
Qed.

(** Every event of the OpenAI-dialect stream is a text fragment or a
    tool-call fragment. *)
Lemma openai_event_shapes (P : StreamEvent -> Prop) loads chunks :
  (∀ s, P {| event_type := "content_block_delta"; index := None;
             delta := Some [("type", JStr "text"); ("text", JStr s)] |}) ->
  (∀ idx i n a, P {| event_type := "tool_call_delta"; index := Some idx;
                     delta := Some [("type", JStr "tool_call"); ("id", i);
                                    ("name", n); ("arguments", a)] |}) ->
  Forall P (events_of (OpenAI.stream loads chunks)).
Proof.
  intros Htext Hcall.
  assert (∀ tcs tool_calls, Forall P (OpenAI.on_tool_calls tcs tool_calls).2) as Htools.
  { induction tcs as [|tc tcs IH]; intros tool_calls; cbn [OpenAI.on_tool_calls];
      [constructor|].
    destruct (OpenAI.on_tool_call tc tool_calls) as [tcs1 ev] eqn:Hone.
    specialize (IH tcs1). destruct (OpenAI.on_tool_calls tcs tcs1) as [tcs2 evs].
    cbn [fst snd] in *. constructor; [|done].
    unfold OpenAI.on_tool_call in Hone. injection Hone as _ <-. apply Hcall. }
  assert (∀ chunk acc, Forall P (OpenAI.on_chunk chunk acc).2) as Hchunk.
  { intros chunk acc. unfold OpenAI.on_chunk.
    destruct (OpenAI.choices chunk) as [|choice rest]; [constructor|].
    destruct (truthy_str (OpenAI.delta_content (OpenAI.choice_delta choice)));
      destruct (OpenAI.delta_tool_calls (OpenAI.choice_delta choice)) as [tcs|].
    - specialize (Htools tcs (OpenAI.tool_calls acc)).
      destruct (OpenAI.on_tool_calls tcs (OpenAI.tool_calls acc)) as [tcs1 evs].
      cbn [fst snd] in *. constructor; [apply Htext|done].
    - cbn. constructor; [apply Htext|constructor].
    - specialize (Htools tcs (OpenAI.tool_calls acc)).
      by destruct (OpenAI.on_tool_calls tcs (OpenAI.tool_calls acc)) as [tcs1 evs].
    - constructor. }
  assert (∀ acc, Forall P (OpenAI.on_chunks chunks acc).2) as Hall.
  { induction chunks as [|chunk chunks IH]; intros acc; cbn [OpenAI.on_chunks];
      [constructor|].
    specialize (Hchunk chunk acc). destruct (OpenAI.on_chunk chunk acc) as [acc1 evs].
    specialize (IH acc1). destruct (OpenAI.on_chunks chunks acc1) as [acc2 more].
    cbn [fst snd] in *. by apply Forall_app. }
  unfold OpenAI.stream. specialize (Hall OpenAI.initial).
  destruct (OpenAI.on_chunks chunks OpenAI.initial) as [acc evs]. cbn [fst snd] in Hall.
  rewrite events_of_events; [done|].
  intros m [->|[->|[]%elem_of_nil]%elem_of_cons]%elem_of_cons; done.
Qed.

(** Every event of the Anthropic-dialect stream is what one vendor
    event makes the provider emit. *)
Lemma claude_event_shapes (P : StreamEvent -> Prop) loads raw_events :
  (∀ raw, Forall P (emit raw)) ->
  Forall P (events_of (Claude.stream loads raw_events)).
Proof.
  intros Hemit. unfold Claude.stream.
  pose proof (StreamProofs.on_events_emitted loads raw_events Claude.initial) as Hev.
  destruct (Claude.on_events loads raw_events Claude.initial) as [acc evs].
  cbn [fst snd] in Hev. subst evs.
  rewrite events_of_events.
  - induction raw_events as [|raw raw_events IH]; cbn; [constructor|].
    apply Forall_app. split; [apply Hemit|apply IH].
  - intros m [->|[->|[]%elem_of_nil]%elem_of_cons]%elem_of_cons; done.
Qed.

(** X30. The agent server streams no text for the OpenAI dialect. The
    SSE translation of [stream_query] yields a line for a text fragment
    only when the event's delta type is [text_delta]: for every event
    of the Anthropic-dialect stream that carries text it yields one
    [stream] line with that text, and for every event of the
    OpenAI-dialect stream that carries text it yields nothing, so that
    text reaches the browser only with the final [message] line. *)
Theorem openai_text_not_streamed dumps loads timestamp chunks raw_events :
  Forall (fun e => ∀ s, text_payload e = Some s ->
                        on_stream_event dumps timestamp e = [])
    (events_of (OpenAI.stream loads chunks))
  ∧ Forall (fun e => ∀ s, text_payload e = Some s ->
                          on_stream_event dumps timestamp e
                          = [sse dumps [("type", JStr "stream");
                                        ("event_type", JStr "text_delta");
                                        ("delta", JDict [("type", JStr "text");
                                                         ("text", JStr s)]);
                                        ("timestamp", JStr timestamp)]])
      (events_of (Claude.stream loads raw_events)).
Proof.
  split.
  - apply openai_event_shapes.
    + intros s s' _. reflexivity.
    + intros idx i n a s [=].
  - apply claude_event_shapes. intros raw.
    destruct raw as [| idx block | idx [| | | |] | idx | | |]; unfold emit; cbn;
      repeat constructor; intros s' [=]; by subst.
Qed.

End ServerProofs.
